(** * public-opinion-scraper: sentiment aggregation and time-series analytics

    A shallow embedding of
    [src/sentiment_monitor/analysis/sentiment_analyzer.py] and
    [src/sentiment_monitor/analysis/analytics.py].

    Python's [float] is IEEE binary64.  The code is written once over a small
    numeric interface ([Numeric]) and read at two instances:
    - [float]: Rocq's primitive binary64 floats, which is what CPython runs;
    - [R]: the real numbers, the rounding-free reading of the same code. *)

From Stdlib Require Import ZArith QArith Reals Lra Lia Bool List Ascii String.
From Stdlib Require Import Floats Permutation Sorted.
From stdpp Require Import base option list strings gmap.

Set Warnings "-inexact-float".

(** ** Numbers *)

Declare Scope num_scope.
Delimit Scope num_scope with num.

Class Numeric (num : Type) := {
  of_Z : Z -> num;                 (* an int used where a float is expected *)
  of_Q : Q -> num;                 (* a decimal literal of the source *)
  nadd : num -> num -> num;
  nsub : num -> num -> num;
  nmul : num -> num -> num;
  ndiv : num -> num -> num;
  nabs : num -> num;
  nsqrt : num -> num;
  neqb : num -> num -> bool;
  nltb : num -> num -> bool;
  nleb : num -> num -> bool
}.

Infix "+" := nadd : num_scope.
Infix "-" := nsub : num_scope.
Infix "*" := nmul : num_scope.
Infix "/" := ndiv : num_scope.
Infix "=?" := neqb : num_scope.
Infix "<?" := nltb : num_scope.
Infix "<=?" := nleb : num_scope.

(** [a > b] and [a >= b] are [b < a] and [b <= a]. *)
Definition gtb {num : Type} `{Numeric num} (a b : num) : bool := nltb b a.
Definition geb {num : Type} `{Numeric num} (a b : num) : bool := nleb b a.
Infix ">?" := gtb : num_scope.
Infix ">=?" := geb : num_scope.

(** The builtin [min(a, b)]: keeps [a] unless [b < a]. *)
Definition py_min {num : Type} `{Numeric num} (a b : num) : num :=
  if nltb b a then b else a.

Module FloatNum.

Definition float_of_Z (z : Z) : float :=
  match z with
  | Z0 => PrimFloat.zero
  | Zpos _ => PrimFloat.of_uint63 (Uint63.of_Z z)
  | Zneg p => PrimFloat.opp (PrimFloat.of_uint63 (Uint63.of_Z (Zpos p)))
  end.

(** A decimal literal [n/d] with [n] and [d] exact in binary64: the
    correctly rounded quotient is the literal's value. *)
Definition float_of_Q (q : Q) : float :=
  PrimFloat.div (float_of_Z (Qnum q)) (float_of_Z (Zpos (Qden q))).

#[global] Instance float_numeric : Numeric float := {|
  of_Z := float_of_Z;
  of_Q := float_of_Q;
  nadd := PrimFloat.add;
  nsub := PrimFloat.sub;
  nmul := PrimFloat.mul;
  ndiv := PrimFloat.div;
  nabs := PrimFloat.abs;
  nsqrt := PrimFloat.sqrt;
  neqb := PrimFloat.eqb;
  nltb := PrimFloat.ltb;
  nleb := PrimFloat.leb
|}.

End FloatNum.

Module RealNum.

Definition Reqb (x y : R) : bool := if Req_dec_T x y then true else false.
Definition Rltb (x y : R) : bool := if Rlt_dec x y then true else false.
Definition Rleb (x y : R) : bool := if Rle_dec x y then true else false.

#[global] Instance real_numeric : Numeric R := {|
  of_Z := IZR;
  of_Q := Q2R;
  nadd := Rplus;
  nsub := Rminus;
  nmul := Rmult;
  ndiv := Rdiv;
  nabs := Rabs;
  nsqrt := R_sqrt.sqrt;
  neqb := Reqb;
  nltb := Rltb;
  nleb := Rleb
|}.

End RealNum.

(** ** Strings: [str.split(sep)] with a one-character separator *)

(** [split_on sep s] is [s.split(sep)]: the pieces between the occurrences
    of [sep], never an empty list. *)
Fixpoint split_on (sep : ascii) (s : string) : list string :=
  match s with
  | EmptyString => [EmptyString]
  | String c s' =>
      if Ascii.eqb c sep then EmptyString :: split_on sep s'
      else match split_on sep s' with
           | [] => [String c EmptyString]
           | w :: ws => String c w :: ws
           end
  end.

(** [l[-1]] and [l[0]] on the result of a split (which is never empty). *)
Definition py_last (l : list string) : string := List.last l EmptyString.
Definition py_first (l : list string) : string := List.hd EmptyString l.

(** ** Model results and the aggregator *)

Section Aggregator.
Context {num : Type} `{Numeric num}.
Local Open Scope num_scope.

(** One adapter's result dict. *)
Record ModelResult := {
  model_name : string;
  compound_score : num;
  positive_score : num;
  negative_score : num;
  neutral_score : num;
  confidence : num
}.

(** [config.sentiment.models[...]['weight']], already resolved with the
    defaults 0.4 and 0.6 of lines 351-352. *)
Record Weights := {
  vader_weight : num;
  roberta_weight : num
}.

Definition default_weights : Weights :=
  {| vader_weight := of_Q 0.4; roberta_weight := of_Q 0.6 |}.

(** [result['model_name'].split('/')[-1].split('-')[0]] *)
Definition model_key (name : string) : string :=
  py_first (split_on "-" (py_last (split_on "/" name))).

(** [weights.get(model_name, 1.0)] on
    [{'vader': vader_weight, 'roberta': roberta_weight}] *)
Definition weights_get (w : Weights) (key : string) : num :=
  if String.eqb key "vader" then vader_weight w
  else if String.eqb key "roberta" then roberta_weight w
  else of_Q 1.0.

(** A dict in insertion order: assigning to a present key replaces the
    value in place, a new key is appended. *)
Fixpoint dict_set {V} (d : list (string * V)) (k : string) (v : V)
  : list (string * V) :=
  match d with
  | [] => [(k, v)]
  | (k', v') :: d' =>
      if String.eqb k' k then (k', v) :: d' else (k', v') :: dict_set d' k v
  end.

Definition dict_keys {V} (d : list (string * V)) : list string := map fst d.

(** The loop state of [get_weighted_sentiment]. *)
Record Acc := {
  total_weight : num;
  weighted_compound : num;
  weighted_positive : num;
  weighted_negative : num;
  weighted_neutral : num;
  weighted_confidence : num;
  model_results : list (string * ModelResult)
}.

Definition acc0 : Acc := {|
  total_weight := of_Z 0;
  weighted_compound := of_Z 0;
  weighted_positive := of_Z 0;
  weighted_negative := of_Z 0;
  weighted_neutral := of_Z 0;
  weighted_confidence := of_Z 0;
  model_results := []
|}.

(** The body of [for result in results]. *)
Definition acc_step (w : Weights) (a : Acc) (result : ModelResult) : Acc :=
  let key := model_key (model_name result) in
  let weight := weights_get w key in
  {| weighted_compound := weighted_compound a + compound_score result * weight;
     weighted_positive := weighted_positive a + positive_score result * weight;
     weighted_negative := weighted_negative a + negative_score result * weight;
     weighted_neutral := weighted_neutral a + neutral_score result * weight;
     weighted_confidence := weighted_confidence a + confidence result * weight;
     total_weight := total_weight a + weight;
     model_results := dict_set (model_results a) key result |}.

Definition accumulate (w : Weights) (results : list ModelResult) : Acc :=
  fold_left (acc_step w) results acc0.

(** [final_result]. *)
Record Aggregated := {
  agg_compound : num;
  agg_positive : num;
  agg_negative : num;
  agg_neutral : num;
  agg_confidence : num;
  model_count : nat;
  models_used : list string;
  individual_results : list (string * ModelResult)
}.

Definition get_weighted_sentiment (w : Weights) (results : list ModelResult)
  : option Aggregated :=
  match results with
  | [] => None
  | _ =>
      let a := accumulate w results in
      if total_weight a =? of_Z 0 then None
      else Some {|
        agg_compound := weighted_compound a / total_weight a;
        agg_positive := weighted_positive a / total_weight a;
        agg_negative := weighted_negative a / total_weight a;
        agg_neutral := weighted_neutral a / total_weight a;
        agg_confidence := weighted_confidence a / total_weight a;
        model_count := length results;
        models_used := dict_keys (model_results a);
        individual_results := model_results a |}
  end.

Inductive Label := positive | negative | neutral.

Definition get_sentiment_label (compound : num) : Label :=
  if compound >=? of_Q 0.05 then positive
  else if compound <=? of_Q (-0.05) then negative
  else neutral.

End Aggregator.

Arguments ModelResult num : clear implicits.
Arguments Weights num : clear implicits.
Arguments Acc num : clear implicits.
Arguments Aggregated num : clear implicits.

(** ** Exceptions *)

(** The exceptions the analytics code can meet; [try: ... except Exception]
    catches all of them. *)
Inductive exn :=
| IndexError
| KeyError (key : string)
| ValueError (msg : string).

Inductive pyres (A : Type) :=
| Ok (a : A)
| Raise (e : exn).
Arguments Ok {A} a.
Arguments Raise {A} e.

Definition pybind {A B} (c : pyres A) (k : A -> pyres B) : pyres B :=
  match c with
  | Ok a => k a
  | Raise e => Raise e
  end.

Notation "'let*' x ':=' c 'in' k" := (pybind c (fun x => k))
  (at level 10, x name, c at level 100, k at level 200).

(** [str(e)] for the exceptions above. *)
Definition exn_str (e : exn) : string :=
  match e with
  | IndexError => "single positional indexer is out-of-bounds"
  | KeyError k => k
  | ValueError m => m
  end.

(** ** Samples, series and rolling windows *)

Section Analytics.
Context {num : Type} `{Numeric num}.
Local Open Scope num_scope.

(** One row of [db.get_sentiment_trends]; the timestamp is a [datetime],
    counted here in microseconds. *)
Record Sample := {
  timestamp : Z;
  sentiment : num;
  sample_confidence : num;
  model : string
}.

(** [df.sort_values('timestamp')], as a stable insertion sort.  The order
    pandas gives to samples of the same timestamp is another (its default
    sort is not stable); what is proved below holds for either order. *)
Fixpoint insert_sample (s : Sample) (l : list Sample) : list Sample :=
  match l with
  | [] => [s]
  | s' :: l' =>
      if (timestamp s <? timestamp s')%Z then s :: s' :: l'
      else s' :: insert_sample s l'
  end.

Definition sort_values (l : list Sample) : list Sample :=
  fold_left (fun acc s => insert_sample s acc) l [].

(** A float that may be NaN: pandas' missing value. *)
Definition nan_or (A : Type) := option A.

Definition nsum (l : list num) : num := fold_left nadd l (of_Z 0).

Definition mean (l : list num) : num := nsum l / of_Z (Z.of_nat (length l)).

(** Sum of squared deviations from the mean. *)
Definition sq_dev (l : list num) : num :=
  let m := mean l in nsum (map (fun x => (x - m) * (x - m)) l).

(** [Series.std()]: the sample standard deviation ([ddof=1]); NaN for fewer
    than two values. *)
Definition std (l : list num) : nan_or num :=
  if (length l <? 2)%nat then None
  else Some (nsqrt (sq_dev l / of_Z (Z.of_nat (length l - 1)))).

(** The window that ends at row [i]: rows [i+1-w .. i]. *)
Definition window_at (w i : nat) (l : list num) : list num :=
  firstn w (skipn (i + 1 - w) l).

(** [series.rolling(window=w).agg()]: NaN until the window is full.  Each
    window is aggregated on its own, which is the value pandas computes
    when there is no rounding; in binary64 pandas updates a running sum
    from window to window, and its last digits can differ. *)
Definition rolling (agg : list num -> nan_or num) (w : nat) (l : list num)
  : list (nan_or num) :=
  map (fun i => if (w <=? i + 1)%nat then agg (window_at w i l) else None)
      (seq 0 (length l)).

Definition rolling_mean (w : nat) (l : list num) : list (nan_or num) :=
  rolling (fun win => Some (mean win)) w l.

Definition rolling_std (w : nat) (l : list num) : list (nan_or num) :=
  rolling std w l.

(** [series.iloc[-k]] for [k >= 1]. *)
Definition iloc_neg {A} (l : list A) (k : nat) : pyres A :=
  if ((1 <=? k) && (k <=? length l))%nat then
    match nth_error l (length l - k) with
    | Some a => Ok a
    | None => Raise IndexError
    end
  else Raise IndexError.

(** [series.tail(k)] *)
Definition tail {A} (k : nat) (l : list A) : list A :=
  skipn (length l - k) l.

(** Comparisons with a NaN operand are false. *)
Definition nan_ltb (a b : nan_or num) : bool :=
  match a, b with
  | Some x, Some y => x <? y
  | _, _ => false
  end.

(** ** Trend analysis *)

Inductive Direction :=
| improving | declining | stable | insufficient_data | error.

Record TrendAnalysis := {
  keyword : string;
  period_hours : Z;
  trend_direction : Direction;
  trend_strength : num;
  sentiment_change : num;
  confidence_score : num;
  data_points : nat;
  r_squared : num
}.

(** [timedelta.total_seconds() / 3600] of a difference in microseconds. *)
Definition hours_since (t0 t : Z) : num :=
  of_Z (t - t0) / of_Z 1000000 / of_Z 3600.

Definition list_min (l : list Z) : Z :=
  match l with
  | [] => 0%Z
  | t :: l' => fold_left Z.min l' t
  end.

Definition num_max (l : list num) (d : num) : num :=
  fold_left (fun m x => if m <? x then x else m) l d.
Definition num_min (l : list num) (d : num) : num :=
  fold_left (fun m x => if x <? m then x else m) l d.

Record LinregressResult := {
  slope : num;
  intercept : num;
  rvalue : num
}.

(** [np.nan] where a number is expected: the quotient [0.0 / 0.0], which
    binary64 evaluates to NaN.  The reals have no such value: what is
    proved over them is stated where it does not occur. *)
Definition np_nan : num := of_Q 0.0 / of_Q 0.0.

(** [scipy.stats.linregress(x, y)], by the formulas of its documentation:
    least squares on the biased covariance matrix, the correlation clipped
    to [-1, 1]; when a variance is 0 the correlation is NaN if the
    covariance is 0 too, as it is for a constant [y], and 0 otherwise;
    identical [x] values raise [ValueError]. *)
Definition linregress (x y : list num) : pyres LinregressResult :=
  match x with
  | [] => Raise (ValueError "Inputs must not be empty.")
  | x0 :: _ =>
      if (num_max x x0 =? num_min x x0) && (1 <? length x)%nat then
        Raise (ValueError
          "Cannot calculate a linear regression if all x values are identical")
      else
        let n := of_Z (Z.of_nat (length x)) in
        let xmean := mean x in
        let ymean := mean y in
        let ssxm := nsum (map (fun a => (a - xmean) * (a - xmean)) x) / n in
        let ssxym :=
          nsum (map (fun p => (fst p - xmean) * (snd p - ymean)) (combine x y)) / n in
        let ssym := nsum (map (fun b => (b - ymean) * (b - ymean)) y) / n in
        let r :=
          if (ssxm =? of_Q 0.0) || (ssym =? of_Q 0.0) then
            if ssxym =? of_Z 0 then np_nan else of_Q 0.0
          else
            let r := ssxym / nsqrt (ssxm * ssym) in
            if r >? of_Q 1.0 then of_Q 1.0
            else if r <? of_Q (-1.0) then of_Q (-1.0)
            else r in
        let slope := ssxym / ssxm in
        Ok {| slope := slope; intercept := ymean - slope * xmean; rvalue := r |}
  end.

(** The [try] body of [analyze_trends]; [trends] is what
    [db.get_sentiment_trends(keyword, hours)] returned. *)
Definition analyze_trends_body (kw : string) (hours : Z) (trends : list Sample)
  : pyres TrendAnalysis :=
  if (length trends <? 3)%nat then
    Ok {| keyword := kw; period_hours := hours;
          trend_direction := insufficient_data;
          trend_strength := of_Q 0.0; sentiment_change := of_Q 0.0;
          confidence_score := of_Q 0.0; data_points := length trends;
          r_squared := of_Q 0.0 |}
  else
    let df := sort_values trends in
    let t0 := list_min (map timestamp df) in
    let x := map (fun s => hours_since t0 (timestamp s)) df in
    let y := map sentiment df in
    let* lr := linregress x y in
    let trend_strength := nabs (rvalue lr) in
    let trend_direction :=
      if nabs (slope lr) <? of_Q 0.001 then stable
      else if slope lr >? of_Z 0 then improving
      else declining in
    let* sentiment_change :=
      if (0 <? length y)%nat then
        let* last := iloc_neg y 1 in
        let* first := match y with
                      | y0 :: _ => Ok y0
                      | [] => Raise IndexError
                      end in
        Ok (last - first)
      else Ok (of_Q 0.0) in
    let confidence_score :=
      py_min (rvalue lr * rvalue lr
              * (of_Z (Z.of_nat (length trends)) / of_Z 10))
             (of_Q 1.0) in
    Ok {| keyword := kw; period_hours := hours;
          trend_direction := trend_direction;
          trend_strength := trend_strength;
          sentiment_change := sentiment_change;
          confidence_score := confidence_score;
          data_points := length trends;
          r_squared := rvalue lr * rvalue lr |}.

(** [analyze_trends]: any exception of the body becomes the [error] record. *)
Definition analyze_trends (kw : string) (hours : Z) (trends : list Sample)
  : TrendAnalysis :=
  match analyze_trends_body kw hours trends with
  | Ok t => t
  | Raise _ =>
      {| keyword := kw; period_hours := hours; trend_direction := error;
         trend_strength := of_Q 0.0; sentiment_change := of_Q 0.0;
         confidence_score := of_Q 0.0; data_points := 0;
         r_squared := of_Q 0.0 |}
  end.

(** ** Momentum *)

Inductive Signal := bullish | bearish | neutral_signal.

Record Momentum := {
  current_sentiment : num;
  sma_5 : nan_or num;
  sma_10 : nan_or num;
  momentum_signal : Signal;
  volatility : nan_or num;
  rate_of_change : num;
  momentum_strength : num
}.

(** What [calculate_momentum] returns: the indicators, or a dict with the
    single key ['error']. *)
Inductive MomentumDict :=
| MomentumValues (m : Momentum)
| MomentumError (msg : string).

Definition calculate_momentum_body (trends : list Sample) : pyres MomentumDict :=
  if (length trends <? 5)%nat then
    Ok (MomentumError "Insufficient data for momentum calculation")
  else
    let df := sort_values trends in
    let s := map sentiment df in
    let sentiment_sma_5 := rolling_mean 5 s in
    let sentiment_sma_10 := rolling_mean (Nat.min 10 (length df)) s in
    let* current := iloc_neg s 1 in
    let* sma5 := iloc_neg sentiment_sma_5 1 in
    let* sma10 := iloc_neg sentiment_sma_10 1 in
    let signal :=
      if nan_ltb sma5 (Some current) && nan_ltb sma10 sma5 then bullish
      else if nan_ltb (Some current) sma5 && nan_ltb sma5 sma10 then bearish
      else neutral_signal in
    let vol := std (tail 10 s) in
    let roc_periods := Nat.min 5 (length df - 1) in
    let* roc :=
      if (0 <? roc_periods)%nat then
        let* past := iloc_neg s (roc_periods + 1) in
        Ok ((current - past) / of_Z (Z.of_nat roc_periods))
      else Ok (of_Z 0) in
    let strength :=
      match vol with
      | Some v => if v <? of_Z 1 then nabs roc * (of_Z 1 - v) else of_Z 0
      | None => of_Z 0
      end in
    Ok (MomentumValues
          {| current_sentiment := current; sma_5 := sma5; sma_10 := sma10;
             momentum_signal := signal; volatility := vol;
             rate_of_change := roc; momentum_strength := strength |}).

(** [calculate_momentum]: an exception of the body is returned as
    [{'error': str(e)}], never raised. *)
Definition calculate_momentum (trends : list Sample) : MomentumDict :=
  match calculate_momentum_body trends with
  | Ok d => d
  | Raise e => MomentumError (exn_str e)
  end.

(** ** Anomaly detection *)

(** The result of a numpy float division, which never raises: NaN, an
    infinity, or a finite quotient. *)
Inductive ZScore :=
| ZNaN
| ZInf (is_negative : bool)
| ZFin (z : num).

(** [a - b] on columns with missing values. *)
Definition nan_sub (a b : nan_or num) : nan_or num :=
  match a, b with
  | Some x, Some y => Some (x - y)
  | _, _ => None
  end.

(** [a / b] on columns: [x / 0] is an infinity with the sign of [x], and
    [0 / 0] and anything with a NaN operand is NaN. *)
Definition np_div (a b : nan_or num) : ZScore :=
  match a, b with
  | Some x, Some y =>
      if y =? of_Z 0 then
        if of_Z 0 <? x then ZInf false
        else if x <? of_Z 0 then ZInf true
        else ZNaN
      else ZFin (x / y)
  | _, _ => ZNaN
  end.

(** [abs(z) > k]; false for NaN. *)
Definition z_abs_gt (z : ZScore) (k : Z) : bool :=
  match z with
  | ZNaN => false
  | ZInf _ => true
  | ZFin x => nabs x >? of_Z k
  end.

(** [z > 0]; false for NaN. *)
Definition z_pos (z : ZScore) : bool :=
  match z with
  | ZNaN => false
  | ZInf is_neg => negb is_neg
  | ZFin x => x >? of_Z 0
  end.

(** One row of the data frame of [detect_anomalies]. *)
Record Row := {
  row_sample : Sample;
  row_rolling_mean : nan_or num;
  row_rolling_std : nan_or num;
  row_z_score : ZScore
}.

Inductive AnomalyType := positive_spike | negative_spike.
Inductive Severity := low | medium | high | critical.

Record Anomaly := {
  anomaly_timestamp : Z;
  anomaly_sentiment : num;
  anomaly_z_score : ZScore;
  anomaly_type : AnomalyType;
  anomaly_severity : Severity;
  deviation : nan_or num
}.

Definition make_row (s : Sample) (ms : nan_or num * nan_or num) : Row :=
  {| row_sample := s;
     row_rolling_mean := fst ms;
     row_rolling_std := snd ms;
     row_z_score := np_div (nan_sub (Some (sentiment s)) (fst ms)) (snd ms) |}.

(** The data frame with its [rolling_mean], [rolling_std] and [z_score]
    columns. *)
Definition anomaly_rows (trends : list Sample) : list Row :=
  let df := sort_values trends in
  let window := Nat.min 10 (length df / 2) in
  let s := map sentiment df in
  map (fun p => make_row (fst p) (snd p))
      (combine df (combine (rolling_mean window s) (rolling_std window s))).

(** [abs(df['z_score']) > 2] *)
Definition is_anomaly (r : Row) : bool := z_abs_gt (row_z_score r) 2.

Definition make_anomaly (r : Row) : Anomaly :=
  {| anomaly_timestamp := timestamp (row_sample r);
     anomaly_sentiment := sentiment (row_sample r);
     anomaly_z_score := row_z_score r;
     anomaly_type :=
       if z_pos (row_z_score r) then positive_spike else negative_spike;
     anomaly_severity :=
       if z_abs_gt (row_z_score r) 3 then high else medium;
     deviation :=
       option_map nabs
         (nan_sub (Some (sentiment (row_sample r))) (row_rolling_mean r)) |}.

Definition detect_anomalies (trends : list Sample) : list Anomaly :=
  if (length trends <? 20)%nat then []
  else map make_anomaly (List.filter is_anomaly (anomaly_rows trends)).

(** ** Alert conditions *)

Record AlertsConfig := {
  enabled : bool;
  thresholds : gmap string num;
  volume_threshold : Z;
  rapid_change_threshold : num
}.

(** The two keys of the summary dict the evaluator reads with [.get]. *)
Record Summary := {
  avg_sentiment : option num;
  total_posts : option Z
}.

Inductive AlertType := sentiment_threshold | volume_spike | rapid_change.

(** The f-string of an alert, kept as its template and arguments. *)
Inductive Message :=
| VeryNegativeDetected (v : num)
| NegativeDetected (v : num)
| VeryPositiveDetected (v : num)
| HighVolumeDetected (posts : Z)
| RapidSentiment (direction : string) (change : num).

(** [current_value] and [threshold_value] hold a float or, for the volume
    alert, an int. *)
Inductive Scalar :=
| FloatVal (x : num)
| IntVal (n : Z).

Record AlertCondition := {
  alert_keyword : string;
  alert_type : AlertType;
  severity : Severity;
  message : Message;
  current_value : Scalar;
  threshold_value : Scalar;
  triggered : bool
}.

(** [thresholds[key]] *)
Definition thresholds_item (th : gmap string num) (key : string) : pyres num :=
  match th !! key with
  | Some v => Ok v
  | None => Raise (KeyError key)
  end.

(** [thresholds.get(key, d)] *)
Definition thresholds_get (th : gmap string num) (key : string) (d : num) : num :=
  default d (th !! key).

(** The sentiment threshold alerts (lines 324-353): an [if]/[elif]/[elif]
    chain that appends at most once. *)
Definition sentiment_alerts (kw : string) (th : gmap string num)
    (current_sentiment : num) : pyres (list AlertCondition) :=
  if current_sentiment <=? thresholds_get th "very_negative" (of_Q (-0.8)) then
    let* t := thresholds_item th "very_negative" in
    Ok [{| alert_keyword := kw; alert_type := sentiment_threshold;
           severity := critical;
           message := VeryNegativeDetected current_sentiment;
           current_value := FloatVal current_sentiment;
           threshold_value := FloatVal t; triggered := true |}]
  else if current_sentiment <=? thresholds_get th "negative" (of_Q (-0.3)) then
    let* t := thresholds_item th "negative" in
    Ok [{| alert_keyword := kw; alert_type := sentiment_threshold;
           severity := high;
           message := NegativeDetected current_sentiment;
           current_value := FloatVal current_sentiment;
           threshold_value := FloatVal t; triggered := true |}]
  else if current_sentiment >=? thresholds_get th "very_positive" (of_Q 0.8) then
    let* t := thresholds_item th "very_positive" in
    Ok [{| alert_keyword := kw; alert_type := sentiment_threshold;
           severity := low;
           message := VeryPositiveDetected current_sentiment;
           current_value := FloatVal current_sentiment;
           threshold_value := FloatVal t; triggered := true |}]
  else Ok [].

(** The volume alert (lines 356-366). *)
Definition volume_alerts (kw : string) (cfg : AlertsConfig) (volume : Z)
  : list AlertCondition :=
  if (volume >? volume_threshold cfg)%Z then
    [{| alert_keyword := kw; alert_type := volume_spike; severity := medium;
        message := HighVolumeDetected volume;
        current_value := IntVal volume;
        threshold_value := IntVal (volume_threshold cfg); triggered := true |}]
  else [].

(** The rapid change alert (lines 369-380). *)
Definition rapid_change_alerts (kw : string) (cfg : AlertsConfig)
    (trend_analysis : TrendAnalysis) : list AlertCondition :=
  if nabs (sentiment_change trend_analysis) >? rapid_change_threshold cfg then
    let direction :=
      if sentiment_change trend_analysis >? of_Z 0 then "improvement"
      else "decline" in
    [{| alert_keyword := kw; alert_type := rapid_change; severity := medium;
        message := RapidSentiment direction (sentiment_change trend_analysis);
        current_value := FloatVal (nabs (sentiment_change trend_analysis));
        threshold_value := FloatVal (rapid_change_threshold cfg);
        triggered := true |}]
  else [].

(** The [try] body of [check_alert_conditions]: [summary] is the one-hour
    summary and [trends6] the six-hour series read from the database. *)
Definition check_alert_conditions_body (cfg : AlertsConfig) (kw : string)
    (summary : Summary) (trends6 : list Sample) : pyres (list AlertCondition) :=
  if negb (enabled cfg) then Ok []
  else
    let trend_analysis := analyze_trends kw 6 trends6 in
    let current_sentiment := default (of_Z 0) (avg_sentiment summary) in
    let volume := default 0%Z (total_posts summary) in
    let* tier := sentiment_alerts kw (thresholds cfg) current_sentiment in
    Ok (tier ++ volume_alerts kw cfg volume
             ++ rapid_change_alerts kw cfg trend_analysis).

(** [check_alert_conditions]: an exception of the body gives [[]]. *)
Definition check_alert_conditions (cfg : AlertsConfig) (kw : string)
    (summary : Summary) (trends6 : list Sample) : list AlertCondition :=
  match check_alert_conditions_body cfg kw summary trends6 with
  | Ok alerts => alerts
  | Raise _ => []
  end.


End Analytics.

Arguments Sample num : clear implicits.
Arguments TrendAnalysis num : clear implicits.
Arguments LinregressResult num : clear implicits.
Arguments Momentum num : clear implicits.
Arguments MomentumDict num : clear implicits.
Arguments Row num : clear implicits.
Arguments ZScore num : clear implicits.
Arguments Anomaly num : clear implicits.
Arguments AlertsConfig num : clear implicits.
Arguments Summary num : clear implicits.
Arguments Message num : clear implicits.
Arguments Scalar num : clear implicits.
Arguments AlertCondition num : clear implicits.

(** ** The text normalizer *)

(** A [str] is a sequence of Unicode code points. *)
Definition text := list N.

Definition text_of_string (s : string) : text :=
  map N_of_ascii (list_ascii_of_string s).

Definition in_range (lo hi c : N) : bool := (lo <=? c)%N && (c <=? hi)%N.

(** [str.lower()] as it is on ASCII text: the letters A-Z go to a-z.  The
    case mapping of the code points above 127 is data of the Unicode
    database and is not modelled: they are left as they are, which is what
    [str.lower()] does to the caseless ones (emojis among them).  The
    idempotence of the normalizer is therefore stated for ASCII text, and
    the examples are evaluated on ASCII text and emojis. *)
Definition lower_cp (c : N) : N :=
  if in_range 65 90 c then (c + 32)%N else c.

Definition py_lower (t : text) : text := map lower_cp t.

(** [str.isspace()], the separators of [str.split()]. *)
Definition is_space (c : N) : bool :=
  in_range 9 13 c || in_range 28 32 c || (c =? 133)%N || (c =? 160)%N
  || (c =? 5760)%N || in_range 8192 8202 c || (c =? 8232)%N
  || (c =? 8233)%N || (c =? 8239)%N || (c =? 8287)%N || (c =? 12288)%N.

(** One character of the repeated group of [url_pattern]:
    [[a-zA-Z]|[0-9]|[$-_@.&+]|[!*\\(\\),]]; the last alternative, a
    percent sign and two hex digits, matches nothing these do not. *)
Definition url_char (c : N) : bool :=
  in_range 97 122 c || in_range 65 90 c
  || in_range 48 57 c
  || in_range 36 95 c || (c =? 64)%N || (c =? 46)%N || (c =? 38)%N
  || (c =? 43)%N
  || (c =? 33)%N || (c =? 42)%N || (c =? 92)%N || (c =? 40)%N
  || (c =? 41)%N || (c =? 44)%N.

(** The class of [emoji_pattern]. *)
Definition emoji_char (c : N) : bool :=
  in_range 0x1F600 0x1F64F c || in_range 0x1F300 0x1F5FF c
  || in_range 0x1F680 0x1F6FF c || in_range 0x1F1E0 0x1F1FF c
  || in_range 0x2500 0x2BEF c || in_range 0x2702 0x27B0 c
  || in_range 0x2702 0x27B0 c || in_range 0x24C2 0x1F251 c
  || in_range 0x1F926 0x1F937 c || in_range 0x10000 0x10FFFF c
  || in_range 0x2640 0x2642 c || in_range 0x2600 0x2B55 c
  || (c =? 0x200D)%N || (c =? 0x23CF)%N || (c =? 0x23E9)%N
  || (c =? 0x231A)%N || (c =? 0xFE0F)%N || (c =? 0x3030)%N.

(** Length of the longest prefix whose characters satisfy [p]: a greedy
    [[...]*]. *)
Fixpoint run (p : N -> bool) (t : text) : nat :=
  match t with
  | c :: t' => if p c then S (run p t') else O
  | [] => O
  end.

(** [t] without the literal prefix [pre], if it starts with it. *)
Fixpoint strip_prefix (pre t : text) : option text :=
  match pre, t with
  | [], _ => Some t
  | a :: pre', c :: t' => if (a =? c)%N then strip_prefix pre' t' else None
  | _ :: _, [] => None
  end.

(** ["://"] and then one or more [url_char]: the matched length, 0 for no
    match. *)
Definition url_tail (t : text) : nat :=
  match strip_prefix (text_of_string "://") t with
  | Some r => match run url_char r with
              | O => O
              | S k => (3 + S k)%nat
              end
  | None => O
  end.

(** Length of the match of [url_pattern] at the start of [t] (0: none):
    ["http"], an optional ["s"] tried first, then [url_tail]. *)
Definition url_match (t : text) : nat :=
  match strip_prefix (text_of_string "http") t with
  | Some r =>
      let with_s :=
        match strip_prefix (text_of_string "s") r with
        | Some r' => match url_tail r' with
                     | O => O
                     | S k => (5 + S k)%nat
                     end
        | None => O
        end in
      match with_s with
      | S k => S k
      | O => match url_tail r with
             | O => O
             | S k => (4 + S k)%nat
             end
      end
  | None => O
  end.

(** Length of the match of [r'<sigil>\\w+'] at the start of [t]: the
    sigil, a backslash, and one or more letters [w]. *)
Definition sigil_match (sigil : N) (t : text) : nat :=
  match t with
  | a :: b :: r =>
      if (a =? sigil)%N && (b =? 92)%N then
        match run (fun c => (c =? 119)%N) r with
        | O => O
        | S k => (2 + S k)%nat
        end
      else O
  | _ => O
  end.

Definition mention_match : text -> nat := sigil_match 64.
Definition hashtag_match : text -> nat := sigil_match 35.
Definition emoji_match : text -> nat := run emoji_char.

(** [pattern.sub(repl, t)]: the leftmost matches, left to right, without
    overlap; [skip] counts the characters of the current match still to
    be dropped. *)
Fixpoint re_sub_from (m : text -> nat) (repl : text) (skip : nat) (t : text)
  : text :=
  match t with
  | [] => []
  | c :: t' =>
      match skip with
      | S k => re_sub_from m repl k t'
      | O =>
          match m t with
          | O => c :: re_sub_from m repl O t'
          | S k => repl ++ re_sub_from m repl k t'
          end
      end
  end.

Definition re_sub (m : text -> nat) (repl : text) (t : text) : text :=
  re_sub_from m repl O t.

(** [text.split()]: the maximal runs of non-space characters. *)
Fixpoint split_ws (t : text) : list text :=
  match t with
  | [] => []
  | c :: t' =>
      if is_space c then split_ws t'
      else
        match t' with
        | [] => [[c]]
        | d :: _ =>
            if is_space d then [c] :: split_ws t'
            else match split_ws t' with
                 | w :: ws => (c :: w) :: ws
                 | [] => [[c]]
                 end
        end
  end.

(** [sep.join(words)] *)
Fixpoint join (sep : text) (ws : list text) : text :=
  match ws with
  | [] => []
  | [w] => w
  | w :: ws' => w ++ sep ++ join sep ws'
  end.

(** [text[:k]] *)
Definition slice_to (k : Z) (t : text) : text :=
  if (0 <=? k)%Z then firstn (Z.to_nat k) t
  else firstn (length t - Z.to_nat (- k)) t.

Record TextProcessingConfig := {
  max_text_length : Z;
  remove_urls : bool;
  remove_mentions : bool;
  remove_hashtags : bool;
  handle_emojis : bool
}.

Definition default_text_processing : TextProcessingConfig :=
  {| max_text_length := 1000; remove_urls := true; remove_mentions := false;
     remove_hashtags := false; handle_emojis := true |}.

(** [' '.join(text.split())] *)
Definition collapse_whitespace (t : text) : text := join [32%N] (split_ws t).

(** The text before the truncation step. *)
Definition clean (cfg : TextProcessingConfig) (t : text) : text :=
  let t := py_lower t in
  let t := if remove_urls cfg then re_sub url_match [] t else t in
  let t := if remove_mentions cfg then re_sub mention_match [] t else t in
  let t := if remove_hashtags cfg then re_sub hashtag_match [] t else t in
  let t := if handle_emojis cfg
           then re_sub emoji_match (text_of_string " [EMOJI] ") t else t in
  collapse_whitespace t.

Definition truncate (cfg : TextProcessingConfig) (t : text) : text :=
  if (Z.of_nat (length t) >? max_text_length cfg)%Z
  then slice_to (max_text_length cfg) t ++ text_of_string "..."
  else t.

(** [TextPreprocessor.preprocess] *)
Definition preprocess (cfg : TextProcessingConfig) (t : text) : text :=
  match t with
  | [] => []
  | _ => truncate cfg (clean cfg t)
  end.

(** ** Dict lookups and [str] helpers *)

(** [d.get(k)] on a dict in insertion order. *)
Fixpoint dict_get {V} (d : list (string * V)) (k : string) : option V :=
  match d with
  | [] => None
  | (k', v) :: d' => if String.eqb k' k then Some v else dict_get d' k
  end.

(** [s.lower()] on an ASCII [str]. *)
Definition lower_ascii (c : ascii) : ascii :=
  ascii_of_N (lower_cp (N_of_ascii c)).

Fixpoint str_lower (s : string) : string :=
  match s with
  | EmptyString => EmptyString
  | String c s' => String (lower_ascii c) (str_lower s')
  end.

(** [t.lstrip()] and [t.strip()]: whitespace off the ends. *)
Fixpoint lstrip (t : text) : text :=
  match t with
  | c :: t' => if is_space c then lstrip t' else t
  | [] => []
  end.

Definition strip (t : text) : text := rev (lstrip (rev (lstrip t))).

(** ** The model adapters *)

Module VADERAnalyzer.
Section Adapter.
Context {num : Type} `{Numeric num}.

(** The dict [SentimentIntensityAnalyzer.polarity_scores] returns. *)
Record PolarityScores := {
  ps_compound : num;
  ps_pos : num;
  ps_neu : num;
  ps_neg : num
}.

(** [_get_error_result]: the fields the aggregator reads; the error text
    only goes to [raw_output]. *)
Definition _get_error_result : ModelResult num :=
  {| model_name := "vader"; compound_score := of_Q 0.0;
     positive_score := of_Q 0.0; negative_score := of_Q 0.0;
     neutral_score := of_Q 1.0; confidence := of_Q 0.0 |}.

(** [analyze]: the scores of the lexicon, the confidence being the
    magnitude of the compound; any exception gives the error result. *)
Definition analyze (polarity_scores : text -> pyres PolarityScores) (t : text)
  : ModelResult num :=
  match polarity_scores t with
  | Ok scores =>
      {| model_name := "vader"; compound_score := ps_compound scores;
         positive_score := ps_pos scores; negative_score := ps_neg scores;
         neutral_score := ps_neu scores;
         confidence := nabs (ps_compound scores) |}
  | Raise _ => _get_error_result
  end.

End Adapter.
Arguments PolarityScores num : clear implicits.
End VADERAnalyzer.

Module RoBERTaAnalyzer.
Section Adapter.
Context {num : Type} `{Numeric num}.
Local Open Scope num_scope.

(** One [{'label': ..., 'score': ...}] of the pipeline. *)
Record LabelScore := {
  label : string;
  score : num
}.

(** What the pipeline returns with [top_k=None]: a list of label scores,
    or that list nested in a list. *)
Inductive PipelineOutput :=
| Flat (results : list LabelScore)
| Nested (results : list (list LabelScore)).

(** The tokenizer and the pipeline, once loaded. *)
Record Loaded := {
  encode : text -> pyres (list Z);
  decode : list Z -> pyres text;
  pipeline : text -> pyres PipelineOutput
}.

Definition _get_unavailable_result : ModelResult num :=
  {| model_name := "cardiffnlp/twitter-roberta-base-sentiment-latest";
     compound_score := of_Q 0.0;
     positive_score := of_Q 0.0; negative_score := of_Q 0.0;
     neutral_score := of_Q 1.0; confidence := of_Q 0.0 |}.

Definition _get_error_result : ModelResult num :=
  {| model_name := "cardiffnlp/twitter-roberta-base-sentiment-latest";
     compound_score := of_Q 0.0;
     positive_score := of_Q 0.0; negative_score := of_Q 0.0;
     neutral_score := of_Q 1.0; confidence := of_Q 0.0 |}.

(** Lines 222-223: a nested list is replaced by its first element. *)
Definition unnest (out : PipelineOutput) : list LabelScore :=
  match out with
  | Flat results => results
  | Nested (first :: _) => first
  | Nested [] => []
  end.

(** [{result['label'].lower(): result['score'] for result in results}] *)
Definition scores_of (results : list LabelScore) : list (string * num) :=
  fold_left (fun d r => dict_set d (str_lower (label r)) (score r)) results [].

(** Lines 226-252: from the label scores to the result. *)
Definition result_of (results : list LabelScore) : ModelResult num :=
  let scores := scores_of results in
  let positive_score := default (of_Q 0.0) (dict_get scores "positive") in
  let negative_score := default (of_Q 0.0) (dict_get scores "negative") in
  let neutral_score := default (of_Q 0.0) (dict_get scores "neutral") in
  {| model_name := "cardiffnlp/twitter-roberta-base-sentiment-latest";
     compound_score := positive_score - negative_score;
     positive_score := positive_score;
     negative_score := negative_score;
     neutral_score := neutral_score;
     confidence := num_max [negative_score; neutral_score] positive_score |}.

(** The [try] body of [analyze]. *)
Definition analyze_body (m : Loaded) (t : text) : pyres (ModelResult num) :=
  let* tokens := encode m t in
  let* t :=
    if (512 <=? length tokens)%nat then decode m (removelast tokens)
    else Ok t in
  let* results := pipeline m t in
  Ok (result_of (unnest results)).

(** [analyze]; [m] is [None] when the model could not be loaded. *)
Definition analyze (m : option Loaded) (t : text) : ModelResult num :=
  match m with
  | None => _get_unavailable_result
  | Some m =>
      match analyze_body m t with
      | Ok r => r
      | Raise _ => _get_error_result
      end
  end.

End Adapter.
Arguments LabelScore num : clear implicits.
Arguments PipelineOutput num : clear implicits.
Arguments Loaded num : clear implicits.
End RoBERTaAnalyzer.

(** ** The analyzer: one text, and a batch *)

Section SentimentAnalyzer.
Context {num : Type} `{Numeric num}.
Local Open Scope num_scope.

(** One entry of [config.sentiment.models]. *)
Record ModelConfig := {
  cfg_enabled : option bool;
  cfg_weight : option num
}.

Record SentimentConfig := {
  models : gmap string ModelConfig;
  sentiment_confidence_threshold : num
}.

(** [models.get(name, {}).get('enabled', True)] *)
Definition model_enabled (cfg : SentimentConfig) (name : string) : bool :=
  default true (models cfg !! name ≫= cfg_enabled).

(** Lines 351-357: the weights, with their defaults. *)
Definition configured_weights (cfg : SentimentConfig) : Weights num :=
  {| vader_weight := default (of_Q 0.4) (models cfg !! "vader" ≫= cfg_weight);
     roberta_weight :=
       default (of_Q 0.6) (models cfg !! "roberta" ≫= cfg_weight) |}.

(** An adapter as the loop of [analyze_text] sees it. *)
Definition Analyzer := text -> pyres (ModelResult num).

(** [__init__]: VADER always, RoBERTa when enabled and loaded. *)
Definition init_analyzers (cfg : SentimentConfig)
    (polarity_scores : text -> pyres (VADERAnalyzer.PolarityScores num))
    (roberta : option (RoBERTaAnalyzer.Loaded num))
  : list (string * Analyzer) :=
  ("vader", fun t => Ok (VADERAnalyzer.analyze polarity_scores t))
  :: (if model_enabled cfg "roberta" then
        match roberta with
        | Some m => [("roberta",
                      fun t => Ok (RoBERTaAnalyzer.analyze (Some m) t))]
        | None => []
        end
      else []).

(** The body of [for name, analyzer in self.analyzers.items()]. *)
Definition analyze_step (cfg : SentimentConfig) (processed_text : text)
    (results : list (ModelResult num)) (entry : string * Analyzer)
  : list (ModelResult num) :=
  if negb (model_enabled cfg (fst entry)) then results
  else match snd entry processed_text with
       | Ok result => results ++ [result]
       | Raise _ => results
       end.

(** [analyze_text] *)
Definition analyze_text (cfg : SentimentConfig) (tp : TextProcessingConfig)
    (analyzers : list (string * Analyzer)) (t : text)
  : list (ModelResult num) :=
  match t, strip t with
  | [], _ | _, [] => []
  | _, _ =>
      match preprocess tp t with
      | [] => []
      | processed_text =>
          fold_left (analyze_step cfg processed_text) analyzers []
      end
  end.

(** [is_high_confidence] *)
Definition is_high_confidence (cfg : SentimentConfig) (confidence : num) : bool :=
  confidence >=? sentiment_confidence_threshold cfg.

(** A weighted result with the three keys [analyze_batch] adds. *)
Record BatchEntry := {
  weighted : Aggregated num;
  text_index : nat;
  sentiment_label : Label;
  high_confidence : bool
}.

(** The body of [for i, text in enumerate(texts)]. *)
Definition batch_entry (cfg : SentimentConfig) (tp : TextProcessingConfig)
    (analyzers : list (string * Analyzer)) (i : nat) (t : text)
  : option BatchEntry :=
  let analysis_results := analyze_text cfg tp analyzers t in
  let weighted_result :=
    get_weighted_sentiment (configured_weights cfg) analysis_results in
  match weighted_result with
  | Some w =>
      Some {| weighted := w; text_index := i;
              sentiment_label := get_sentiment_label (agg_compound w);
              high_confidence := is_high_confidence cfg (agg_confidence w) |}
  | None => None
  end.

(** [analyze_batch]; the loop state is the index and the results so far. *)
Definition analyze_batch (cfg : SentimentConfig) (tp : TextProcessingConfig)
    (analyzers : list (string * Analyzer)) (texts : list text)
  : list (option BatchEntry) :=
  snd (fold_left
         (fun st t => (S (fst st),
                       snd st ++ [batch_entry cfg tp analyzers (fst st) t]))
         texts (O, [])).

End SentimentAnalyzer.

Arguments ModelConfig num : clear implicits.
Arguments SentimentConfig num : clear implicits.
Arguments Analyzer num : clear implicits.
Arguments BatchEntry num : clear implicits.

(** ** Insights and recommendations *)

Section Insights.
Context {num : Type} `{Numeric num}.
Local Open Scope num_scope.

(** The dict [db.get_sentiment_summary] returns: all seven keys. *)
Record SummaryStats := {
  stats_total_posts : Z;
  stats_avg_sentiment : num;
  stats_avg_confidence : num;
  stats_positive_count : Z;
  stats_negative_count : Z;
  stats_neutral_count : Z;
  stats_period_hours : Z
}.

(** The same dict as [check_alert_conditions] reads it with [.get]. *)
Definition summary_of_stats (s : SummaryStats) : Summary num :=
  {| avg_sentiment := Some (stats_avg_sentiment s);
     total_posts := Some (stats_total_posts s) |}.

(** [insights['trends']] *)
Record TrendsDict := {
  direction : Direction;
  strength : num;
  change : num;
  trends_confidence : num;
  trends_r_squared : num
}.

(** One entry of [insights['alerts']]. *)
Record AlertDict := {
  alert_dict_type : AlertType;
  alert_dict_severity : Severity;
  alert_dict_message : Message num;
  alert_dict_triggered : bool
}.

(** The insights dict as [generate_insights] fills it, every key present;
    [VC] is what [analyze_volume_correlation] returned, which nothing here
    reads. *)
Record Insights {VC : Type} := {
  insights_keyword : string;
  analysis_period : Z;
  generated_at : Z;
  insights_summary : SummaryStats;
  insights_trends : TrendsDict;
  insights_momentum : MomentumDict num;
  insights_volume_correlation : VC;
  insights_anomalies : list (Anomaly num);
  insights_alerts : list AlertDict;
  recommendations : list string
}.
Arguments Insights VC : clear implicits.

Definition is_critical (s : Severity) : bool :=
  match s with critical => true | _ => false end.

(** [momentum.get('momentum_signal', 'neutral')] *)
Definition momentum_signal_get (m : MomentumDict num) : Signal :=
  match m with
  | MomentumValues v => momentum_signal v
  | MomentumError _ => neutral_signal
  end.

(** [momentum.get('volatility', 0)] *)
Definition volatility_get (m : MomentumDict num) : nan_or num :=
  match m with
  | MomentumValues v => volatility v
  | MomentumError _ => Some (of_Z 0)
  end.

(** The seven groups of [_generate_recommendations], in source order. *)
Definition volume_recommendation (summary : SummaryStats) : list string :=
  let total_posts := stats_total_posts summary in
  if (total_posts <? 10)%Z then
    ["Consider expanding data collection - low post volume detected"]
  else if (total_posts >? 100)%Z then
    ["High engagement detected - monitor for emerging trends"]
  else [].

Definition sentiment_recommendation (summary : SummaryStats) : list string :=
  let avg_sentiment := stats_avg_sentiment summary in
  if avg_sentiment <? of_Q (-0.5) then
    ["Negative sentiment detected - investigate potential issues or crises"]
  else if avg_sentiment >? of_Q 0.5 then
    ["Positive sentiment detected - consider leveraging this momentum"]
  else [].

Definition trend_recommendation (trends : TrendsDict) : list string :=
  match direction trends with
  | declining =>
      if trends_confidence trends >? of_Q 0.7 then
        ["Strong declining trend - immediate attention recommended"]
      else []
  | improving =>
      if trends_confidence trends >? of_Q 0.7 then
        ["Strong positive trend - monitor for optimization opportunities"]
      else []
  | _ => []
  end.

Definition momentum_recommendation (momentum : MomentumDict num) : list string :=
  match momentum_signal_get momentum with
  | bearish =>
      ["Bearish momentum - prepare for potential negative sentiment increase"]
  | bullish =>
      ["Bullish momentum - positive sentiment trend likely to continue"]
  | neutral_signal => []
  end.

Definition critical_recommendation (alerts : list AlertDict) : list string :=
  match List.filter (fun a => is_critical (alert_dict_severity a)) alerts with
  | [] => []
  | _ => ["Critical alerts detected - immediate response required"]
  end.

Definition anomaly_recommendation (anomalies : list (Anomaly num)) : list string :=
  if (2 <? length anomalies)%nat then
    ["Multiple anomalies detected - investigate unusual activity"]
  else [].

Definition volatility_recommendation (momentum : MomentumDict num) : list string :=
  if nan_ltb (Some (of_Q 0.3)) (volatility_get momentum) then
    ["High volatility detected - sentiment may be unstable"]
  else [].

(** [_generate_recommendations]: the groups in order, cut to five. *)
Definition _generate_recommendations {VC} (insights : Insights VC) : list string :=
  firstn 5
    (volume_recommendation (insights_summary insights)
     ++ sentiment_recommendation (insights_summary insights)
     ++ trend_recommendation (insights_trends insights)
     ++ momentum_recommendation (insights_momentum insights)
     ++ critical_recommendation (insights_alerts insights)
     ++ anomaly_recommendation (insights_anomalies insights)
     ++ volatility_recommendation (insights_momentum insights)).

Definition alert_dict (a : AlertCondition num) : AlertDict :=
  {| alert_dict_type := alert_type a; alert_dict_severity := severity a;
     alert_dict_message := message a; alert_dict_triggered := triggered a |}.

(** [generate_insights], its queries answered: [summary] and [trends] are
    what the database returns for the period asked, [summary1] and
    [trends6] what it returns for the last hour and the last six hours
    (read by [check_alert_conditions]), [vc] the volume correlation. *)
Definition generate_insights {VC} (cfg : AlertsConfig num) (kw : string)
    (hours now : Z) (summary : SummaryStats) (trends : list (Sample num))
    (summary1 : SummaryStats) (trends6 : list (Sample num)) (vc : VC)
  : Insights VC :=
  let trend_analysis := analyze_trends kw hours trends in
  let insights :=
    {| insights_keyword := kw; analysis_period := hours; generated_at := now;
       insights_summary := summary;
       insights_trends :=
         {| direction := trend_direction trend_analysis;
            strength := trend_strength trend_analysis;
            change := sentiment_change trend_analysis;
            trends_confidence := confidence_score trend_analysis;
            trends_r_squared := r_squared trend_analysis |};
       insights_momentum := calculate_momentum trends;
       insights_volume_correlation := vc;
       insights_anomalies := detect_anomalies trends;
       insights_alerts :=
         map alert_dict
           (check_alert_conditions cfg kw (summary_of_stats summary1) trends6);
       recommendations := [] |} in
  {| insights_keyword := insights_keyword insights;
     analysis_period := analysis_period insights;
     generated_at := generated_at insights;
     insights_summary := insights_summary insights;
     insights_trends := insights_trends insights;
     insights_momentum := insights_momentum insights;
     insights_volume_correlation := insights_volume_correlation insights;
     insights_anomalies := insights_anomalies insights;
     insights_alerts := insights_alerts insights;
     recommendations := _generate_recommendations insights |}.

End Insights.

Arguments SummaryStats num : clear implicits.
Arguments TrendsDict num : clear implicits.
Arguments AlertDict num : clear implicits.
Arguments Insights num VC : clear implicits.

(** ** Comparing keywords *)

Section Compare.
Context {num : Type} `{Numeric num}.
Local Open Scope num_scope.

(** One value of [comparison_data]. *)
Record KeywordData := {
  kd_avg_sentiment : num;
  kd_total_posts : Z;
  kd_positive_ratio : num;
  kd_negative_ratio : num;
  kd_trend_direction : Direction;
  kd_trend_strength : num;
  kd_confidence : num
}.

Record Comparison := {
  keyword_data : list (string * KeywordData);
  best_performing : string;
  worst_performing : string;
  most_discussed : string;
  sentiment_range : num;
  volume_range : Z;
  average_sentiment : num;
  sentiment_std : num
}.

Inductive ComparisonDict :=
| ComparisonValues (c : Comparison)
| ComparisonError (msg : string).

(** The builtin [max(items, key=f)] and [min(items, key=f)] on a non-empty
    sequence [first :: rest]: the first item that attains the extremum. *)
Definition py_max_by {A} (f : A -> num) (first : A) (rest : list A) : A :=
  fold_left (fun m x => if f m <? f x then x else m) rest first.
Definition py_min_by {A} (f : A -> num) (first : A) (rest : list A) : A :=
  fold_left (fun m x => if f x <? f m then x else m) rest first.
Definition py_max_by_int {A} (f : A -> Z) (first : A) (rest : list A) : A :=
  fold_left (fun m x => if (f m <? f x)%Z then x else m) rest first.

(** [np.std]: the population deviation. *)
Definition np_std (l : list num) : num :=
  let m := mean l in
  nsqrt (mean (map (fun x => (x - m) * (x - m)) l)).

(** The body of [for keyword in keywords]: the entry of one keyword, from
    the summary and the series the database returns for it. *)
Definition keyword_entry (summary : SummaryStats num) (trends : list (Sample num))
    (kw : string) (hours : Z) : KeywordData :=
  let trends_analysis := analyze_trends kw hours trends in
  {| kd_avg_sentiment := stats_avg_sentiment summary;
     kd_total_posts := stats_total_posts summary;
     kd_positive_ratio :=
       of_Z (stats_positive_count summary)
       / of_Z (Z.max (stats_total_posts summary) 1);
     kd_negative_ratio :=
       of_Z (stats_negative_count summary)
       / of_Z (Z.max (stats_total_posts summary) 1);
     kd_trend_direction := trend_direction trends_analysis;
     kd_trend_strength := trend_strength trends_analysis;
     kd_confidence := stats_avg_confidence summary |}.

(** [compare_keywords]; [summary_of] and [trends_of] are the database's
    answers for a keyword.  The key functions of [max] and [min] look the
    entry of a key up again, which is the entry itself. *)
Definition compare_keywords (summary_of : string -> SummaryStats num)
    (trends_of : string -> list (Sample num)) (keywords : list string)
    (hours : Z) : ComparisonDict :=
  let comparison_data :=
    fold_left
      (fun d kw => dict_set d kw
                     (keyword_entry (summary_of kw) (trends_of kw) kw hours))
      keywords [] in
  match comparison_data with
  | [] => ComparisonError "No data available for comparison"
  | first :: rest =>
      let avg := fun e : string * KeywordData => kd_avg_sentiment (snd e) in
      let posts := fun e : string * KeywordData => kd_total_posts (snd e) in
      let sentiments := map avg comparison_data in
      let volumes := map posts comparison_data in
      ComparisonValues
        {| keyword_data := comparison_data;
           best_performing := fst (py_max_by avg first rest);
           worst_performing := fst (py_min_by avg first rest);
           most_discussed := fst (py_max_by_int posts first rest);
           sentiment_range :=
             num_max (map avg rest) (avg first)
             - num_min (map avg rest) (avg first);
           volume_range :=
             (fold_left Z.max (map posts rest) (posts first)
              - fold_left Z.min (map posts rest) (posts first))%Z;
           average_sentiment := mean sentiments;
           sentiment_std := np_std sentiments |}
  end.

End Compare.

Arguments KeywordData num : clear implicits.
Arguments Comparison num : clear implicits.
Arguments ComparisonDict num : clear implicits.

(** ** The database *)

(** [storage/database.py] over in-memory tables: a table is the list of
    its rows in rowid order, a session that commits is a new table, and
    [datetime.utcnow()] is an argument.  A row has the columns these
    functions read or write; the columns the collectors and the adapters
    always fill ([posted_at], [compound_score], [confidence]) are taken
    as filled. *)

Module Storage.

Record Keyword := {
  keyword_id : Z;
  keyword_text : string;
  is_active : bool;
  updated_at : Z
}.

Record Post := {
  post_id : Z;
  external_id : string;
  platform_id : Z;
  post_keyword_id : Z;
  content : text;
  posted_at : Z;
  is_processed : bool
}.

(** The [post_data] dict of a collector. *)
Record PostData := {
  data_external_id : string;
  data_platform_id : Z;
  data_keyword_id : Z;
  data_content : text;
  data_posted_at : Z
}.

(** A fresh [INTEGER PRIMARY KEY]: one more than the largest in the table. *)
Definition next_id (ids : list Z) : Z := (fold_left Z.max ids 0 + 1)%Z.

(** [session.query(Keyword).filter_by(keyword=keyword).first()] *)
Definition find_keyword (keyword : string) (table : list Keyword)
  : option Keyword :=
  List.find (fun k => String.eqb (keyword_text k) keyword) table.

(** An [UPDATE] of the row with the id of [row]. *)
Definition update_keyword (row : Keyword) (table : list Keyword)
  : list Keyword :=
  map (fun k => if (keyword_id k =? keyword_id row)%Z then row else k) table.

(** [add_keyword] *)
Definition add_keyword (now : Z) (keyword : string) (table : list Keyword)
  : list Keyword * Keyword :=
  match find_keyword keyword table with
  | Some existing =>
      if negb (is_active existing) then
        let existing :=
          {| keyword_id := keyword_id existing;
             keyword_text := keyword_text existing;
             is_active := true;
             updated_at := now |} in
        (update_keyword existing table, existing)
      else (table, existing)
  | None =>
      let new_keyword :=
        {| keyword_id := next_id (map keyword_id table);
           keyword_text := keyword; is_active := true;
           updated_at := now |} in
      (table ++ [new_keyword], new_keyword)
  end.

(** [remove_keyword] *)
Definition remove_keyword (now : Z) (keyword : string) (table : list Keyword)
  : list Keyword * bool :=
  match find_keyword keyword table with
  | Some keyword_obj =>
      (update_keyword
         {| keyword_id := keyword_id keyword_obj;
            keyword_text := keyword_text keyword_obj;
            is_active := false;
            updated_at := now |} table,
       true)
  | None => (table, false)
  end.

(** [get_active_keywords] *)
Definition get_active_keywords (table : list Keyword) : list Keyword :=
  List.filter is_active table.

(** [filter_by(platform_id=..., external_id=...)] *)
Definition same_post (post_data : PostData) (p : Post) : bool :=
  (platform_id p =? data_platform_id post_data)%Z
  && String.eqb (external_id p) (data_external_id post_data).

(** [add_post]: a post already stored for the platform under the same
    external id is skipped. *)
Definition add_post (post_data : PostData) (table : list Post)
  : list Post * option Post :=
  match List.find (same_post post_data) table with
  | Some _ => (table, None)
  | None =>
      let post :=
        {| post_id := next_id (map post_id table);
           external_id := data_external_id post_data;
           platform_id := data_platform_id post_data;
           post_keyword_id := data_keyword_id post_data;
           content := data_content post_data;
           posted_at := data_posted_at post_data;
           is_processed := false |} in
      (table ++ [post], Some post)
  end.

(** The constraints of [storage/models.py]: [id] is the primary key of a
    table, [keywords.keyword] is unique, and so is the pair
    [(platform_id, external_id)] of a post. *)
Definition keywords_ok (table : list Keyword) : Prop :=
  List.NoDup (map keyword_id table) /\ List.NoDup (map keyword_text table).

Definition posts_ok (table : list Post) : Prop :=
  List.NoDup (map post_id table)
  /\ List.NoDup (map (fun p => (platform_id p, external_id p)) table).

(** The loop of [cli.collect] over the posts of a collector: the table
    and [stored_count]. *)
Definition store_posts (posts : list PostData) (table : list Post)
  : list Post * Z :=
  fold_left
    (fun acc post_data =>
       match add_post post_data (fst acc) with
       | (table', Some _) => (table', (snd acc + 1)%Z)
       | (table', None) => (table', snd acc)
       end)
    posts (table, 0%Z).

Section Scores.
Context {num : Type} `{Numeric num}.
Local Open Scope num_scope.

Record SentimentScore := {
  score_id : Z;
  score_post_id : Z;
  score_model_name : string;
  score_compound : num;
  score_positive : num;
  score_negative : num;
  score_neutral : num;
  score_confidence : num
}.

(** [{'post_id': post.id, **result}], as [cli.analyze] builds it. *)
Definition score_of_result (id post : Z) (result : ModelResult num)
  : SentimentScore :=
  {| score_id := id; score_post_id := post;
     score_model_name := model_name result;
     score_compound := compound_score result;
     score_positive := positive_score result;
     score_negative := negative_score result;
     score_neutral := neutral_score result;
     score_confidence := confidence result |}.

(** [filter_by(post_id=..., model_name=...)] *)
Definition same_score (post : Z) (name : string) (s : SentimentScore) : bool :=
  (score_post_id s =? post)%Z && String.eqb (score_model_name s) name.

(** [add_sentiment_score]: the score of a post and a model is updated in
    place when there is one, inserted otherwise. *)
Definition add_sentiment_score (post : Z) (result : ModelResult num)
    (table : list SentimentScore) : list SentimentScore * SentimentScore :=
  match List.find (same_score post (model_name result)) table with
  | Some existing =>
      let score := score_of_result (score_id existing) post result in
      (map (fun s => if (score_id s =? score_id existing)%Z then score else s)
           table,
       score)
  | None =>
      let score := score_of_result (next_id (map score_id table)) post result in
      (table ++ [score], score)
  end.

(** One row for a post and a model: no constraint of the schema, but what
    [add_sentiment_score] looks for before it inserts. *)
Definition scores_ok (table : list SentimentScore) : Prop :=
  List.NoDup (map score_id table)
  /\ List.NoDup (map (fun s => (score_post_id s, score_model_name s)) table).

Record Db := {
  keywords : list Keyword;
  posts : list Post;
  sentiment_scores : list SentimentScore
}.

(** The rows of [posts JOIN sentiment_scores JOIN keywords], on
    [sentiment_scores.post_id = posts.id] and
    [posts.keyword_id = keywords.id]. *)
Definition joined (db : Db) : list (Post * SentimentScore * Keyword) :=
  flat_map
    (fun p =>
       flat_map
         (fun s =>
            if (score_post_id s =? post_id p)%Z then
              flat_map
                (fun k =>
                   if (keyword_id k =? post_keyword_id p)%Z then [(p, s, k)]
                   else [])
                (keywords db)
            else [])
         (sentiment_scores db))
    (posts db).

Definition row_post (r : Post * SentimentScore * Keyword) : Post := fst (fst r).
Definition row_score (r : Post * SentimentScore * Keyword) : SentimentScore :=
  snd (fst r).
Definition row_keyword (r : Post * SentimentScore * Keyword) : Keyword := snd r.

(** [datetime.utcnow() - timedelta(hours=hours)], in microseconds. *)
Definition cutoff_time (now hours : Z) : Z := (now - hours * 3600000000)%Z.

(** [ORDER BY posts.posted_at]; SQL leaves the order of rows with the same
    [posted_at] open, here they stay in the order of the rows. *)
Fixpoint insert_row (r : Post * SentimentScore * Keyword)
    (l : list (Post * SentimentScore * Keyword))
  : list (Post * SentimentScore * Keyword) :=
  match l with
  | [] => [r]
  | r' :: l' =>
      if (posted_at (row_post r) <? posted_at (row_post r'))%Z
      then r :: r' :: l'
      else r' :: insert_row r l'
  end.

Definition order_by_posted_at (l : list (Post * SentimentScore * Keyword))
  : list (Post * SentimentScore * Keyword) :=
  fold_left (fun acc r => insert_row r acc) l [].

(** [SentimentScore.confidence >= 0.5] *)
Definition confident (r : Post * SentimentScore * Keyword) : bool :=
  score_confidence (row_score r) >=? of_Q 0.5.

(** The dict of one row of the result. *)
Definition sample_of (r : Post * SentimentScore * Keyword) : Sample num :=
  {| timestamp := posted_at (row_post r);
     sentiment := score_compound (row_score r);
     sample_confidence := score_confidence (row_score r);
     model := score_model_name (row_score r) |}.

(** [get_sentiment_trends] *)
Definition get_sentiment_trends (now : Z) (db : Db) (keyword : string)
    (hours : Z) : list (Sample num) :=
  let results :=
    order_by_posted_at
      (List.filter
         (fun r =>
            String.eqb (keyword_text (row_keyword r)) keyword
            && (posted_at (row_post r) >=? cutoff_time now hours)%Z
            && confident r)
         (joined db)) in
  map sample_of results.

(** [COUNT(NULLIF(condition, FALSE))]: the rows where it holds. *)
Definition count_where {A} (f : A -> bool) (l : list A) : Z :=
  Z.of_nat (length (List.filter f l)).

(** The rows [get_sentiment_summary] aggregates. *)
Definition summary_rows (now : Z) (db : Db) (keyword : string) (hours : Z)
  : list (Post * SentimentScore * Keyword) :=
  List.filter
    (fun r =>
       String.eqb (keyword_text (row_keyword r)) keyword
       && (posted_at (row_post r) >=? cutoff_time now hours)%Z)
    (joined db).

(** How many of the rows [get_sentiment_label] gives the label [l]. *)
Definition labelled (l : Label) (rows : list (Post * SentimentScore * Keyword))
  : Z :=
  count_where
    (fun r =>
       match get_sentiment_label (score_compound (row_score r)), l with
       | positive, positive | negative, negative | neutral, neutral => true
       | _, _ => false
       end)
    rows.

(** [get_sentiment_summary]; [AVG] over no row is NULL, which
    [float(... or 0)] turns into 0. *)
Definition get_sentiment_summary (now : Z) (db : Db) (keyword : string)
    (hours : Z) : SummaryStats num :=
  let rows := summary_rows now db keyword hours in
  let compound := fun r => score_compound (row_score r) in
  let avg := fun (l : list num) =>
    match l with
    | [] => of_Z 0
    | _ => mean l
    end in
  {| stats_total_posts := Z.of_nat (length rows);
     stats_avg_sentiment := avg (map compound rows);
     stats_avg_confidence :=
       avg (map (fun r => score_confidence (row_score r)) rows);
     stats_positive_count := count_where (fun r => compound r >? of_Q 0.1) rows;
     stats_negative_count :=
       count_where (fun r => compound r <? of_Q (-0.1)) rows;
     stats_neutral_count :=
       count_where
         (fun r => (compound r >=? of_Q (-0.1)) && (compound r <=? of_Q 0.1))
         rows;
     stats_period_hours := hours |}.

End Scores.

Arguments SentimentScore num : clear implicits.
Arguments Db num : clear implicits.

End Storage.

(** ** The collectors *)

Module BaseCollector.

(** [ord(char) >= 32 or char in '\n\t'] *)
Definition keeps (c : N) : bool :=
  (32 <=? c)%N || ((c =? 10)%N || (c =? 9)%N).

(** [clean_text], which the Hacker News collector applies to the content
    of a story before it is stored. *)
Definition clean_text (t : text) : text :=
  match t with
  | [] => []
  | _ => strip (List.filter keeps (collapse_whitespace t))
  end.

End BaseCollector.


(** * Properties *)

(** ** Facts about binary64 used below *)

Module FloatFacts.
Import FloatNum.
Local Open Scope float_scope.

Lemma SFadd_comm prec emax x y : SFadd prec emax x y = SFadd prec emax y x.
Proof.
  destruct x as [sx|sx| |sx mx ex], y as [sy|sy| |sy my ey]; simpl;
    try reflexivity; try (destruct sx, sy; reflexivity).
  rewrite (Z.min_comm ex ey), Z.add_comm. reflexivity.
Qed.

Lemma float_add_comm (x y : float) : x + y = y + x.
Proof. apply Prim2SF_inj. rewrite !add_spec. apply SFadd_comm. Qed.

(** Two terms added to an accumulator that starts at [0]: the order of
    the two terms does not matter, signed zeros included. *)
Lemma float_zero_add_swap (a b : float) : (0 + a) + b = (0 + b) + a.
Proof.
  apply Prim2SF_inj. rewrite !add_spec.
  change (Prim2SF 0) with (S754_zero false).
  destruct (Prim2SF a) as [sa|sa| |sa ma ea],
           (Prim2SF b) as [sb|sb| |sb mb eb];
    try (change (SF64add (S754_zero false) (S754_finite sa ma ea))
           with (S754_finite sa ma ea);
         change (SF64add (S754_zero false) (S754_finite sb mb eb))
           with (S754_finite sb mb eb);
         apply SFadd_comm);
    try (destruct sa); try (destruct sb); reflexivity.
Qed.

(** A float at or below [-0.05] is not at or above [0.05]. *)
Lemma leb_neg_excludes_pos (c : float) :
  (c <=? -0.05) = true -> (0.05 <=? c) = false.
Proof.
  rewrite !leb_spec.
  let v := eval vm_compute in (Prim2SF (-0.05)) in
    change (Prim2SF (-0.05)) with v.
  let v := eval vm_compute in (Prim2SF 0.05) in
    change (Prim2SF 0.05) with v.
  destruct (Prim2SF c) as [s|s| |s m e]; try (destruct s); simpl;
    try reflexivity; try discriminate.
Qed.

Lemma of_Q_005 : of_Q 0.05%Q = 0.05.
Proof. reflexivity. Qed.

Lemma of_Q_neg005 : of_Q (-0.05)%Q = -0.05.
Proof. reflexivity. Qed.

End FloatFacts.

(** ** The weight key of a model name *)

(** What follows the last [sep] of [s] (all of [s] when it has none). *)
Fixpoint after_last (sep : ascii) (s : string) : string :=
  match s with
  | EmptyString => EmptyString
  | String c s' =>
      if existsb (Ascii.eqb sep) (list_ascii_of_string s') then after_last sep s'
      else if Ascii.eqb c sep then s' else s
  end.

(** What precedes the first [sep] of [s] (all of [s] when it has none). *)
Fixpoint before_first (sep : ascii) (s : string) : string :=
  match s with
  | EmptyString => EmptyString
  | String c s' =>
      if Ascii.eqb c sep then EmptyString else String c (before_first sep s')
  end.

(** The first hyphen-separated token of the last slash-separated component,
    said without [split]. *)
Definition key_of_name (name : string) : string :=
  before_first "-" (after_last "/" name).

Definition roberta_model_name : string :=
  "cardiffnlp/twitter-roberta-base-sentiment-latest".

Lemma split_on_nonempty sep s : split_on sep s <> [].
Proof.
  destruct s as [|c s]; simpl; [discriminate|].
  destruct (Ascii.eqb c sep); [discriminate|].
  destruct (split_on sep s); discriminate.
Qed.

Lemma py_first_split sep s : py_first (split_on sep s) = before_first sep s.
Proof.
  induction s as [|c s IH]; simpl; [reflexivity|].
  destruct (Ascii.eqb c sep); [reflexivity|].
  destruct (split_on sep s) as [|w ws] eqn:E.
  - exfalso. exact (split_on_nonempty sep s E).
  - simpl in *. now rewrite IH.
Qed.

Lemma split_on_single sep s :
  existsb (Ascii.eqb sep) (list_ascii_of_string s) = false ->
  split_on sep s = [s].
Proof.
  induction s as [|c s IH]; simpl; [reflexivity|].
  rewrite (Ascii.eqb_sym c sep).
  destruct (Ascii.eqb sep c); simpl; [discriminate|].
  intros E. now rewrite (IH E).
Qed.

Lemma split_on_two sep s :
  existsb (Ascii.eqb sep) (list_ascii_of_string s) = true ->
  exists w1 w2 ws, split_on sep s = w1 :: w2 :: ws.
Proof.
  induction s as [|c s IH]; simpl; [discriminate|].
  rewrite (Ascii.eqb_sym c sep).
  destruct (Ascii.eqb sep c); simpl.
  - intros _. pose proof (split_on_nonempty sep s) as NE.
    destruct (split_on sep s) as [|w ws]; [contradiction|].
    now exists EmptyString, w, ws.
  - intros E. destruct (IH E) as (w1 & w2 & ws & ->).
    now exists (String c w1), w2, ws.
Qed.

Lemma py_last_split sep s : py_last (split_on sep s) = after_last sep s.
Proof.
  unfold py_last.
  induction s as [|c s IH]; simpl; [reflexivity|].
  destruct (existsb (Ascii.eqb sep) (list_ascii_of_string s)) eqn:E.
  - rewrite <- IH.
    destruct (split_on_two _ _ E) as (w1 & w2 & ws & ->).
    destruct (Ascii.eqb c sep); reflexivity.
  - rewrite (split_on_single _ _ E).
    destruct (Ascii.eqb c sep); reflexivity.
Qed.

Section AggregatorKeys.
Context {num : Type} `{Numeric num}.
Local Open Scope num_scope.

(** C10 (first half): the key the aggregator looks a weight up under is
    the first hyphen-separated token of the last slash-separated
    component of the model name. *)
Lemma model_key_is_key_of_name (name : string) :
  model_key name = key_of_name name.
Proof.
  unfold model_key, key_of_name.
  now rewrite py_last_split, py_first_split.
Qed.

End AggregatorKeys.

(** C10: the aggregator's weight key is the first hyphen-separated token of
    the last slash-separated component of [model_name]; for the neural
    adapter's model id this key is "twitter", not "roberta", so whatever
    [roberta_weight] is configured, that result is weighted by the default
    1.0: one loop step adds exactly [1.0] to [total_weight] and
    [compound * 1.0] to the compound accumulator. *)
Theorem C10_roberta_result_gets_default_weight :
  forall (num : Type) (N : Numeric num) (w : Weights num) (a : Acc num)
         (c p n u cf : num),
    let r := {| model_name := roberta_model_name; compound_score := c;
                positive_score := p; negative_score := n;
                neutral_score := u; confidence := cf |} in
    (forall name, model_key name = key_of_name name) /\
    model_key roberta_model_name = "twitter" /\
    model_key roberta_model_name <> "roberta" /\
    weights_get w (model_key (model_name r)) = of_Q 1.0 /\
    total_weight (acc_step w a r) = (total_weight a + of_Q 1.0)%num /\
    weighted_compound (acc_step w a r)
      = (weighted_compound a + c * of_Q 1.0)%num.
Proof.
  intros num N w a c p n u cf r.
  split; [intros; apply model_key_is_key_of_name|].
  repeat split; try reflexivity.
  vm_compute. discriminate.
Qed.


(** ** The aggregator: what it returns *)

Section AggregatorFacts.
Context {num : Type} `{Numeric num}.
Local Open Scope num_scope.

(** The five scalar fields of an aggregate. *)
Definition scalars (r : Aggregated num) : num * num * num * num * num :=
  (agg_compound r, agg_positive r, agg_negative r, agg_neutral r,
   agg_confidence r).

(** The contributing models, as a set. *)
Definition contributing_models (r : Aggregated num) : gset string :=
  list_to_set (models_used r).

(** A result with every score in its declared range. *)
Definition well_formed (r : ModelResult num) : bool :=
  (of_Z (-1) <=? compound_score r) && (compound_score r <=? of_Z 1)
  && (of_Z 0 <=? positive_score r) && (positive_score r <=? of_Z 1)
  && (of_Z 0 <=? negative_score r) && (negative_score r <=? of_Z 1)
  && (of_Z 0 <=? neutral_score r) && (neutral_score r <=? of_Z 1)
  && (of_Z 0 <=? confidence r) && (confidence r <=? of_Z 1).



Lemma elem_of_dict_keys_set {V} (d : list (string * V)) k v k0 :
  k0 ∈ dict_keys (dict_set d k v) <-> k0 = k \/ k0 ∈ dict_keys d.
Proof.
  unfold dict_keys. induction d as [|[k' v'] d IH]; simpl.
  - rewrite elem_of_cons, elem_of_nil. tauto.
  - destruct (String.eqb k' k) eqn:E; simpl.
    + apply String.eqb_eq in E. subst k'. rewrite elem_of_cons. tauto.
    + rewrite !elem_of_cons, IH. tauto.
Qed.

Lemma fold_keys (w : Weights num) rs : forall a k,
  k ∈ dict_keys (model_results (fold_left (acc_step w) rs a))
  <-> k ∈ dict_keys (model_results a) \/ k ∈ map (fun r => model_key (model_name r)) rs.
Proof.
  induction rs as [|r rs IH]; intros a k; simpl.
  - rewrite elem_of_nil. tauto.
  - rewrite IH. simpl. rewrite elem_of_dict_keys_set, elem_of_cons. tauto.
Qed.

(** The keys of [model_results] after the loop are the keys of the results. *)
Lemma accumulate_keys (w : Weights num) rs :
  list_to_set (dict_keys (model_results (accumulate w rs)))
  =@{gset string} list_to_set (map (fun r => model_key (model_name r)) rs).
Proof.
  apply set_eq. intros k. rewrite !elem_of_list_to_set.
  unfold accumulate. rewrite fold_keys. simpl. rewrite elem_of_nil. tauto.
Qed.

Lemma accumulate_keys_perm (w : Weights num) rs rs' :
  Permutation rs rs' ->
  list_to_set (dict_keys (model_results (accumulate w rs)))
  =@{gset string} list_to_set (dict_keys (model_results (accumulate w rs'))).
Proof.
  intros P. rewrite !accumulate_keys.
  apply set_eq. intros k. rewrite !elem_of_list_to_set.
  now rewrite (Permutation_map _ P).
Qed.

Lemma get_weighted_sentiment_cons (w : Weights num) r rs :
  get_weighted_sentiment w (r :: rs) =
  if total_weight (accumulate w (r :: rs)) =? of_Z 0 then None
  else Some {|
    agg_compound := weighted_compound (accumulate w (r :: rs)) / total_weight (accumulate w (r :: rs));
    agg_positive := weighted_positive (accumulate w (r :: rs)) / total_weight (accumulate w (r :: rs));
    agg_negative := weighted_negative (accumulate w (r :: rs)) / total_weight (accumulate w (r :: rs));
    agg_neutral := weighted_neutral (accumulate w (r :: rs)) / total_weight (accumulate w (r :: rs));
    agg_confidence := weighted_confidence (accumulate w (r :: rs)) / total_weight (accumulate w (r :: rs));
    model_count := length (r :: rs);
    models_used := dict_keys (model_results (accumulate w (r :: rs)));
    individual_results := model_results (accumulate w (r :: rs)) |}.
Proof. reflexivity. Qed.


End AggregatorFacts.

(** ** The aggregator in binary64 *)

Module AggregatorFloat.
Import FloatNum FloatFacts.

Definition mk_result (name : string) (c p n u cf : float) : ModelResult float :=
  {| model_name := name; compound_score := c; positive_score := p;
     negative_score := n; neutral_score := u; confidence := cf |}.

Lemma float_neq (a b : float) :
  PrimFloat.eqb a a = true -> PrimFloat.eqb a b = false -> a <> b.
Proof. intros Ha Hab E. rewrite <- E in Hab. congruence. Qed.

(** Swapping the two results of a two-element list leaves every
    accumulator of the loop unchanged. *)
Lemma accumulate_swap (w : Weights float) (r1 r2 : ModelResult float) :
  let a := accumulate w [r1; r2] in
  let a' := accumulate w [r2; r1] in
  total_weight a = total_weight a' /\
  weighted_compound a = weighted_compound a' /\
  weighted_positive a = weighted_positive a' /\
  weighted_negative a = weighted_negative a' /\
  weighted_neutral a = weighted_neutral a' /\
  weighted_confidence a = weighted_confidence a'.
Proof.
  cbn. repeat split; apply float_zero_add_swap.
Qed.

Lemma scalars_swap (w : Weights float) (r1 r2 : ModelResult float) :
  option_map scalars (get_weighted_sentiment w [r1; r2])
  = option_map scalars (get_weighted_sentiment w [r2; r1]).
Proof.
  rewrite !get_weighted_sentiment_cons.
  destruct (accumulate_swap w r1 r2) as (E0 & E1 & E2 & E3 & E4 & E5).
  cbv zeta in *. rewrite E0, E1, E2, E3, E4, E5.
  destruct (total_weight (accumulate w [r2; r1]) =? of_Z 0)%num;
    reflexivity.
Qed.

Lemma models_swap (w : Weights float) (r1 r2 : ModelResult float) :
  option_map contributing_models (get_weighted_sentiment w [r1; r2])
  = option_map contributing_models (get_weighted_sentiment w [r2; r1]).
Proof.
  rewrite !get_weighted_sentiment_cons.
  destruct (accumulate_swap w r1 r2) as (E0 & _).
  cbv zeta in *. rewrite E0.
  destruct (total_weight (accumulate w [r2; r1]) =? of_Z 0)%num;
    [reflexivity|].
  unfold option_map, contributing_models.
  cbn [models_used]. f_equal.
  apply accumulate_keys_perm. constructor.
Qed.

Lemma aggregate_models_and_count (w : Weights float)
    (rs : list (ModelResult float)) (a : Aggregated float) :
  get_weighted_sentiment w rs = Some a ->
  models_used a = dict_keys (model_results (accumulate w rs))
  /\ model_count a = length rs.
Proof.
  destruct rs as [|r rs]; [discriminate|].
  rewrite get_weighted_sentiment_cons.
  destruct (total_weight (accumulate w (r :: rs)) =? of_Z 0)%num;
    [discriminate|].
  intros [= <-]. split; reflexivity.
Qed.

(** C1, amended: whatever the length of the list, permuting it never
    changes the set of contributing models or the model count of the
    aggregate; for at most two results (the analyzer has two adapters) the
    permuted call answers [None] exactly when the original does, and the
    five aggregated scalars are bit-identical as well. *)
Theorem C1_order_independent_up_to_two_results :
  forall (w : Weights float) (rs rs' : list (ModelResult float)),
    Permutation rs rs' ->
    (forall a a' : Aggregated float,
        get_weighted_sentiment w rs = Some a ->
        get_weighted_sentiment w rs' = Some a' ->
        contributing_models a = contributing_models a'
        /\ model_count a = model_count a')
    /\ ((length rs <= 2)%nat ->
        option_map scalars (get_weighted_sentiment w rs)
        = option_map scalars (get_weighted_sentiment w rs')
        /\ option_map contributing_models (get_weighted_sentiment w rs)
           = option_map contributing_models (get_weighted_sentiment w rs')).
Proof.
  intros w rs rs' P. split.
  - intros a a' E E'.
    destruct (aggregate_models_and_count w rs a E) as [M C].
    destruct (aggregate_models_and_count w rs' a' E') as [M' C'].
    unfold contributing_models. rewrite M, M', C, C'.
    split; [now apply accumulate_keys_perm|now apply Permutation_length].
  - intros L.
    destruct rs as [|r1 [|r2 [|r3 rs]]]; simpl in L; try lia.
    + apply Permutation_nil in P. subst. split; reflexivity.
    + apply Permutation_length_1_inv in P. subst. split; reflexivity.
    + apply Permutation_length_2_inv in P. destruct P as [-> | ->].
      * split; reflexivity.
      * split; [apply scalars_swap | apply models_swap].
Qed.

Definition vader_08 : ModelResult float :=
  mk_result "vader" 0.8 0.9 0.1 0.0 0.9.
Definition roberta_06 : ModelResult float :=
  mk_result roberta_model_name 0.6 0.8 0.2 0.0 0.8.
Definition third_07 : ModelResult float :=
  mk_result "textblob" 0.7 0.7 0.1 0.2 0.7.

Lemma C1_two_results_witness :
  option_map scalars
    (get_weighted_sentiment default_weights [vader_08; roberta_06])
  = option_map scalars
      (get_weighted_sentiment default_weights [roberta_06; vader_08])
  /\ option_map contributing_models
       (get_weighted_sentiment default_weights [vader_08; roberta_06])
     = option_map contributing_models
         (get_weighted_sentiment default_weights [roberta_06; vader_08]).
Proof.
  apply (proj2 (C1_order_independent_up_to_two_results default_weights
                  [vader_08; roberta_06] [roberta_06; vader_08]
                  (perm_swap roberta_06 vader_08 []))).
  simpl. lia.
Defined.

(** C1 as stated fails: with three results the left-to-right float sums
    round differently in different orders.  For compounds 0.8, 0.6, 0.7
    under the weights 0.4, 1.0, 1.0 the aggregate compound is
    [0.675] in one order and [0.6749999999999999] in another. *)
Lemma C1_counterexample_three_results :
  Permutation [vader_08; roberta_06; third_07] [roberta_06; third_07; vader_08]
  /\ option_map agg_compound
       (get_weighted_sentiment default_weights [vader_08; roberta_06; third_07])
     = Some 0.675%float
  /\ option_map agg_compound
       (get_weighted_sentiment default_weights [roberta_06; third_07; vader_08])
     = Some 0.6749999999999999%float
  /\ option_map agg_compound
       (get_weighted_sentiment default_weights [vader_08; roberta_06; third_07])
     <> option_map agg_compound
       (get_weighted_sentiment default_weights [roberta_06; third_07; vader_08]).
Proof.
  split.
  { exact (Permutation_cons_append [roberta_06; third_07] vader_08). }
  split; [vm_compute; reflexivity|].
  split; [vm_compute; reflexivity|].
  intros E.
  apply (f_equal (fun o => match o with Some x => x | None => 0%float end)) in E.
  vm_compute in E. revert E. apply float_neq; vm_compute; reflexivity.
Qed.




(** C5: the label is positive exactly when [compound >= 0.05], negative
    exactly when [compound <= -0.05], and neutral in every other case
    (NaN included); 0.05 is positive, 0.049999 neutral, -0.05 negative. *)
Theorem C5_label_thresholds :
  forall c : float,
    (get_sentiment_label c = positive <-> (0.05 <=? c)%float = true) /\
    (get_sentiment_label c = negative <-> (c <=? -0.05)%float = true) /\
    (get_sentiment_label c = neutral
       <-> (0.05 <=? c)%float = false /\ (c <=? -0.05)%float = false) /\
    get_sentiment_label 0.05%float = positive /\
    get_sentiment_label 0.049999%float = neutral /\
    get_sentiment_label (-0.05)%float = negative.
Proof.
  intros c. unfold get_sentiment_label, geb.
  cbn [nleb float_numeric]. rewrite of_Q_005, of_Q_neg005.
  pose proof (leb_neg_excludes_pos c) as X.
  destruct (0.05 <=? c)%float eqn:P, (c <=? -0.05)%float eqn:Q;
    try (specialize (X eq_refl); discriminate X);
    repeat split; try discriminate; try reflexivity;
    try (intros [? ?]; discriminate).
Qed.



End AggregatorFloat.


(** ** The aggregator over the reals *)

Module RealFacts.
Import RealNum.
Local Open Scope R_scope.

Lemma Reqb_true x y : Reqb x y = true <-> x = y.
Proof. unfold Reqb. destruct (Req_dec_T x y); split; congruence. Qed.

Lemma Reqb_false x y : Reqb x y = false <-> x <> y.
Proof. unfold Reqb. destruct (Req_dec_T x y); split; congruence. Qed.

Lemma Rltb_true x y : Rltb x y = true <-> x < y.
Proof. unfold Rltb. destruct (Rlt_dec x y); split; congruence. Qed.

Lemma Rltb_false x y : Rltb x y = false <-> y <= x.
Proof.
  unfold Rltb. destruct (Rlt_dec x y); split; try congruence; lra.
Qed.

Lemma Rleb_true x y : Rleb x y = true <-> x <= y.
Proof. unfold Rleb. destruct (Rle_dec x y); split; congruence. Qed.

Lemma Rleb_false x y : Rleb x y = false <-> y < x.
Proof.
  unfold Rleb. destruct (Rle_dec x y); split; try congruence; lra.
Qed.

Lemma Q2R_one : Q2R 1.0 = 1.
Proof. unfold Q2R. simpl. lra. Qed.

End RealFacts.

Module AggregatorReal.
Import RealNum RealFacts.
Local Open Scope R_scope.

(** [well_formed] over the reals, as inequalities. *)
Lemma well_formed_real (r : ModelResult R) :
  well_formed r = true ->
  -1 <= compound_score r <= 1 /\ 0 <= positive_score r <= 1 /\
  0 <= negative_score r <= 1 /\ 0 <= neutral_score r <= 1 /\
  0 <= confidence r <= 1.
Proof.
  unfold well_formed. cbn [nleb real_numeric of_Z].
  rewrite !andb_true_iff, !Rleb_true. tauto.
Qed.

(** The loop invariant: every accumulator is bounded by the total weight. *)
Definition bounded (a : Acc R) : Prop :=
  0 <= total_weight a /\
  - total_weight a <= weighted_compound a <= total_weight a /\
  0 <= weighted_positive a <= total_weight a /\
  0 <= weighted_negative a <= total_weight a /\
  0 <= weighted_neutral a <= total_weight a /\
  0 <= weighted_confidence a <= total_weight a.

Lemma weights_get_nonneg (w : Weights R) key :
  0 <= vader_weight w -> 0 <= roberta_weight w -> 0 <= weights_get w key.
Proof.
  intros Hv Hr. unfold weights_get.
  destruct (String.eqb key "vader"); [assumption|].
  destruct (String.eqb key "roberta"); [assumption|].
  cbn [of_Q real_numeric]. rewrite Q2R_one. lra.
Qed.

Lemma acc_step_bounded (w : Weights R) a r :
  0 <= vader_weight w -> 0 <= roberta_weight w ->
  well_formed r = true -> bounded a -> bounded (acc_step w a r).
Proof.
  intros Hv Hr Hwf (HT & HC & HP & HN & HU & HF).
  apply well_formed_real in Hwf.
  destruct Hwf as (Wc & Wp & Wn & Wu & Wf).
  pose proof (weights_get_nonneg w (model_key (model_name r)) Hv Hr) as Hw.
  unfold bounded, acc_step.
  cbn [total_weight weighted_compound weighted_positive weighted_negative
       weighted_neutral weighted_confidence nadd nmul real_numeric].
  set (x := weights_get w (model_key (model_name r))) in *.
  repeat split; nra.
Qed.

Lemma fold_bounded (w : Weights R) rs :
  0 <= vader_weight w -> 0 <= roberta_weight w ->
  Forall (fun r => well_formed r = true) rs ->
  forall a, bounded a -> bounded (fold_left (acc_step w) rs a).
Proof.
  intros Hv Hr F. induction F as [|r rs Hwf F IH]; intros a Ha; simpl.
  - assumption.
  - apply IH. now apply acc_step_bounded.
Qed.

Lemma accumulate_bounded (w : Weights R) rs :
  0 <= vader_weight w -> 0 <= roberta_weight w ->
  Forall (fun r => well_formed r = true) rs ->
  bounded (accumulate w rs).
Proof.
  intros Hv Hr F. apply fold_bounded; try assumption.
  unfold bounded, acc0. cbn. repeat split; lra.
Qed.

Lemma div_in_unit (c t : R) : 0 < t -> 0 <= c <= t -> 0 <= c / t <= 1.
Proof.
  intros Ht [H0 H1]. split.
  - apply (Rmult_le_reg_r t); [assumption|].
    unfold Rdiv. rewrite Rmult_assoc, Rinv_l by lra. lra.
  - apply (Rmult_le_reg_r t); [assumption|].
    unfold Rdiv. rewrite Rmult_assoc, Rinv_l by lra. lra.
Qed.

Lemma div_in_sym_unit (c t : R) : 0 < t -> - t <= c <= t -> -1 <= c / t <= 1.
Proof.
  intros Ht [H0 H1]. split.
  - apply (Rmult_le_reg_r t); [assumption|].
    unfold Rdiv. rewrite Rmult_assoc, Rinv_l by lra. lra.
  - apply (Rmult_le_reg_r t); [assumption|].
    unfold Rdiv. rewrite Rmult_assoc, Rinv_l by lra. lra.
Qed.


(** The six running sums of the loop. *)
Definition sums (a : Acc R) : R * R * R * R * R * R :=
  (total_weight a, weighted_compound a, weighted_positive a,
   weighted_negative a, weighted_neutral a, weighted_confidence a).

Lemma sums_step (w : Weights R) a a' r :
  sums a = sums a' -> sums (acc_step w a r) = sums (acc_step w a' r).
Proof.
  unfold sums. intros [= E0 E1 E2 E3 E4 E5]. unfold acc_step.
  cbn [total_weight weighted_compound weighted_positive weighted_negative
       weighted_neutral weighted_confidence].
  now rewrite E0, E1, E2, E3, E4, E5.
Qed.

Lemma sums_step_swap (w : Weights R) a a' x y :
  sums a = sums a' ->
  sums (acc_step w (acc_step w a x) y) = sums (acc_step w (acc_step w a' y) x).
Proof.
  unfold sums. intros [= E0 E1 E2 E3 E4 E5]. unfold acc_step.
  cbn [total_weight weighted_compound weighted_positive weighted_negative
       weighted_neutral weighted_confidence nadd nmul real_numeric].
  rewrite E0, E1, E2, E3, E4, E5.
  repeat match goal with |- (_, _) = (_, _) => f_equal end; ring.
Qed.

Lemma sums_fold_perm (w : Weights R) rs rs' :
  Permutation rs rs' ->
  forall a a', sums a = sums a' ->
  sums (fold_left (acc_step w) rs a) = sums (fold_left (acc_step w) rs' a').
Proof.
  induction 1 as [|x l l' _ IH|x y l|l l' l'' _ IH1 _ IH2]; intros a a' E.
  - exact E.
  - cbn [fold_left]. apply IH. now apply sums_step.
  - cbn [fold_left].
    assert (forall b b', sums b = sums b' ->
              sums (fold_left (acc_step w) l b)
              = sums (fold_left (acc_step w) l b')) as C.
    { induction l as [|z l IHl]; intros b b' Eb; [exact Eb|].
      cbn [fold_left]. apply IHl. now apply sums_step. }
    apply C. now apply sums_step_swap.
  - rewrite (IH1 a a eq_refl). now apply IH2.
Qed.

(** Without rounding the aggregator is order-independent for lists of
    any length: the five scalars of the aggregate, and whether there is
    one, do not depend on the order of the results. *)
Lemma aggregate_order_independent_exact (w : Weights R) rs rs' :
  Permutation rs rs' ->
  option_map scalars (get_weighted_sentiment w rs)
  = option_map scalars (get_weighted_sentiment w rs').
Proof.
  intros P.
  pose proof (sums_fold_perm w rs rs' P acc0 acc0 eq_refl) as E.
  fold (accumulate w rs) in E. fold (accumulate w rs') in E.
  unfold sums in E. injection E as E0 E1 E2 E3 E4 E5.
  destruct rs as [|r rs].
  - apply Permutation_nil in P. now subst.
  - destruct rs' as [|r' rs'];
      [apply Permutation_sym, Permutation_nil in P; discriminate|].
    rewrite !get_weighted_sentiment_cons, E0, E1, E2, E3, E4, E5.
    destruct (total_weight (accumulate w (r' :: rs')) =? of_Z 0)%num;
      reflexivity.
Qed.

Definition real_result (name : string) (c p n u cf : R) : ModelResult R :=
  {| model_name := name; compound_score := c; positive_score := p;
     negative_score := n; neutral_score := u; confidence := cf |}.

Definition real_vader : ModelResult R := real_result "vader" (4/5) (9/10) (1/10) 0 (9/10).
Definition real_roberta : ModelResult R :=
  real_result roberta_model_name (3/5) (4/5) (1/5) 0 (4/5).



Lemma default_weights_nonneg :
  0 <= vader_weight (default_weights (num := R)) /\
  0 <= roberta_weight (default_weights (num := R)).
Proof.
  unfold default_weights. cbn [vader_weight roberta_weight of_Q real_numeric].
  unfold Q2R. simpl. lra.
Qed.


End AggregatorReal.

(** ** Alert tiers *)

Section AlertFacts.
Context {num : Type} `{Numeric num}.
Local Open Scope num_scope.

Definition is_tier (a : AlertCondition num) : bool :=
  match alert_type a with
  | sentiment_threshold => true
  | _ => false
  end.

(** The severities of the sentiment-threshold conditions of an evaluation. *)
Definition tier_severities (alerts : list (AlertCondition num)) : list Severity :=
  map severity (List.filter is_tier alerts).

(** What the spec's priority order gives for a reading [cur]. *)
Definition first_match (th : gmap string num) (cur : num) : list Severity :=
  if cur <=? thresholds_get th "very_negative" (of_Q (-0.8)) then [critical]
  else if cur <=? thresholds_get th "negative" (of_Q (-0.3)) then [high]
  else if cur >=? thresholds_get th "very_positive" (of_Q 0.8) then [low]
  else [].

Lemma volume_alerts_no_tier kw cfg volume :
  List.filter is_tier (volume_alerts kw cfg volume) = [].
Proof. unfold volume_alerts. destruct (volume >? _)%Z; reflexivity. Qed.

Lemma rapid_change_alerts_no_tier kw cfg (t : TrendAnalysis num) :
  List.filter is_tier (rapid_change_alerts kw cfg t) = [].
Proof.
  unfold rapid_change_alerts. destruct (nabs _ >? _); reflexivity.
Qed.

(** Every outcome of the [if]/[elif] chain: an exception, or the
    conditions of the first matching tier. *)
Lemma sentiment_alerts_cases kw th cur :
  match sentiment_alerts kw th cur with
  | Raise _ => True
  | Ok tier =>
      Forall (fun a => is_tier a = true) tier /\
      map severity tier = first_match th cur
  end.
Proof.
  unfold sentiment_alerts, first_match, thresholds_item.
  destruct (cur <=? thresholds_get th "very_negative" (of_Q (-0.8))).
  { destruct (th !! "very_negative"); simpl; [|exact I].
    split; [repeat constructor|reflexivity]. }
  destruct (cur <=? thresholds_get th "negative" (of_Q (-0.3))).
  { destruct (th !! "negative"); simpl; [|exact I].
    split; [repeat constructor|reflexivity]. }
  destruct (cur >=? thresholds_get th "very_positive" (of_Q 0.8)).
  { destruct (th !! "very_positive"); simpl; [|exact I].
    split; [repeat constructor|reflexivity]. }
  simpl. split; [constructor|reflexivity].
Qed.

Lemma first_match_length th cur : (length (first_match th cur) <= 1)%nat.
Proof.
  unfold first_match.
  repeat match goal with |- context [if ?b then _ else _] => destruct b end;
    simpl; lia.
Qed.

Lemma filter_all {A} (f : A -> bool) (l : list A) :
  Forall (fun a => f a = true) l -> List.filter f l = l.
Proof.
  induction 1 as [|a l Ha _ IH]; simpl; [reflexivity|].
  now rewrite Ha, IH.
Qed.

(** The tier conditions of an evaluation are none at all (alerts disabled,
    or a missing threshold key raised [KeyError]) or those of the first
    matching tier. *)
Lemma tier_severities_cases cfg kw summary trends6 :
  tier_severities (check_alert_conditions cfg kw summary trends6) = []
  \/ tier_severities (check_alert_conditions cfg kw summary trends6)
     = first_match (thresholds cfg) (default (of_Z 0) (avg_sentiment summary)).
Proof.
  unfold tier_severities, check_alert_conditions, check_alert_conditions_body.
  destruct (enabled cfg); simpl; [|now left].
  pose proof (sentiment_alerts_cases kw (thresholds cfg)
                (default (of_Z 0) (avg_sentiment summary))) as C.
  destruct (sentiment_alerts kw (thresholds cfg)
              (default (of_Z 0) (avg_sentiment summary))) as [tier|e];
    simpl; [|now left].
  destruct C as [F E]. right.
  rewrite !List.filter_app, volume_alerts_no_tier, rapid_change_alerts_no_tier.
  rewrite !app_nil_r, (filter_all _ _ F). exact E.
Qed.

(** With the three threshold keys configured nothing raises, and the tier
    conditions are exactly those of the first matching tier. *)
Lemma tier_severities_configured cfg kw summary trends6 vn ng vp :
  enabled cfg = true ->
  thresholds cfg !! "very_negative" = Some vn ->
  thresholds cfg !! "negative" = Some ng ->
  thresholds cfg !! "very_positive" = Some vp ->
  tier_severities (check_alert_conditions cfg kw summary trends6)
  = first_match (thresholds cfg) (default (of_Z 0) (avg_sentiment summary)).
Proof.
  intros En Hvn Hng Hvp.
  unfold tier_severities, check_alert_conditions, check_alert_conditions_body.
  rewrite En. simpl.
  unfold sentiment_alerts, first_match, thresholds_item.
  rewrite Hvn, Hng, Hvp.
  repeat match goal with |- context [if ?b then _ else _] => destruct b end;
    simpl;
    rewrite ?List.filter_app, ?volume_alerts_no_tier, ?rapid_change_alerts_no_tier;
    reflexivity.
Qed.

End AlertFacts.

Module AlertExample.
Import FloatNum.

(** The thresholds of the spec's example: only the two negative tiers. *)
Definition example_thresholds : gmap string float :=
  <["very_negative" := (-0.8)%float]> (<["negative" := (-0.3)%float]> ∅).

Definition example_config : AlertsConfig float :=
  {| enabled := true; thresholds := example_thresholds;
     volume_threshold := 10; rapid_change_threshold := 0.3%float |}.

Definition example_summary : Summary float :=
  {| avg_sentiment := Some (-0.9)%float; total_posts := Some 15%Z |}.

Lemma example_tiers :
  tier_severities
    (check_alert_conditions example_config "test_keyword" example_summary [])
  = [critical].
Proof. vm_compute. reflexivity. Qed.

Lemma example_alert_types :
  map alert_type
    (check_alert_conditions example_config "test_keyword" example_summary [])
  = [sentiment_threshold; volume_spike].
Proof. vm_compute. reflexivity. Qed.

End AlertExample.

(** C9: in one evaluation the sentiment tiers are first-match-wins in the
    order very_negative (critical), negative (high), very_positive (low):
    whatever the reading and the thresholds, at most one
    [sentiment_threshold] condition is emitted, and when one is, it is the
    one of the first matching tier; with the thresholds configured the
    emitted tier is exactly the first match.  For avg_sentiment = -0.9
    with very_negative = -0.8 and negative = -0.3 the evaluation holds the
    critical condition alone. *)
Theorem C9_sentiment_tiers_first_match_wins :
  (forall (num : Type) (N : Numeric num) (cfg : AlertsConfig num)
          (kw : string) (summary : Summary num) (trends6 : list (Sample num)),
      let alerts := check_alert_conditions cfg kw summary trends6 in
      let cur := default (of_Z 0) (avg_sentiment summary) in
      (length (List.filter is_tier alerts) <= 1)%nat /\
      (tier_severities alerts = [] \/
       tier_severities alerts = first_match (thresholds cfg) cur) /\
      (forall vn ng vp,
          enabled cfg = true ->
          thresholds cfg !! "very_negative" = Some vn ->
          thresholds cfg !! "negative" = Some ng ->
          thresholds cfg !! "very_positive" = Some vp ->
          tier_severities alerts =
            if (cur <=? vn)%num then [critical]
            else if (cur <=? ng)%num then [high]
            else if (cur >=? vp)%num then [low]
            else [])) /\
  tier_severities
    (check_alert_conditions AlertExample.example_config "test_keyword"
       AlertExample.example_summary [])
  = [critical].
Proof.
  split; [|exact AlertExample.example_tiers].
  intros num N cfg kw summary trends6 alerts cur.
  pose proof (tier_severities_cases cfg kw summary trends6) as C.
  fold alerts cur in C.
  split; [|split].
  - assert (length (tier_severities alerts) <= 1)%nat as L.
    { destruct C as [-> | ->]; [simpl; lia | apply first_match_length]. }
    unfold tier_severities in L. now rewrite length_map in L.
  - exact C.
  - intros vn ng vp En Hvn Hng Hvp.
    unfold alerts, cur.
    rewrite (tier_severities_configured cfg kw summary trends6 vn ng vp)
      by assumption.
    unfold first_match, thresholds_get. now rewrite Hvn, Hng, Hvp.
Qed.

(** ** Series helpers *)

Section SeriesFacts.
Context {num : Type} `{Numeric num}.
Local Open Scope num_scope.

Lemma length_insert_sample (s : Sample num) l :
  length (insert_sample s l) = S (length l).
Proof.
  induction l as [|s' l IH]; simpl; [reflexivity|].
  destruct (timestamp s <? timestamp s')%Z; simpl; [reflexivity|].
  now rewrite IH.
Qed.

Lemma length_sort_fold (l : list (Sample num)) : forall acc,
  length (fold_left (fun acc s => insert_sample s acc) l acc)
  = (length l + length acc)%nat.
Proof.
  induction l as [|s l IH]; intros acc; simpl; [reflexivity|].
  rewrite IH, length_insert_sample. lia.
Qed.

Lemma length_sort_values (l : list (Sample num)) :
  length (sort_values l) = length l.
Proof. unfold sort_values. rewrite length_sort_fold. simpl. lia. Qed.

Lemma length_rolling agg w (l : list num) : length (rolling agg w l) = length l.
Proof. unfold rolling. now rewrite length_map, length_seq. Qed.

Lemma iloc_neg_ok {A} (l : list A) k :
  (1 <= k <= length l)%nat -> exists a, iloc_neg l k = Ok a.
Proof.
  intros [H1 H2]. unfold iloc_neg.
  destruct (Nat.leb_spec 1 k); [|lia].
  destruct (Nat.leb_spec k (length l)); [|lia]. simpl.
  destruct (nth_error l (length l - k)) as [a|] eqn:E; [now exists a|].
  apply nth_error_None in E. lia.
Qed.

End SeriesFacts.

(** ** Momentum *)

Section MomentumFacts.
Context {num : Type} `{Numeric num}.
Local Open Scope num_scope.

Definition insufficient_momentum : MomentumDict num :=
  MomentumError "Insufficient data for momentum calculation".

Lemma momentum_short (trends : list (Sample num)) :
  (length trends < 5)%nat ->
  calculate_momentum_body trends = Ok insufficient_momentum.
Proof.
  intros L. unfold calculate_momentum_body.
  destruct (Nat.ltb_spec (length trends) 5); [reflexivity|lia].
Qed.

Lemma momentum_long (trends : list (Sample num)) :
  (5 <= length trends)%nat ->
  exists m, calculate_momentum_body trends = Ok (MomentumValues m).
Proof.
  intros L. unfold calculate_momentum_body.
  destruct (Nat.ltb_spec (length trends) 5); [lia|].
  pose proof (length_sort_values trends) as Ls.
  destruct (iloc_neg_ok (map sentiment (sort_values trends)) 1)
    as [current ->]; [rewrite length_map; lia|].
  destruct (iloc_neg_ok (rolling_mean 5 (map sentiment (sort_values trends))) 1)
    as [sma5 ->];
    [unfold rolling_mean; rewrite length_rolling, length_map; lia|].
  destruct (iloc_neg_ok
              (rolling_mean (Nat.min 10 (length (sort_values trends)))
                 (map sentiment (sort_values trends))) 1)
    as [sma10 ->];
    [unfold rolling_mean; rewrite length_rolling, length_map; lia|].
  cbn [pybind].
  destruct (Nat.ltb_spec 0 (Nat.min 5 (length (sort_values trends) - 1)));
    [|lia].
  destruct (iloc_neg_ok (map sentiment (sort_values trends))
              (Nat.min 5 (length (sort_values trends) - 1) + 1))
    as [past ->]; [rewrite length_map; lia|].
  cbn [pybind]. eexists. reflexivity.
Qed.

End MomentumFacts.

(** C8: below five samples the momentum calculator returns the explicit
    insufficient-data dict, as a value; from five samples on it returns
    the indicators; and for no sample list does its body raise, so the
    [except] branch is never needed. *)
Theorem C8_momentum_sentinel_and_total :
  forall (num : Type) (N : Numeric num) (trends : list (Sample num)),
    ((length trends < 5)%nat ->
       calculate_momentum_body trends = Ok insufficient_momentum /\
       calculate_momentum trends
       = MomentumError "Insufficient data for momentum calculation") /\
    ((5 <= length trends)%nat ->
       exists m, calculate_momentum_body trends = Ok (MomentumValues m) /\
                 calculate_momentum trends = MomentumValues m) /\
    (exists d, calculate_momentum_body trends = Ok d /\
               calculate_momentum trends = d).
Proof.
  intros num N trends.
  assert (forall d, calculate_momentum_body trends = Ok d ->
                    calculate_momentum trends = d) as R.
  { intros d E. unfold calculate_momentum. now rewrite E. }
  split; [|split].
  - intros L. pose proof (momentum_short trends L) as E. split; [exact E|].
    exact (R _ E).
  - intros L. destruct (momentum_long trends L) as [m E].
    exists m. split; [exact E|exact (R _ E)].
  - destruct (Nat.lt_ge_cases (length trends) 5) as [L|L].
    + pose proof (momentum_short trends L) as E. eexists; split; [exact E|exact (R _ E)].
    + destruct (momentum_long trends L) as [m E].
      eexists; split; [exact E|exact (R _ E)].
Qed.

(** ** Sums, means and deviations over the reals *)

Module SeriesReal.
Import RealNum RealFacts.
Local Open Scope R_scope.

Ltac real_ops :=
  cbn [of_Z of_Q nadd nsub nmul ndiv nabs nsqrt neqb nltb nleb real_numeric] in *.

Lemma fold_left_Rplus (l : list R) : forall a,
  fold_left Rplus l a = a + fold_left Rplus l 0.
Proof.
  induction l as [|x l IH]; intros a; simpl; [lra|].
  rewrite (IH (a + x)), (IH (0 + x)). lra.
Qed.

Lemma nsum_nil : nsum (num := R) [] = 0.
Proof. reflexivity. Qed.

Lemma nsum_cons (x : R) l : nsum (x :: l) = x + nsum l.
Proof.
  unfold nsum. real_ops. simpl. rewrite fold_left_Rplus. lra.
Qed.

Lemma nsum_map_scale {A} (f : A -> R) (c : R) l :
  nsum (map (fun a => c * f a) l) = c * nsum (map f l).
Proof.
  induction l as [|a l IH]; simpl.
  - rewrite nsum_nil. lra.
  - rewrite !nsum_cons, IH. lra.
Qed.

Lemma nsum_map_affine (c b : R) (l : list R) :
  nsum (map (fun a => c + b * a) l) = INR (length l) * c + b * nsum l.
Proof.
  induction l as [|a l IH].
  - simpl. rewrite nsum_nil. lra.
  - cbn [map]. rewrite !nsum_cons, IH. rewrite length_cons, S_INR. lra.
Qed.

Lemma nsum_squares_nonneg {A} (f : A -> R) l :
  0 <= nsum (map (fun a => f a * f a) l).
Proof.
  induction l as [|a l IH]; simpl.
  - rewrite nsum_nil. lra.
  - rewrite nsum_cons. nra.
Qed.

(** A sum of squares is zero only if every term is. *)
Lemma nsum_squares_zero {A} (f : A -> R) l :
  nsum (map (fun a => f a * f a) l) = 0 -> Forall (fun a => f a = 0) l.
Proof.
  induction l as [|a l IH]; simpl; intros E; [constructor|].
  rewrite nsum_cons in E.
  pose proof (nsum_squares_nonneg f l) as P.
  assert (f a * f a = 0) as Z by nra.
  constructor; [nra|]. apply IH. lra.
Qed.

Lemma of_nat_INR (n : nat) : IZR (Z.of_nat n) = INR n.
Proof. now rewrite INR_IZR_INZ. Qed.

Lemma mean_affine (c b : R) (l : list R) :
  l <> [] -> mean (map (fun a => c + b * a) l) = c + b * mean l.
Proof.
  intros NE. unfold mean. real_ops.
  rewrite length_map, nsum_map_affine, of_nat_INR.
  assert (0 < INR (length l)) as P.
  { apply lt_0_INR. destruct l; [contradiction|simpl; lia]. }
  field. lra.
Qed.

End SeriesReal.

(** ** Sorting a series that is already in time order *)

Section SortFacts.
Context {num : Type} `{Numeric num}.

(** Strictly increasing timestamps. *)
Definition ascending (l : list (Sample num)) : Prop :=
  StronglySorted (fun a b => (timestamp a < timestamp b)%Z) l.

Lemma insert_sample_last (s : Sample num) acc :
  Forall (fun a => (timestamp a < timestamp s)%Z) acc ->
  insert_sample s acc = acc ++ [s].
Proof.
  induction 1 as [|a acc Ha _ IH]; simpl; [reflexivity|].
  destruct (Z.ltb_spec (timestamp s) (timestamp a)); [lia|].
  now rewrite IH.
Qed.

Lemma ascending_app_before acc (s : Sample num) l :
  ascending (acc ++ s :: l) ->
  Forall (fun a => (timestamp a < timestamp s)%Z) acc.
Proof.
  induction acc as [|a acc IH]; simpl; intros S; [constructor|].
  apply StronglySorted_inv in S. destruct S as [S F].
  constructor; [|now apply IH].
  rewrite List.Forall_forall in F. apply F.
  apply in_or_app. right. now left.
Qed.

Lemma sort_fold_ascending (l : list (Sample num)) : forall acc,
  ascending (acc ++ l) ->
  fold_left (fun acc s => insert_sample s acc) l acc = acc ++ l.
Proof.
  induction l as [|s l IH]; intros acc S; simpl.
  - now rewrite app_nil_r.
  - rewrite (insert_sample_last s acc) by (now apply ascending_app_before with l).
    rewrite IH; rewrite <- app_assoc; [reflexivity|exact S].
Qed.

(** Sorting leaves a series in time order as it is. *)
Lemma sort_values_ascending (l : list (Sample num)) :
  ascending l -> sort_values l = l.
Proof. intros S. unfold sort_values. now rewrite sort_fold_ascending. Qed.

Lemma fold_min_head (l : list Z) (t0 : Z) :
  Forall (fun t => (t0 <= t)%Z) l -> fold_left Z.min l t0 = t0.
Proof.
  induction 1 as [|t l Ht _ IH]; simpl; [reflexivity|].
  now rewrite Z.min_l.
Qed.

Lemma list_min_ascending (s0 : Sample num) l :
  ascending (s0 :: l) -> list_min (map timestamp (s0 :: l)) = timestamp s0.
Proof.
  intros S. apply StronglySorted_inv in S. destruct S as [_ F].
  simpl. apply fold_min_head.
  rewrite List.Forall_forall in *. intros t Ht.
  apply in_map_iff in Ht. destruct Ht as (s & <- & Hs).
  specialize (F s Hs). lia.
Qed.

End SortFacts.

(** ** Trend analysis over the reals *)

Module TrendReal.
Import RealNum RealFacts SeriesReal.
Local Open Scope R_scope.

Lemma Q2R_zero : Q2R 0.0 = 0.
Proof. unfold Q2R. simpl. lra. Qed.

Lemma Q2R_neg_one : Q2R (-1.0) = -1.
Proof. unfold Q2R. simpl. lra. Qed.

Lemma Q2R_milli : Q2R 0.001 = 1 / 1000.
Proof. unfold Q2R. simpl. lra. Qed.

Lemma num_max_ge (l : list R) : forall d,
  d <= num_max l d /\ Forall (fun x => x <= num_max l d) l.
Proof.
  unfold num_max. induction l as [|x l IH]; intros d; cbn [fold_left].
  - split; [lra|constructor].
  - destruct (nltb d x) eqn:L.
    + apply Rltb_true in L.
      destruct (IH x) as [Hx F]. split; [lra|]. now constructor.
    + apply Rltb_false in L.
      destruct (IH d) as [Hd F]. split; [lra|]. constructor; [lra|assumption].
Qed.

Lemma num_min_le (l : list R) : forall d,
  num_min l d <= d /\ Forall (fun x => num_min l d <= x) l.
Proof.
  unfold num_min. induction l as [|x l IH]; intros d; cbn [fold_left].
  - split; [lra|constructor].
  - destruct (nltb x d) eqn:L.
    + apply Rltb_true in L.
      destruct (IH x) as [Hx F]. split; [lra|]. now constructor.
    + apply Rltb_false in L.
      destruct (IH d) as [Hd F]. split; [lra|]. constructor; [lra|assumption].
Qed.

(** Two different values in a list: its maximum is not its minimum. *)
Lemma max_neq_min (l : list R) (d a b : R) :
  In a l -> In b l -> a < b -> num_max l d <> num_min l d.
Proof.
  intros Ha Hb L.
  destruct (num_max_ge l d) as [_ Fmax].
  destruct (num_min_le l d) as [_ Fmin].
  rewrite List.Forall_forall in Fmax, Fmin.
  specialize (Fmax b Hb). specialize (Fmin a Ha). lra.
Qed.

(** Two different values in a list: the squared deviations from any
    centre sum to something positive. *)
Lemma sq_dev_positive (l : list R) (m a b : R) :
  In a l -> In b l -> a < b ->
  0 < nsum (map (fun x => (x - m) * (x - m)) l).
Proof.
  intros Ha Hb L.
  pose proof (nsum_squares_nonneg (fun x => x - m) l) as P.
  destruct (Req_dec_T (nsum (map (fun x => (x - m) * (x - m)) l)) 0) as [E|E];
    [|lra].
  apply (nsum_squares_zero (fun x => x - m)) in E.
  rewrite List.Forall_forall in E.
  pose proof (E a Ha). pose proof (E b Hb). lra.
Qed.

Lemma combine_map_r {A B} (f : A -> B) (l : list A) :
  combine l (map f l) = map (fun a => (a, f a)) l.
Proof. induction l as [|a l IH]; simpl; [reflexivity|now rewrite IH]. Qed.

(** Least squares on points of the line [y = c + b x] with [b > 0]: the
    slope is [b] and the correlation is 1. *)
Lemma linregress_line (x : list R) (c b a1 a2 : R) :
  In a1 x -> In a2 x -> a1 < a2 -> 0 < b ->
  exists lr,
    linregress x (map (fun a => c + b * a) x) = Ok lr
    /\ slope lr = b /\ rvalue lr = 1.
Proof.
  intros H1 H2 L Hb.
  unfold linregress.
  destruct x as [|x0 x'] eqn:Ex; [contradiction|].
  cbv beta iota. rewrite <- Ex in *.
  assert (x <> []) as NE by (rewrite Ex; discriminate).
  pose proof (max_neq_min x x0 a1 a2 H1 H2 L) as MM.
  apply Reqb_false in MM.
  cbn [neqb real_numeric]. rewrite MM. cbn [andb].
  rewrite mean_affine by assumption.
  rewrite combine_map_r, !map_map. cbn [fst snd].
  set (xm := mean x).
  set (n := of_Z (Z.of_nat (length x))).
  assert (0 < n) as Hn.
  { unfold n. cbn [of_Z real_numeric]. rewrite of_nat_INR.
    apply lt_0_INR. rewrite Ex. simpl. lia. }
  set (Sxx := nsum (map (fun a => (a - xm)%num * (a - xm)%num) x)).
  assert (0 < Sxx) as HS by (apply (sq_dev_positive x xm a1 a2); assumption).
  assert (nsum (map (fun a => (a - xm)%num * (c + b * a - (c + b * xm))%num) x)
          = b * Sxx) as Exy.
  { unfold Sxx. rewrite <- (nsum_map_scale (fun a => (a - xm) * (a - xm)) b).
    f_equal. apply map_ext. intros a. real_ops. ring. }
  assert (nsum (map (fun a => (c + b * a - (c + b * xm))%num
                              * (c + b * a - (c + b * xm))%num) x)
          = b * b * Sxx) as Eyy.
  { unfold Sxx.
    rewrite <- (nsum_map_scale (fun a => (a - xm) * (a - xm)) (b * b)).
    f_equal. apply map_ext. intros a. real_ops. ring. }
  real_ops. rewrite Exy, Eyy.
  eexists. split; [reflexivity|].
  cbn [slope rvalue].
  change (nsum (map (fun a : R => (a - xm) * (a - xm)) x)) with Sxx.
  split; [field; lra|].
  rewrite Q2R_zero, Q2R_one, Q2R_neg_one.
  assert (Sxx / n <> 0) as Q1 by (apply Rgt_not_eq; apply Rdiv_lt_0_compat; lra).
  assert (b * b * Sxx / n <> 0) as Q2.
  { apply Rgt_not_eq. apply Rdiv_lt_0_compat; [|lra].
    repeat apply Rmult_lt_0_compat; lra. }
  assert (0 < b * Sxx) as HbS by (apply Rmult_lt_0_compat; lra).
  apply Reqb_false in Q1, Q2. rewrite Q1, Q2. cbn [orb].
  assert (R_sqrt.sqrt (Sxx / n * (b * b * Sxx / n)) = b * Sxx / n) as Esq.
  { apply sqrt_lem_1.
    - apply Rlt_le. apply Rmult_lt_0_compat; apply Rdiv_lt_0_compat;
        try lra. repeat apply Rmult_lt_0_compat; lra.
    - apply Rlt_le. apply Rdiv_lt_0_compat; lra.
    - field. lra. }
  rewrite Esq.
  assert (b * Sxx / n / (b * Sxx / n) = 1) as E1.
  { field. repeat split; lra. }
  rewrite E1. unfold gtb. cbn [nltb real_numeric].
  assert (Rltb 1 1 = false) as F1 by (apply Rltb_false; lra).
  assert (Rltb 1 (-1) = false) as F2 by (apply Rltb_false; lra).
  now rewrite F1, F2.
Qed.

Lemma iloc_neg_last {A} (l : list A) (d : A) :
  l <> [] -> iloc_neg l 1 = Ok (List.last l d).
Proof.
  intros NE. unfold iloc_neg.
  destruct l as [|a l]; [contradiction|].
  cbn [length Nat.leb andb].
  replace (S (length l) - 1)%nat with (length l) by lia.
  clear NE. revert a. induction l as [|b l IH]; intros a; [reflexivity|].
  cbn [length nth_error]. rewrite IH. reflexivity.
Qed.

Lemma last_of_map {A B} (f : A -> B) (l : list A) (d : A) :
  List.last (map f l) (f d) = f (List.last l d).
Proof.
  induction l as [|a l IH]; [reflexivity|].
  destruct l as [|b l]; [reflexivity|]. exact IH.
Qed.

(** A sample lies on the line through [s0] with slope [b] per hour. *)
Definition on_line (s0 : Sample R) (b : R) (s : Sample R) : Prop :=
  sentiment s = sentiment s0 + b * hours_since (timestamp s0) (timestamp s).

Lemma hours_since_self (t : Z) : hours_since (num := R) t t = 0.
Proof.
  unfold hours_since. real_ops. rewrite Z.sub_diag. lra.
Qed.

Lemma hours_since_pos (t0 t : Z) : (t0 < t)%Z -> 0 < hours_since (num := R) t0 t.
Proof.
  intros L. unfold hours_since. real_ops.
  assert (0 < IZR (t - t0)) by (apply IZR_lt; lia).
  lra.
Qed.

(** What trend analysis computes on three or more samples in time order
    that lie on a rising line. *)
Lemma analyze_trends_line kw hours (s0 s1 : Sample R) rest (b : R) :
  let trends := s0 :: s1 :: rest in
  (3 <= length trends)%nat ->
  ascending trends ->
  Forall (on_line s0 b) trends ->
  0 < b ->
  exists t,
    analyze_trends_body kw hours trends = Ok t /\
    trend_direction t = (if Rltb b (1 / 1000) then stable else improving) /\
    trend_strength t = 1 /\
    r_squared t = 1 /\
    sentiment_change t = sentiment (List.last trends s0) - sentiment s0 /\
    data_points t = length trends.
Proof.
  intros trends L3 Asc Line Hb.
  unfold analyze_trends_body.
  destruct (Nat.ltb_spec (length trends) 3); [lia|].
  rewrite (sort_values_ascending trends Asc).
  unfold trends at 1. rewrite (list_min_ascending s0 (s1 :: rest) Asc).
  fold trends.
  set (x := map (fun s => hours_since (timestamp s0) (timestamp s)) trends).
  assert (map sentiment trends
          = map (fun a => sentiment s0 + b * a) x) as Ey.
  { unfold x. rewrite map_map. apply map_ext_in. intros s Hs.
    rewrite List.Forall_forall in Line. exact (Line s Hs). }
  rewrite Ey.
  assert (timestamp s0 < timestamp s1)%Z as T01.
  { apply StronglySorted_inv in Asc. destruct Asc as [_ F].
    apply Forall_inv in F. exact F. }
  destruct (linregress_line x (sentiment s0) b
              (hours_since (timestamp s0) (timestamp s0))
              (hours_since (timestamp s0) (timestamp s1)))
    as (lr & Elr & Esl & Erv).
  { unfold x, trends. simpl. now left. }
  { unfold x, trends. simpl. right. now left. }
  { rewrite hours_since_self. now apply hours_since_pos. }
  { exact Hb. }
  rewrite Elr. cbn [pybind]. rewrite <- Ey.
  destruct (Nat.ltb_spec 0 (length (map sentiment trends)));
    [|unfold trends in *; simpl in *; lia].
  rewrite (iloc_neg_last (map sentiment trends) (sentiment s0))
    by (unfold trends; discriminate).
  unfold trends at 3. cbn [map pybind].
  eexists. split; [reflexivity|].
  cbn [trend_direction trend_strength r_squared sentiment_change data_points].
  rewrite Esl, Erv. real_ops. unfold gtb. real_ops.
  rewrite Q2R_milli, Rabs_R1, (Rabs_pos_eq b) by lra.
  assert (Rltb 0 b = true) as P by (now apply Rltb_true).
  rewrite P.
  split; [reflexivity|]. split; [reflexivity|]. split; [lra|].
  split; [|reflexivity].
  fold trends. f_equal. apply last_of_map.
Qed.

End TrendReal.

(** ** Trend analysis: the two regimes *)

Section TrendFacts.
Context {num : Type} `{Numeric num}.

(** The record returned below three samples. *)
Definition insufficient_trend (kw : string) (hours : Z) (n : nat)
  : TrendAnalysis num :=
  {| keyword := kw; period_hours := hours;
     trend_direction := insufficient_data;
     trend_strength := of_Q 0.0; sentiment_change := of_Q 0.0;
     confidence_score := of_Q 0.0; data_points := n;
     r_squared := of_Q 0.0 |}.

Lemma analyze_trends_ok kw hours (trends : list (Sample num)) t :
  analyze_trends_body kw hours trends = Ok t ->
  analyze_trends kw hours trends = t.
Proof. intros E. unfold analyze_trends. now rewrite E. Qed.

Lemma analyze_trends_short kw hours (trends : list (Sample num)) :
  (length trends < 3)%nat ->
  analyze_trends kw hours trends
  = insufficient_trend kw hours (length trends).
Proof.
  intros L. apply analyze_trends_ok. unfold analyze_trends_body.
  destruct (Nat.ltb_spec (length trends) 3); [reflexivity|lia].
Qed.

End TrendFacts.

Module TrendExamples.
Import RealNum RealFacts SeriesReal TrendReal.
Local Open Scope R_scope.

Definition hour_us : Z := 3600000000.

Definition sample_at (h : Z) (y : R) : Sample R :=
  {| timestamp := h * hour_us; sentiment := y;
     sample_confidence := 4 / 5; model := "vader" |}.

(** Three hourly samples rising by 0.0001 per hour. *)
Definition slow_rise : list (Sample R) :=
  [sample_at 0 (1000 / 10000); sample_at 1 (1001 / 10000);
   sample_at 2 (1002 / 10000)].

(** The spec's scenario: ten hourly samples 0.1, 0.2, ..., 1.0. *)
Definition ten_rising : list (Sample R) :=
  [sample_at 0 (1 / 10); sample_at 1 (2 / 10); sample_at 2 (3 / 10);
   sample_at 3 (4 / 10); sample_at 4 (5 / 10); sample_at 5 (6 / 10);
   sample_at 6 (7 / 10); sample_at 7 (8 / 10); sample_at 8 (9 / 10);
   sample_at 9 (10 / 10)].

Ltac eval_IZR :=
  repeat match goal with
         | |- context [IZR (?a - ?b)] =>
             let v := eval vm_compute in (a - b)%Z in
             change (a - b)%Z with v
         end.

Ltac on_line_list :=
  repeat constructor; unfold on_line, hours_since, sample_at, hour_us;
  cbn [timestamp sentiment]; real_ops; eval_IZR; lra.

Ltac ascending_list :=
  unfold ascending; repeat constructor;
  unfold sample_at, hour_us; cbn [timestamp]; lia.

Lemma slow_rise_on_line :
  Forall (on_line (sample_at 0 (1000 / 10000)) (1 / 10000)) slow_rise.
Proof. on_line_list. Qed.

Lemma slow_rise_ascending : ascending slow_rise.
Proof. ascending_list. Qed.

Lemma ten_rising_on_line :
  Forall (on_line (sample_at 0 (1 / 10)) (1 / 10)) ten_rising.
Proof. on_line_list. Qed.

Lemma ten_rising_ascending : ascending ten_rising.
Proof. ascending_list. Qed.

(** C7 as stated fails: a perfectly linear, strictly increasing series of
    three samples in time order whose slope is below 0.001 per hour is
    classified [stable], not [improving] (the guard of line 85). *)
Lemma C7_counterexample_slow_rise :
  (3 <= length slow_rise)%nat /\
  ascending slow_rise /\
  Forall (on_line (sample_at 0 (1000 / 10000)) (1 / 10000)) slow_rise /\
  StronglySorted Rlt (map sentiment slow_rise) /\
  trend_direction (analyze_trends "k" 24 slow_rise) = stable /\
  trend_direction (analyze_trends "k" 24 slow_rise) <> improving.
Proof.
  split; [simpl; lia|].
  split; [exact slow_rise_ascending|].
  split; [exact slow_rise_on_line|].
  split.
  { unfold slow_rise, sample_at. cbn [map sentiment].
    repeat constructor; lra. }
  destruct (analyze_trends_line "k" 24 (sample_at 0 (1000 / 10000))
              (sample_at 1 (1001 / 10000)) [sample_at 2 (1002 / 10000)]
              (1 / 10000))
    as (t & Et & Ed & _).
  - simpl. lia.
  - exact slow_rise_ascending.
  - exact slow_rise_on_line.
  - lra.
  - fold slow_rise in Et. rewrite (analyze_trends_ok _ _ _ _ Et), Ed.
    assert (Rltb (1 / 10000) (1 / 1000) = true) as -> by (apply Rltb_true; lra).
    split; [reflexivity|discriminate].
Qed.

End TrendExamples.

(** C7, amended: below three samples trend analysis returns the
    insufficient-data record with strength, change, confidence and
    r_squared all 0; for three or more samples in time order on a line
    rising by [b] per hour it returns, without rounding, r_squared = 1,
    strength = 1 and change = last sentiment - first sentiment, with
    direction [improving] when [b >= 0.001] and [stable] when
    [b < 0.001]. *)
Theorem C7_trend_insufficient_or_linear :
  (forall (num : Type) (N : Numeric num) kw hours (trends : list (Sample num)),
      (length trends < 3)%nat ->
      analyze_trends kw hours trends
      = {| keyword := kw; period_hours := hours;
           trend_direction := insufficient_data;
           trend_strength := of_Q 0.0; sentiment_change := of_Q 0.0;
           confidence_score := of_Q 0.0; data_points := length trends;
           r_squared := of_Q 0.0 |}) /\
  (forall kw hours (s0 s1 : Sample R) rest (b : R),
      let trends := s0 :: s1 :: rest in
      (3 <= length trends)%nat ->
      ascending trends ->
      Forall (TrendReal.on_line s0 b) trends ->
      (0 < b)%R ->
      trend_direction (analyze_trends kw hours trends)
        = (if RealNum.Rltb b (1 / 1000) then stable else improving) /\
      ((1 / 1000 <= b)%R ->
         trend_direction (analyze_trends kw hours trends) = improving) /\
      r_squared (analyze_trends kw hours trends) = 1%R /\
      trend_strength (analyze_trends kw hours trends) = 1%R /\
      sentiment_change (analyze_trends kw hours trends)
        = (sentiment (List.last trends s0) - sentiment s0)%R /\
      data_points (analyze_trends kw hours trends) = length trends).
Proof.
  split.
  - intros num N kw hours trends L. now apply analyze_trends_short.
  - intros kw hours s0 s1 rest b trends L3 Asc Line Hb.
    destruct (TrendReal.analyze_trends_line kw hours s0 s1 rest b L3 Asc Line Hb)
      as (t & Et & Ed & Es & Er & Ec & En).
    fold trends in Et. rewrite (analyze_trends_ok _ _ _ _ Et).
    repeat split; try assumption.
    intros Hb'. rewrite Ed.
    assert (RealNum.Rltb b (1 / 1000) = false) as ->
      by (apply RealFacts.Rltb_false; exact Hb').
    reflexivity.
Qed.

(** The spec's scenario, from C7: ten hourly samples 0.1 .. 1.0 are
    [improving] with change 0.9. *)
Lemma C7_ten_rising_witness :
  trend_direction (analyze_trends "k" 24 TrendExamples.ten_rising) = improving /\
  r_squared (analyze_trends "k" 24 TrendExamples.ten_rising) = 1%R /\
  sentiment_change (analyze_trends "k" 24 TrendExamples.ten_rising)
  = (10 / 10 - 1 / 10)%R.
Proof.
  destruct (proj2 C7_trend_insufficient_or_linear "k" 24%Z
              (TrendExamples.sample_at 0 (1 / 10))
              (TrendExamples.sample_at 1 (2 / 10))
              (List.tl (List.tl TrendExamples.ten_rising)) (1 / 10)%R)
    as (_ & Ed & Er & _ & Ec & _).
  - simpl. lia.
  - exact TrendExamples.ten_rising_ascending.
  - exact TrendExamples.ten_rising_on_line.
  - lra.
  - split; [apply Ed; lra|]. split; [exact Er|]. exact Ec.
Defined.

(** ** Anomaly detection: rows whose rolling deviation is zero *)

Section AnomalyRows.
Context {num : Type} `{Numeric num}.
Local Open Scope num_scope.

(** The z-score as the spec words it: 0 when the rolling deviation is 0,
    the quotient otherwise. *)
Definition z_score_spec (x : num) (m sd : nan_or num) : ZScore num :=
  match m, sd with
  | Some m, Some sd =>
      if sd =? of_Z 0 then ZFin (of_Z 0) else ZFin ((x - m) / sd)
  | _, _ => ZNaN
  end.

Definition make_row_spec (s : Sample num) (ms : nan_or num * nan_or num)
  : Row num :=
  {| row_sample := s; row_rolling_mean := fst ms; row_rolling_std := snd ms;
     row_z_score := z_score_spec (sentiment s) (fst ms) (snd ms) |}.

(** [detect_anomalies] with the spec's guarded z-score. *)
Definition detect_anomalies_spec (trends : list (Sample num))
  : list (Anomaly num) :=
  if (length trends <? 20)%nat then []
  else
    let df := sort_values trends in
    let window := Nat.min 10 (length df / 2) in
    let s := map sentiment df in
    map make_anomaly
      (List.filter is_anomaly
         (map (fun p => make_row_spec (fst p) (snd p))
            (combine df (combine (rolling_mean window s)
                                 (rolling_std window s))))).

(** The division of line 234 is unguarded: with a deviation of 0 in the
    denominator, a sample above its rolling mean gets an infinite z-score
    and is flagged. *)
Lemma unguarded_division_flags (s : Sample num) (m sd : num) :
  (sd =? of_Z 0) = true ->
  (of_Z 0 <? sentiment s - m) = true ->
  row_z_score (make_row s (Some m, Some sd)) = ZInf false /\
  is_anomaly (make_row s (Some m, Some sd)) = true.
Proof.
  intros Hsd Hd. unfold is_anomaly, make_row, np_div, nan_sub.
  cbn [row_z_score fst snd]. rewrite Hsd, Hd. split; reflexivity.
Qed.

(** Row [i] of the frame: the sample with the two rolling statistics of
    the window that ends at it. *)
Definition stats_at (w : nat) (s : list num) (i : nat)
  : nan_or num * nan_or num :=
  (if (w <=? i + 1)%nat then Some (mean (window_at w i s)) else None,
   if (w <=? i + 1)%nat then std (window_at w i s) else None).

Lemma combine_map_seq {A B} (f : nat -> A) (g : nat -> B) (l : list nat) :
  combine (map f l) (map g l) = map (fun i => (f i, g i)) l.
Proof. induction l as [|i l IH]; simpl; [reflexivity|now rewrite IH]. Qed.

Lemma map_nth_seq {A} (l : list A) (d : A) :
  map (fun i => nth i l d) (seq 0 (length l)) = l.
Proof.
  apply nth_ext with (d := d) (d' := d).
  - now rewrite length_map, length_seq.
  - intros i Hi. rewrite length_map, length_seq in Hi.
    rewrite (nth_indep _ d (nth 0 l d)) by (now rewrite length_map, length_seq).
    rewrite (map_nth (fun i => nth i l d)), seq_nth by assumption.
    reflexivity.
Qed.

(** The frame, row by row. *)
Lemma frame_rows (df : list (Sample num)) (w : nat) (d : Sample num) :
  combine df (combine (rolling_mean w (map sentiment df))
                      (rolling_std w (map sentiment df)))
  = map (fun i => (nth i df d, stats_at w (map sentiment df) i))
        (seq 0 (length df)).
Proof.
  unfold rolling_mean, rolling_std, rolling.
  rewrite length_map, combine_map_seq.
  rewrite <- (map_nth_seq df d) at 1.
  rewrite combine_map_seq. reflexivity.
Qed.

(** The sample a window ends at is in the window. *)
Lemma window_contains_last (w i : nat) (l : list num) (d : num) :
  (1 <= w)%nat -> (w <= i + 1)%nat -> (i < length l)%nat ->
  In (nth i l d) (window_at w i l).
Proof.
  intros W1 Wi Il. unfold window_at.
  replace (nth i l d)
    with (nth (w - 1) (firstn w (skipn (i + 1 - w) l)) d).
  - apply nth_In. rewrite length_firstn, length_skipn. lia.
  - rewrite nth_firstn.
    destruct (Nat.ltb_spec (w - 1) w); [|lia].
    rewrite nth_skipn. f_equal. lia.
Qed.

End AnomalyRows.

Module AnomalyReal.
Import RealNum RealFacts SeriesReal.
Local Open Scope R_scope.

(** A window whose sample deviation is 0 holds its mean only. *)
Lemma std_zero_all_mean (win : list R) :
  std win = Some 0 -> Forall (fun x => x = mean win) win.
Proof.
  unfold std. destruct (Nat.ltb_spec (length win) 2) as [L|L]; [discriminate|].
  intros E. injection E as E. real_ops.
  assert (0 < IZR (Z.of_nat (length win - 1))) as P.
  { rewrite of_nat_INR. apply lt_0_INR. lia. }
  pose proof (nsum_squares_nonneg (fun x => x - mean win) win) as NN.
  assert (sq_dev win = nsum (map (fun x => (x - mean win) * (x - mean win)) win))
    as ES by reflexivity.
  pose proof (Rinv_0_lt_compat _ P) as PI.
  apply sqrt_eq_0 in E;
    [|rewrite ES; unfold Rdiv; apply Rmult_le_pos; lra].
  assert (sq_dev win = 0) as Z.
  { unfold Rdiv in E. apply Rmult_integral in E. destruct E as [E|E]; [exact E|].
    lra. }
  rewrite ES in Z. apply (nsum_squares_zero (fun x => x - mean win)) in Z.
  rewrite List.Forall_forall in *. intros x Hx. specialize (Z x Hx). lra.
Qed.

(** Row [i] with a rolling deviation of 0: its sentiment is its rolling
    mean, so the unguarded division is [0 / 0]. *)
Lemma zero_std_row (w : nat) (s : list R) (i : nat) :
  (i < length s)%nat ->
  snd (stats_at w s i) = Some 0 ->
  fst (stats_at w s i) = Some (nth i s 0).
Proof.
  intros Il. unfold stats_at. cbn [fst snd].
  destruct (Nat.leb_spec w (i + 1)) as [Wi|Wi]; [|discriminate].
  intros E. f_equal. symmetry.
  pose proof (std_zero_all_mean _ E) as F.
  rewrite List.Forall_forall in F. apply F.
  apply window_contains_last; try assumption.
  unfold std in E.
  destruct (Nat.ltb_spec (length (window_at w i s)) 2) as [L|L]; [discriminate|].
  unfold window_at in L. rewrite length_firstn in L. lia.
Qed.

(** On a row of the frame the code's z-score and the spec's guarded one
    flag the same, and agree whenever they flag. *)
Lemma row_agrees_with_spec (w : nat) (df : list (Sample R)) (d : Sample R) (i : nat) :
  (i < length df)%nat ->
  let p := (nth i df d, stats_at w (map sentiment df) i) in
  (is_anomaly (make_row (fst p) (snd p)) = false /\
   is_anomaly (make_row_spec (fst p) (snd p)) = false)
  \/ make_row (fst p) (snd p) = make_row_spec (fst p) (snd p).
Proof.
  intros Il p. unfold p. cbn [fst snd].
  pose proof (zero_std_row w (map sentiment df) i) as Z.
  rewrite length_map in Z. specialize (Z Il).
  rewrite (nth_indep _ 0 (sentiment d)) in Z by (now rewrite length_map).
  rewrite (map_nth sentiment) in Z.
  unfold make_row, make_row_spec, is_anomaly, np_div, nan_sub, z_score_spec.
  cbn [row_z_score fst snd].
  destruct (stats_at w (map sentiment df) i) as [[m|] [sd|]];
    cbn [fst snd] in *; try (left; split; reflexivity).
  destruct (sd =? of_Z 0)%num eqn:E.
  - left. apply Reqb_true in E. real_ops. subst sd.
    specialize (Z eq_refl). injection Z as ->.
    rewrite Rminus_diag.
    assert (Rltb 0 0 = false) as -> by (apply Rltb_false; lra).
    cbn [z_abs_gt]. split; [reflexivity|].
    unfold gtb. real_ops. rewrite Rabs_R0. apply Rltb_false. lra.
  - right. reflexivity.
Qed.

Lemma filter_rows_agree (w : nat) (df : list (Sample R)) (d : Sample R) (l : list nat) :
  Forall (fun i => (i < length df)%nat) l ->
  List.filter is_anomaly
    (map (fun p => make_row (fst p) (snd p))
       (map (fun i => (nth i df d, stats_at w (map sentiment df) i)) l))
  = List.filter is_anomaly
      (map (fun p => make_row_spec (fst p) (snd p))
         (map (fun i => (nth i df d, stats_at w (map sentiment df) i)) l)).
Proof.
  induction 1 as [|i l Hi _ IH]; [reflexivity|].
  cbn [map List.filter].
  destruct (row_agrees_with_spec w df d i Hi) as [[E1 E2]|E].
  - cbv zeta in E1, E2. rewrite E1, E2. exact IH.
  - cbv zeta in E. rewrite E, IH. reflexivity.
Qed.

(** The code's anomaly list is the one of the spec's guarded z-score. *)
Lemma detect_anomalies_meets_spec (trends : list (Sample R)) :
  detect_anomalies trends = detect_anomalies_spec trends.
Proof.
  unfold detect_anomalies, detect_anomalies_spec, anomaly_rows.
  destruct (length trends <? 20)%nat; [reflexivity|].
  cbv zeta. f_equal.
  destruct (sort_values trends) as [|d df'] eqn:E; [reflexivity|].
  rewrite <- E.
  rewrite (frame_rows (sort_values trends) _ d).
  apply filter_rows_agree.
  rewrite List.Forall_forall. intros i Hi. apply in_seq in Hi. lia.
Qed.

(** A row of the frame with rolling deviation 0 is not flagged, and its
    z-score is the NaN of [0 / 0], not an exception. *)
Lemma zero_std_not_flagged (trends : list (Sample R)) (r : Row R) :
  In r (anomaly_rows trends) ->
  row_rolling_std r = Some 0 ->
  row_z_score r = ZNaN /\ is_anomaly r = false.
Proof.
  unfold anomaly_rows. cbv zeta.
  destruct (sort_values trends) as [|d df'] eqn:E; [simpl; contradiction|].
  rewrite <- E. set (df := sort_values trends).
  rewrite (frame_rows df _ d), map_map.
  intros Hr Hsd. apply in_map_iff in Hr. destruct Hr as (i & <- & Hi).
  apply in_seq in Hi. cbn [fst snd] in *.
  assert (i < length df)%nat as Il by lia.
  cbn [row_rolling_std make_row snd] in Hsd.
  pose proof (zero_std_row (Nat.min 10 (length df / 2)) (map sentiment df) i)
    as Z.
  rewrite length_map in Z. specialize (Z Il Hsd).
  rewrite (nth_indep _ 0 (sentiment d)) in Z by (now rewrite length_map).
  rewrite (map_nth sentiment) in Z.
  unfold is_anomaly, make_row. cbn [row_z_score].
  rewrite Z, Hsd. unfold nan_sub, np_div. real_ops.
  rewrite Rminus_diag.
  assert (Reqb 0 0 = true) as -> by (now apply Reqb_true).
  assert (Rltb 0 0 = false) as -> by (apply Rltb_false; lra).
  split; reflexivity.
Qed.

Lemma nsum_map_repeat (f : R -> R) (c : R) (n : nat) :
  nsum (map f (repeat c n)) = INR n * f c.
Proof.
  induction n as [|n IH].
  - simpl. rewrite nsum_nil. lra.
  - cbn [repeat map]. rewrite nsum_cons, IH, S_INR. lra.
Qed.

Lemma mean_repeat (c : R) (n : nat) : (1 <= n)%nat -> mean (repeat c n) = c.
Proof.
  intros L. unfold mean. real_ops.
  rewrite <- (map_id (repeat c n)) at 1.
  rewrite (nsum_map_repeat (fun x => x)), repeat_length, of_nat_INR.
  assert (0 < INR n) by (apply lt_0_INR; lia).
  field. lra.
Qed.

(** A constant window has sample deviation 0. *)
Lemma std_repeat (c : R) (n : nat) : (2 <= n)%nat -> std (repeat c n) = Some 0.
Proof.
  intros L. unfold std. rewrite repeat_length.
  destruct (Nat.ltb_spec n 2); [lia|]. f_equal.
  unfold sq_dev. rewrite mean_repeat by lia.
  rewrite (nsum_map_repeat (fun x => (x - c)%num * (x - c)%num)).
  real_ops. replace (INR n * ((c - c) * (c - c))) with 0 by ring.
  unfold Rdiv. rewrite Rmult_0_l. apply sqrt_0.
Qed.

(** Row [i] of the frame of a series in time order. *)
Lemma row_in_frame (trends : list (Sample R)) (d : Sample R) (i : nat) :
  ascending trends -> (i < length trends)%nat ->
  In (make_row (nth i trends d)
        (stats_at (Nat.min 10 (length trends / 2)) (map sentiment trends) i))
     (anomaly_rows trends).
Proof.
  intros Asc Il. unfold anomaly_rows. cbv zeta.
  rewrite (sort_values_ascending trends Asc).
  rewrite (frame_rows trends _ d), map_map. cbn [fst snd].
  apply in_map_iff. exists i. split; [reflexivity|].
  apply in_seq. lia.
Qed.

(** Twenty hourly samples, all 0.5. *)
Definition flat_series : list (Sample R) :=
  map (fun h => TrendExamples.sample_at h (1 / 2))
    [0; 1; 2; 3; 4; 5; 6; 7; 8; 9; 10; 11; 12; 13; 14; 15; 16; 17; 18; 19]%Z.

Definition flat_last_row : Row R :=
  make_row (TrendExamples.sample_at 19 (1 / 2))
    (stats_at 10 (map sentiment flat_series) 19).

Lemma flat_series_ascending : ascending flat_series.
Proof. TrendExamples.ascending_list. Qed.

Lemma flat_last_row_in_frame : In flat_last_row (anomaly_rows flat_series).
Proof.
  exact (row_in_frame flat_series (TrendExamples.sample_at 19 (1 / 2)) 19
           flat_series_ascending ltac:(simpl; lia)).
Qed.

Lemma window_of_constant (c : R) :
  window_at 10 19 (repeat c 20) = repeat c 10.
Proof. reflexivity. Qed.

Lemma flat_last_row_std : row_rolling_std flat_last_row = Some 0.
Proof.
  unfold flat_last_row, make_row, stats_at. cbn [row_rolling_std snd].
  change (map sentiment flat_series) with (repeat (1 / 2) 20).
  rewrite window_of_constant. cbn [Nat.leb Nat.add].
  apply std_repeat. lia.
Qed.

End AnomalyReal.

(** C4, amended: in anomaly detection over twenty or more samples,
    computed without rounding, a row whose rolling standard deviation is
    zero is divided by zero all the same; nothing is raised, its z-score is
    the NaN of [0 / 0] (its deviation from the rolling mean is zero as
    well), and it is never flagged: the list of anomalies is the one
    obtained by treating the z-score of such rows as 0. *)
Theorem C4_zero_std_never_flagged :
  forall (trends : list (Sample R)) (r : Row R),
    (20 <= length trends)%nat ->
    In r (anomaly_rows trends) ->
    row_rolling_std r = Some 0%R ->
    row_z_score r = ZNaN /\
    is_anomaly r = false /\
    ~ In r (List.filter is_anomaly (anomaly_rows trends)) /\
    detect_anomalies trends
    = map make_anomaly (List.filter is_anomaly (anomaly_rows trends)) /\
    detect_anomalies trends = detect_anomalies_spec trends.
Proof.
  intros trends r L Hr Hsd.
  destruct (AnomalyReal.zero_std_not_flagged trends r Hr Hsd) as [Ez Ef].
  split; [exact Ez|]. split; [exact Ef|]. split.
  - intros Hin. apply filter_In in Hin. destruct Hin as [_ Hin]. congruence.
  - split; [|apply AnomalyReal.detect_anomalies_meets_spec].
    unfold detect_anomalies.
    destruct (Nat.ltb_spec (length trends) 20); [lia|reflexivity].
Qed.

Lemma C4_flat_series_witness :
  row_z_score AnomalyReal.flat_last_row = ZNaN /\
  is_anomaly AnomalyReal.flat_last_row = false /\
  ~ In AnomalyReal.flat_last_row
      (List.filter is_anomaly (anomaly_rows AnomalyReal.flat_series)) /\
  detect_anomalies AnomalyReal.flat_series
  = map make_anomaly
      (List.filter is_anomaly (anomaly_rows AnomalyReal.flat_series)) /\
  detect_anomalies AnomalyReal.flat_series
  = detect_anomalies_spec AnomalyReal.flat_series.
Proof.
  apply (C4_zero_std_never_flagged AnomalyReal.flat_series
           AnomalyReal.flat_last_row).
  - simpl. lia.
  - exact AnomalyReal.flat_last_row_in_frame.
  - exact AnomalyReal.flat_last_row_std.
Defined.

(** ** The analytics in binary64, on the examples above *)

Module AnalyticsFloat.
Import FloatNum.

Definition sample_at (h : Z) (y : float) : Sample float :=
  {| timestamp := h * 3600000000; sentiment := y;
     sample_confidence := 0.8%float; model := "vader" |}.

Definition slow_rise : list (Sample float) :=
  [sample_at 0 0.1%float; sample_at 1 0.1001%float; sample_at 2 0.1002%float].

Definition ten_rising : list (Sample float) :=
  [sample_at 0 0.1%float; sample_at 1 0.2%float; sample_at 2 0.3%float;
   sample_at 3 0.4%float; sample_at 4 0.5%float; sample_at 5 0.6%float;
   sample_at 6 0.7%float; sample_at 7 0.8%float; sample_at 8 0.9%float;
   sample_at 9 1.0%float].

Definition flat_series : list (Sample float) :=
  map (fun h => sample_at h 0.5%float)
    [0; 1; 2; 3; 4; 5; 6; 7; 8; 9; 10; 11; 12; 13; 14; 15; 16; 17; 18; 19]%Z.

(** The slow rise is [stable] in binary64 as well. *)
Lemma slow_rise_is_stable :
  trend_direction (analyze_trends "k" 24 slow_rise) = stable.
Proof. vm_compute. reflexivity. Qed.

(** The spec's scenario in binary64: [improving], change 0.9. *)
Lemma ten_rising_is_improving :
  trend_direction (analyze_trends "k" 24 ten_rising) = improving /\
  sentiment_change (analyze_trends "k" 24 ten_rising) = 0.9%float /\
  data_points (analyze_trends "k" 24 ten_rising) = 10%nat.
Proof. repeat split; vm_compute; reflexivity. Qed.

Lemma momentum_of_three :
  calculate_momentum slow_rise
  = MomentumError "Insufficient data for momentum calculation".
Proof. vm_compute. reflexivity. Qed.

Lemma momentum_of_ten :
  exists m, calculate_momentum ten_rising = MomentumValues m /\
            momentum_signal m = bullish /\
            current_sentiment m = 1%float.
Proof. eexists. repeat split; vm_compute; reflexivity. Qed.

(** Twenty equal samples in binary64: every full window has deviation 0,
    every z-score is NaN, nothing is flagged. *)
Lemma flat_series_has_no_anomaly :
  detect_anomalies flat_series = [] /\
  Forall (fun r => row_z_score r = ZNaN) (anomaly_rows flat_series) /\
  row_rolling_std (List.last (anomaly_rows flat_series)
                     (make_row (sample_at 0 0%float) (None, None)))
  = Some 0%float.
Proof.
  split; [vm_compute; reflexivity|].
  split; [|vm_compute; reflexivity].
  vm_compute. repeat constructor.
Qed.

(** Nineteen samples at 0 and one at 1e-170.  With the rolling statistics
    evaluated by their defining formulas in binary64 the squared deviations
    underflow: the deviation of the last window is 0 while its mean differs
    from the last sample, so the unguarded quotient is +inf and the row is
    reported, with severity [high]. *)
Definition tiny_step : list (Sample float) :=
  map (fun h => sample_at h (if (h =? 19)%Z then 1e-170%float else 0%float))
    [0; 1; 2; 3; 4; 5; 6; 7; 8; 9; 10; 11; 12; 13; 14; 15; 16; 17; 18; 19]%Z.

Lemma underflow_reports_a_zero_deviation_row :
  option_map row_rolling_std (nth_error (anomaly_rows tiny_step) 19)
  = Some (Some 0%float) /\
  option_map row_z_score (nth_error (anomaly_rows tiny_step) 19)
  = Some (ZInf false) /\
  map (fun a => (anomaly_timestamp a, anomaly_severity a))
    (detect_anomalies tiny_step)
  = [((19 * 3600000000)%Z, high)].
Proof. repeat split; vm_compute; reflexivity. Qed.

(** C4 as stated fails: nothing guards the division by the rolling
    deviation.  On twenty equal samples the last row has a rolling
    deviation of 0 and its z-score is not 0 but the NaN of [0 / 0]. *)
Lemma C4_counterexample_nan_not_zero :
  (20 <= length flat_series)%nat /\
  option_map row_rolling_std (nth_error (anomaly_rows flat_series) 19)
  = Some (Some 0%float) /\
  option_map row_z_score (nth_error (anomaly_rows flat_series) 19)
  = Some ZNaN /\
  option_map row_z_score (nth_error (anomaly_rows flat_series) 19)
  <> Some (ZFin 0%float).
Proof.
  split; [simpl; lia|].
  split; [vm_compute; reflexivity|].
  split; [vm_compute; reflexivity|].
  vm_compute. discriminate.
Qed.

End AnalyticsFloat.

(** ** The text normalizer: characters *)

Module Normalizer.
Local Open Scope N_scope.

(** Proves that a class test is false from bounds on the code point. *)
Ltac class_false :=
  unfold is_space, url_char, emoji_char;
  repeat (apply orb_false_intro);
  first [ apply N.eqb_neq; lia
        | unfold in_range; apply andb_false_iff; rewrite !N.leb_gt; lia ].

(** Splits a class test that is true into its alternatives, as bounds. *)
Ltac class_true H :=
  unfold is_space, url_char, emoji_char in H;
  repeat (apply orb_true_iff in H; destruct H as [H|H]);
  unfold in_range in H;
  rewrite ?andb_true_iff, ?N.leb_le, ?N.eqb_eq in H.

Lemma lower_cp_idem (c : N) : lower_cp (lower_cp c) = lower_cp c.
Proof.
  unfold lower_cp, in_range.
  destruct (N.leb_spec 65 c), (N.leb_spec c 90); cbn [andb];
    repeat match goal with
           | |- context [(?a <=? ?b)%N] => destruct (N.leb_spec a b)
           end;
    cbn [andb]; try reflexivity; lia.
Qed.

Lemma lower_cp_not_emoji (c : N) :
  emoji_char c = false -> emoji_char (lower_cp c) = false.
Proof.
  unfold lower_cp, in_range at 1.
  destruct (N.leb_spec 65 c), (N.leb_spec c 90); cbn [andb]; auto.
  intros _. assert (97 <= c + 32 <= 122) as B by lia. revert B.
  generalize (c + 32). intros x B. class_false.
Qed.

Lemma lower_cp_not_backslash (c : N) : c <> 92 -> lower_cp c <> 92.
Proof.
  unfold lower_cp, in_range.
  destruct (N.leb_spec 65 c), (N.leb_spec c 90); cbn [andb]; lia.
Qed.

Lemma space_not_url (c : N) : is_space c = true -> url_char c = false.
Proof. intros S. class_true S; class_false. Qed.

(** What one pass leaves fixed: a code point that [lower] keeps. *)
Definition kept (c : N) : Prop := lower_cp c = c.

Lemma py_lower_kept (t : text) : Forall kept t -> py_lower t = t.
Proof.
  induction 1 as [|c t Hc _ IH]; [reflexivity|].
  unfold py_lower in *. cbn [map]. now rewrite Hc, IH.
Qed.

Lemma py_lower_all_kept (t : text) : Forall kept (py_lower t).
Proof.
  induction t as [|c t IH]; constructor; [apply lower_cp_idem|exact IH].
Qed.

(** ** The text normalizer: substitution *)

(** [m] matches at no position of [t]. *)
Fixpoint no_match (m : text -> nat) (t : text) : Prop :=
  match t with
  | [] => True
  | _ :: t' => m t = O /\ no_match m t'
  end.

Lemma re_sub_no_match m repl t : no_match m t -> re_sub m repl t = t.
Proof.
  unfold re_sub. induction t as [|c t IH]; [reflexivity|].
  intros [E NM]. cbn [re_sub_from]. rewrite E. now rewrite IH.
Qed.

Lemma no_match_app_r m (p t : text) : no_match m (p ++ t) -> no_match m t.
Proof.
  induction p as [|c p IH]; [trivial|]. intros [_ NM]. now apply IH.
Qed.

(** Deleting matches keeps what holds of every character. *)
Lemma re_sub_delete_Forall (P : N -> Prop) m (t : text) : forall skip,
  Forall P t -> Forall P (re_sub_from m [] skip t).
Proof.
  induction t as [|c t IH]; intros skip F; [constructor|].
  apply Forall_cons in F. destruct F as [Hc F].
  cbn [re_sub_from]. destruct skip as [|k]; [|now apply IH].
  destruct (m (c :: t)); [constructor; auto|].
  cbn [app]. now apply IH.
Qed.

Lemma re_sub_from_skip m repl (t : text) : forall k,
  re_sub_from m repl k t = re_sub_from m repl O (skipn k t).
Proof.
  induction t as [|c t IH]; intros k.
  - now rewrite skipn_nil.
  - destruct k as [|k]; [reflexivity|]. cbn [re_sub_from skipn]. apply IH.
Qed.

Lemma sigil_no_match sigil (t : text) :
  Forall (fun c => c <> 92) t -> no_match (sigil_match sigil) t.
Proof.
  induction 1 as [|a t Ha F IH]; [exact I|].
  split; [|exact IH].
  unfold sigil_match. destruct t as [|b r]; [reflexivity|].
  apply Forall_cons in F. destruct F as [Hb _].
  apply N.eqb_neq in Hb. rewrite Hb, andb_false_r. reflexivity.
Qed.

Lemma emoji_no_match (t : text) :
  Forall (fun c => emoji_char c = false) t -> no_match emoji_match t.
Proof.
  induction 1 as [|a t Ha F IH]; [exact I|].
  split; [|exact IH]. unfold emoji_match. cbn [run]. now rewrite Ha.
Qed.

(** ** The text normalizer: words *)

(** The longest prefix of characters satisfying [p], and what follows. *)
Fixpoint span_take (p : N -> bool) (t : text) : text :=
  match t with
  | c :: t' => if p c then c :: span_take p t' else []
  | [] => []
  end.

Fixpoint span_drop (p : N -> bool) (t : text) : text :=
  match t with
  | c :: t' => if p c then span_drop p t' else t
  | [] => []
  end.

Definition nonspace (c : N) : bool := negb (is_space c).

(** Nothing, or something that starts with a character failing [p]. *)
Definition stops (p : N -> bool) (t : text) : Prop :=
  match t with
  | [] => True
  | c :: _ => p c = false
  end.

Lemma span_take_drop p t : span_take p t ++ span_drop p t = t.
Proof.
  induction t as [|c t IH]; [reflexivity|]. cbn.
  destruct (p c); [cbn; now rewrite IH|reflexivity].
Qed.

Lemma span_take_all p t : Forall (fun c => p c = true) (span_take p t).
Proof.
  induction t as [|c t IH]; [constructor|]. cbn.
  destruct (p c) eqn:E; constructor; assumption.
Qed.

Lemma span_drop_stops p t : stops p (span_drop p t).
Proof.
  induction t as [|c t IH]; [exact I|]. cbn.
  destruct (p c) eqn:E; [exact IH|exact E].
Qed.

Lemma span_drop_length p t : (length (span_drop p t) <= length t)%nat.
Proof.
  induction t as [|c t IH]; [reflexivity|]. cbn.
  destruct (p c); cbn; lia.
Qed.

Lemma span_take_app p (a b : text) :
  Forall (fun c => p c = true) a -> stops p b -> span_take p (a ++ b) = a.
Proof.
  induction 1 as [|c a Hc _ IH]; intros S.
  - destruct b as [|d b]; [reflexivity|]. cbn in *. now rewrite S.
  - cbn. rewrite Hc, IH by assumption. reflexivity.
Qed.

Lemma span_drop_app p (a b : text) :
  Forall (fun c => p c = true) a -> stops p b -> span_drop p (a ++ b) = b.
Proof.
  induction 1 as [|c a Hc _ IH]; intros S.
  - destruct b as [|d b]; [reflexivity|]. cbn in *. now rewrite S.
  - cbn. rewrite Hc. now apply IH.
Qed.

(** [split] on a text that starts a word: the word, then the rest. *)
Lemma split_ws_word (c : N) (r : text) :
  is_space c = false ->
  split_ws (c :: r)
  = (c :: span_take nonspace r) :: split_ws (span_drop nonspace r).
Proof.
  revert c. induction r as [|d r IH]; intros c Hc.
  - cbn. now rewrite Hc.
  - change (split_ws (c :: d :: r))
      with (if is_space c then split_ws (d :: r)
            else if is_space d then [c] :: split_ws (d :: r)
                 else match split_ws (d :: r) with
                      | w :: ws => (c :: w) :: ws
                      | [] => [[c]]
                      end).
    rewrite Hc. cbn [span_take span_drop]. unfold nonspace.
    destruct (is_space d) eqn:Hd; cbn [negb].
    + reflexivity.
    + rewrite (IH d Hd). reflexivity.
Qed.

Lemma split_ws_space (c : N) (r : text) :
  is_space c = true -> split_ws (c :: r) = split_ws r.
Proof. intros Hc. cbn. now rewrite Hc. Qed.

(** A word: not empty, no space in it. *)
Definition word (w : text) : Prop :=
  w <> [] /\ Forall (fun c => nonspace c = true) w.

Lemma join_cons (w : text) (ws : list text) :
  ws <> [] -> join [32] (w :: ws) = w ++ 32 :: join [32] ws.
Proof. destruct ws; [contradiction|reflexivity]. Qed.

Lemma space_32 : is_space 32 = true.
Proof. reflexivity. Qed.

(** [split] undoes [join] on words. *)
Lemma split_join (ws : list text) :
  Forall word ws -> split_ws (join [32] ws) = ws.
Proof.
  induction 1 as [|w ws [NE Hw] F IH]; [reflexivity|].
  destruct w as [|c w]; [contradiction|].
  apply Forall_cons in Hw. destruct Hw as [Hc Hw].
  unfold nonspace in Hc. apply negb_true_iff in Hc.
  destruct ws as [|w' ws].
  - cbn [join]. rewrite split_ws_word by assumption.
    rewrite <- (app_nil_r w) at 1 2.
    rewrite span_take_app, span_drop_app by (assumption || exact I).
    reflexivity.
  - rewrite join_cons by discriminate. cbn [app].
    rewrite split_ws_word by assumption.
    rewrite span_take_app, span_drop_app by (assumption || reflexivity).
    rewrite split_ws_space by reflexivity.
    now rewrite IH.
Qed.

Lemma split_ws_words_fuel (n : nat) : forall t : text,
  (length t <= n)%nat -> Forall word (split_ws t).
Proof.
  induction n as [|n IH]; intros t L.
  - destruct t; [constructor|simpl in L; lia].
  - destruct t as [|c r]; [constructor|]. cbn [length] in L.
    destruct (is_space c) eqn:Hc.
    + rewrite split_ws_space by assumption. apply IH. lia.
    + rewrite split_ws_word by assumption. constructor.
      * split; [discriminate|]. constructor.
        -- unfold nonspace. now rewrite Hc.
        -- apply span_take_all.
      * apply IH. pose proof (span_drop_length nonspace r). lia.
Qed.

Lemma split_ws_words (t : text) : Forall word (split_ws t).
Proof. now apply (split_ws_words_fuel (length t)). Qed.

(** Collapsing white space is idempotent. *)
Lemma collapse_collapse (t : text) :
  collapse_whitespace (collapse_whitespace t) = collapse_whitespace t.
Proof.
  unfold collapse_whitespace. now rewrite split_join by apply split_ws_words.
Qed.

Lemma join_Forall (P : N -> Prop) (ws : list text) :
  P 32 -> Forall (Forall P) ws -> Forall P (join [32] ws).
Proof.
  intros P32. induction 1 as [|w ws Hw F IH]; [constructor|].
  destruct ws as [|w' ws]; [exact Hw|].
  rewrite join_cons by discriminate.
  apply Forall_app. split; [exact Hw|]. constructor; assumption.
Qed.

Lemma split_ws_Forall_fuel (P : N -> Prop) (n : nat) : forall t : text,
  (length t <= n)%nat -> Forall P t -> Forall (Forall P) (split_ws t).
Proof.
  induction n as [|n IH]; intros t L F.
  - destruct t; [constructor|simpl in L; lia].
  - destruct t as [|c r]; [constructor|]. cbn [length] in L.
    apply Forall_cons in F. destruct F as [Hc F].
    rewrite <- (span_take_drop nonspace r) in F.
    apply Forall_app in F. destruct F as [F1 F2].
    destruct (is_space c) eqn:Sc.
    + rewrite split_ws_space by assumption. apply IH; [lia|].
      rewrite <- (span_take_drop nonspace r). apply Forall_app. now split.
    + rewrite split_ws_word by assumption. constructor.
      * now constructor.
      * apply IH; [|assumption].
        pose proof (span_drop_length nonspace r). lia.
Qed.

(** Collapsing keeps what holds of every character and of the space. *)
Lemma collapse_Forall (P : N -> Prop) (t : text) :
  P 32 -> Forall P t -> Forall P (collapse_whitespace t).
Proof.
  intros P32 F. unfold collapse_whitespace. apply join_Forall; [exact P32|].
  now apply (split_ws_Forall_fuel P (length t)).
Qed.

(** ** The text normalizer: truncation *)

Definition dots : text := text_of_string "...".

Lemma word_dots (w : text) :
  Forall (fun c => nonspace c = true) w -> word (w ++ dots).
Proof.
  intros F. split.
  - destruct w; discriminate.
  - apply Forall_app. split; [exact F|]. repeat constructor.
Qed.

Lemma firstn_Forall {A} (P : A -> Prop) (k : nat) (l : list A) :
  Forall P l -> Forall P (firstn k l).
Proof.
  intros F. revert k. induction F as [|a l Ha _ IH]; intros k.
  - rewrite firstn_nil. constructor.
  - destruct k as [|k]; cbn [firstn]; constructor; auto.
Qed.

(** A cut of joined words, with the ellipsis, is again joined words. *)
Lemma truncated_words (ws : list text) : forall k : nat,
  Forall word ws ->
  exists ws', Forall word ws' /\
              firstn k (join [32] ws) ++ dots = join [32] ws'.
Proof.
  induction ws as [|w ws IH]; intros k F.
  - exists [dots]. split.
    + constructor; [apply (word_dots []); constructor|constructor].
    + now rewrite firstn_nil.
  - apply Forall_cons in F. destruct F as [[NE Hw] F].
    destruct ws as [|w' ws].
    + exists [firstn k w ++ dots]. split; [|reflexivity].
      constructor; [|constructor]. apply word_dots. now apply firstn_Forall.
    + rewrite join_cons by discriminate.
      destruct (Nat.le_gt_cases k (length w)) as [L|L].
      * exists [firstn k w ++ dots]. split.
        -- constructor; [|constructor]. apply word_dots.
           now apply firstn_Forall.
        -- rewrite firstn_app.
           replace (k - length w)%nat with 0%nat by lia.
           cbn [firstn join]. now rewrite app_nil_r.
      * destruct (IH (k - length w - 1)%nat F) as (ws' & F' & E).
        exists (w :: ws'). split; [constructor; [now split|exact F']|].
        assert (ws' <> []) as NE'.
        { intros ->. cbn [join] in E. destruct (firstn _ _); discriminate. }
        rewrite (join_cons w ws') by assumption. rewrite <- E.
        rewrite firstn_app, firstn_all2 by lia.
        replace (k - length w)%nat with (S (k - length w - 1)) by lia.
        cbn [firstn].
        replace (S (k - length w - 1) - 1)%nat with (k - length w - 1)%nat
          by lia.
        now rewrite <- app_assoc.
Qed.

(** Collapsing leaves a truncated, collapsed text as it is. *)
Lemma collapse_truncated (t : text) (k : nat) :
  collapse_whitespace (firstn k (collapse_whitespace t) ++ dots)
  = firstn k (collapse_whitespace t) ++ dots.
Proof.
  unfold collapse_whitespace at 2 3.
  destruct (truncated_words (split_ws t) k (split_ws_words t))
    as (ws' & F' & E).
  rewrite E. unfold collapse_whitespace. now rewrite split_join.
Qed.

(** ** The text normalizer: URLs *)

Definition is_url_char (c : N) : Prop := url_char c = true.

Lemma strip_prefix_split (pre t r : text) :
  strip_prefix pre t = Some r -> t = pre ++ r.
Proof.
  revert t. induction pre as [|a pre IH]; intros t E.
  - cbn in E. now injection E as ->.
  - destruct t as [|c t]; [discriminate|]. cbn in E.
    destruct (N.eqb_spec a c) as [->|]; [|discriminate].
    cbn. f_equal. now apply IH.
Qed.

Lemma strip_prefix_app (pre p q r : text) :
  strip_prefix pre p = Some r -> strip_prefix pre (p ++ q) = Some (r ++ q).
Proof.
  revert p. induction pre as [|a pre IH]; intros p E.
  - cbn in *. now injection E as ->.
  - destruct p as [|c p]; [discriminate|]. cbn in *.
    destruct (a =? c); [now apply IH|discriminate].
Qed.

Lemma strip_prefix_span (pre t : text) :
  Forall is_url_char pre ->
  strip_prefix pre (span_take url_char t)
  = option_map (span_take url_char) (strip_prefix pre t).
Proof.
  intros F. revert t. induction F as [|a pre Ha F IH]; intros t;
    [reflexivity|].
  destruct t as [|c t]; [reflexivity|]. cbn [span_take].
  destruct (url_char c) eqn:Hc.
  - cbn [strip_prefix]. destruct (a =? c); [apply IH|reflexivity].
  - cbn [strip_prefix].
    destruct (N.eqb_spec a c) as [->|]; [|reflexivity].
    unfold is_url_char in Ha. congruence.
Qed.

Lemma run_span p (t : text) : run p (span_take p t) = run p t.
Proof.
  induction t as [|c t IH]; [reflexivity|]. cbn.
  destruct (p c) eqn:E; [|reflexivity]. cbn. now rewrite E, IH.
Qed.

Lemma run_app_pos p (r q : text) : run p r <> O -> run p (r ++ q) <> O.
Proof.
  destruct r as [|c r]; [contradiction|]. cbn. destruct (p c); auto.
Qed.

Lemma skipn_run p (r : text) : skipn (run p r) r = span_drop p r.
Proof.
  induction r as [|c r IH]; [reflexivity|]. cbn.
  destruct (p c); [exact IH|reflexivity].
Qed.

Lemma literal_url_chars :
  Forall is_url_char (text_of_string "http") /\
  Forall is_url_char (text_of_string "s") /\
  Forall is_url_char (text_of_string "://").
Proof. repeat split; repeat constructor. Qed.

Lemma url_tail_span (t : text) : url_tail (span_take url_char t) = url_tail t.
Proof.
  unfold url_tail. rewrite strip_prefix_span by apply literal_url_chars.
  destruct (strip_prefix (text_of_string "://") t) as [r|]; [|reflexivity].
  cbn [option_map]. now rewrite run_span.
Qed.

(** Whether and how far the URL pattern matches is decided by the leading
    run of URL characters. *)
Lemma url_match_span (t : text) : url_match (span_take url_char t) = url_match t.
Proof.
  unfold url_match. rewrite strip_prefix_span by apply literal_url_chars.
  destruct (strip_prefix (text_of_string "http") t) as [r|]; [|reflexivity].
  cbn [option_map]. rewrite strip_prefix_span by apply literal_url_chars.
  destruct (strip_prefix (text_of_string "s") r) as [r'|]; cbn [option_map];
    now rewrite ?url_tail_span.
Qed.

Lemma url_tail_app_pos (r q : text) : url_tail r <> O -> url_tail (r ++ q) <> O.
Proof.
  unfold url_tail.
  destruct (strip_prefix (text_of_string "://") r) as [r'|] eqn:E;
    [|contradiction].
  rewrite (strip_prefix_app _ _ q _ E).
  intros H. pose proof (run_app_pos url_char r' q) as M.
  destruct (run url_char r'); [contradiction|].
  destruct (run url_char (r' ++ q)); [now apply M|discriminate].
Qed.

(** When the URL pattern matches. *)
Lemma url_match_pos (t : text) :
  url_match t <> O <->
  exists r, strip_prefix (text_of_string "http") t = Some r /\
            (url_tail r <> O \/
             exists r', strip_prefix (text_of_string "s") r = Some r' /\
                        url_tail r' <> O).
Proof.
  unfold url_match.
  destruct (strip_prefix (text_of_string "http") t) as [r|] eqn:E.
  - destruct (strip_prefix (text_of_string "s") r) as [r'|] eqn:Es.
    + destruct (url_tail r') eqn:T', (url_tail r) eqn:T; split;
        try (intros H; contradiction); try (intros _; discriminate).
      * intros (r0 & E0 & [H | (r1 & E1 & H)]); congruence.
      * intros _. exists r. split; [reflexivity|]. left. congruence.
      * intros _. exists r. split; [reflexivity|]. right.
        exists r'. split; [assumption|congruence].
      * intros _. exists r. split; [reflexivity|]. left. congruence.
    + destruct (url_tail r) eqn:T; split;
        try (intros H; contradiction); try (intros _; discriminate).
      * intros (r0 & E0 & [H | (r1 & E1 & H)]); congruence.
      * intros _. exists r. split; [reflexivity|]. left. congruence.
  - split; [intros H; contradiction|]. intros (r & [=] & _).
Qed.

(** A match stays a match when the text is extended. *)
Lemma url_match_app_pos (p q : text) : url_match p <> O -> url_match (p ++ q) <> O.
Proof.
  rewrite !url_match_pos. intros (r & E & H).
  exists (r ++ q). split; [now apply strip_prefix_app|].
  destruct H as [H | (r' & Es & H)].
  - left. now apply url_tail_app_pos.
  - right. exists (r' ++ q). split; [now apply strip_prefix_app|].
    now apply url_tail_app_pos.
Qed.

Lemma url_tail_skip (t : text) (k : nat) :
  url_tail t = S k -> stops url_char (skipn (S k) t).
Proof.
  unfold url_tail.
  destruct (strip_prefix (text_of_string "://") t) as [r|] eqn:E;
    [|discriminate].
  apply strip_prefix_split in E. subst t.
  destruct (run url_char r) eqn:R; [discriminate|].
  intros [= <-]. change (stops url_char (skipn (S n) r)).
  rewrite <- R, skipn_run. apply span_drop_stops.
Qed.

(** What follows a match does not start with a URL character. *)
Lemma url_match_skip (t : text) (k : nat) :
  url_match t = S k -> stops url_char (skipn (S k) t).
Proof.
  unfold url_match.
  destruct (strip_prefix (text_of_string "http") t) as [r|] eqn:E;
    [|discriminate].
  apply strip_prefix_split in E. subst t.
  destruct (strip_prefix (text_of_string "s") r) as [r'|] eqn:Es.
  - apply strip_prefix_split in Es. subst r.
    destruct (url_tail r') eqn:T'.
    + destruct (url_tail (text_of_string "s" ++ r')) eqn:T; [discriminate|].
      intros [= <-]. apply url_tail_skip in T.
      exact T.
    + intros [= <-]. apply url_tail_skip in T'. exact T'.
  - destruct (url_tail r) eqn:T; [discriminate|].
    intros [= <-]. apply url_tail_skip in T. exact T.
Qed.

Lemma span_take_stops p (z : text) : stops p z -> span_take p z = [].
Proof. destruct z as [|d z]; [reflexivity|]. cbn. now intros ->. Qed.

Lemma url_match_stops (z : text) : stops url_char z -> url_match z = O.
Proof.
  intros S. rewrite <- url_match_span, (span_take_stops _ _ S). reflexivity.
Qed.

(** The leading run of URL characters of the output of the URL removal
    is a prefix of its input. *)
Lemma re_sub_url_span (x : text) :
  exists q, x = span_take url_char (re_sub url_match [] x) ++ q.
Proof.
  unfold re_sub. induction x as [|c x IH]; [now exists []|].
  cbn [re_sub_from]. destruct (url_match (c :: x)) as [|k] eqn:M.
  - cbn [span_take]. destruct (url_char c); [|now exists (c :: x)].
    destruct IH as [q E]. exists q. cbn [app]. now rewrite <- E.
  - cbn [app]. rewrite re_sub_from_skip.
    pose proof (url_match_skip _ _ M) as S. cbn [skipn] in S.
    destruct (skipn k x) as [|d z]; [now exists (c :: x)|].
    cbn [re_sub_from]. rewrite (url_match_stops (d :: z) S).
    cbn [span_take]. cbn in S. rewrite S. now exists (c :: x).
Qed.

(** After the URL removal the URL pattern matches nowhere. *)
Lemma re_sub_url_no_match_fuel (n : nat) : forall x : text,
  (length x <= n)%nat -> no_match url_match (re_sub url_match [] x).
Proof.
  unfold re_sub. induction n as [|n IH]; intros x L.
  - destruct x; [exact I|simpl in L; lia].
  - destruct x as [|c x]; [exact I|]. cbn [length] in L.
    cbn [re_sub_from]. destruct (url_match (c :: x)) as [|k] eqn:M.
    + split; [|apply IH; lia].
      rewrite <- url_match_span. cbn [span_take].
      destruct (url_char c); [|reflexivity].
      destruct (re_sub_url_span x) as [q E]. unfold re_sub in E.
      destruct (url_match (c :: span_take url_char (re_sub_from url_match [] 0 x)))
        eqn:M'; [reflexivity|].
      exfalso.
      apply (url_match_app_pos
               (c :: span_take url_char (re_sub_from url_match [] 0 x)) q).
      * congruence.
      * cbn [app]. now rewrite <- E.
    + cbn [app]. rewrite re_sub_from_skip. apply IH.
      rewrite length_skipn. lia.
Qed.

Lemma re_sub_url_no_match (x : text) :
  no_match url_match (re_sub url_match [] x).
Proof. now apply (re_sub_url_no_match_fuel (length x)). Qed.

Lemma span_take_app_stops p (a b b' : text) :
  stops p b -> stops p b' -> span_take p (a ++ b) = span_take p (a ++ b').
Proof.
  intros S S'. induction a as [|c a IH].
  - cbn [app]. now rewrite !span_take_stops.
  - cbn. destruct (p c); [now rewrite IH|reflexivity].
Qed.

(** Replacing what follows a word by something else that starts with no
    URL character creates no match. *)
Lemma no_match_word (w rest tailpart : text) :
  no_match url_match (w ++ rest) ->
  stops url_char rest -> stops url_char tailpart ->
  no_match url_match tailpart ->
  no_match url_match (w ++ tailpart).
Proof.
  intros NM S S' NT. induction w as [|a w IH]; [exact NT|].
  destruct NM as [M NM]. split; [|now apply IH].
  change (url_match ((a :: w) ++ tailpart) = O).
  change (url_match ((a :: w) ++ rest) = O) in M.
  rewrite <- url_match_span.
  rewrite (span_take_app_stops url_char (a :: w) tailpart rest) by assumption.
  now rewrite url_match_span.
Qed.

Lemma stops_nonspace_url (z : text) : stops nonspace z -> stops url_char z.
Proof.
  destruct z as [|d z]; [trivial|]. cbn. unfold nonspace.
  intros S. apply negb_false_iff in S. now apply space_not_url.
Qed.

(** Collapsing white space creates no match of the URL pattern. *)
Lemma collapse_no_match_fuel (n : nat) : forall y : text,
  (length y <= n)%nat ->
  no_match url_match y -> no_match url_match (collapse_whitespace y).
Proof.
  unfold collapse_whitespace. induction n as [|n IH]; intros y L NM.
  - destruct y; [exact I|simpl in L; lia].
  - destruct y as [|c r]; [exact I|]. cbn [length] in L.
    destruct (is_space c) eqn:Hc.
    + rewrite split_ws_space by assumption. apply IH; [lia|apply NM].
    + rewrite split_ws_word by assumption.
      pose proof (span_take_drop nonspace r) as E.
      pose proof (span_drop_stops nonspace r) as S.
      pose proof (span_drop_length nonspace r) as Ld.
      set (w := c :: span_take nonspace r).
      set (rest := span_drop nonspace r) in *.
      assert (c :: r = w ++ rest) as Ey by (unfold w; cbn; now rewrite E).
      rewrite Ey in NM.
      assert (no_match url_match (join [32] (split_ws rest))) as NJ.
      { apply IH; [lia|]. now apply no_match_app_r in NM. }
      destruct (split_ws rest) as [|w' ws] eqn:Ews.
      * cbn [join]. rewrite <- (app_nil_r w).
        apply (no_match_word w rest []);
          [exact NM|now apply stops_nonspace_url|exact I|exact I].
      * rewrite join_cons by discriminate.
        apply (no_match_word w rest);
          [exact NM|now apply stops_nonspace_url|reflexivity|].
        split; [now apply url_match_stops|exact NJ].
Qed.

Lemma collapse_no_match (y : text) :
  no_match url_match y -> no_match url_match (collapse_whitespace y).
Proof. now apply (collapse_no_match_fuel (length y)). Qed.

(** ** The text normalizer: one pass, and a second one *)

Section Passes.
Variable cfg : TextProcessingConfig.

(** No emoji where emojis are handled, no backslash where mentions or
    hashtags are removed: what makes those three substitutions find
    nothing. *)
Definition plain (t : text) : Prop :=
  (handle_emojis cfg = true -> Forall (fun c => emoji_char c = false) t) /\
  (remove_mentions cfg = true \/ remove_hashtags cfg = true ->
   Forall (fun c => c <> 92) t).

Definition url_step (x : text) : text :=
  if remove_urls cfg then re_sub url_match [] x else x.

(** The steps of [clean] after the case fold. *)
Definition after_lower (x : text) : text :=
  let x := url_step x in
  let x := if remove_mentions cfg then re_sub mention_match [] x else x in
  let x := if remove_hashtags cfg then re_sub hashtag_match [] x else x in
  let x := if handle_emojis cfg
           then re_sub emoji_match (text_of_string " [EMOJI] ") x else x in
  collapse_whitespace x.

Lemma clean_after_lower (t : text) : clean cfg t = after_lower (py_lower t).
Proof. reflexivity. Qed.

Lemma plain_lower (t : text) : plain t -> plain (py_lower t).
Proof.
  intros [He Hb]. split; intros H; [specialize (He H)|specialize (Hb H)].
  - clear Hb. induction He; constructor; auto using lower_cp_not_emoji.
  - clear He. induction Hb; constructor; auto using lower_cp_not_backslash.
Qed.

Lemma plain_url_step (x : text) : plain x -> plain (url_step x).
Proof.
  unfold url_step. destruct (remove_urls cfg); [|trivial].
  intros [He Hb]. split; intros H; now apply re_sub_delete_Forall; auto.
Qed.

Lemma kept_url_step (x : text) : Forall kept x -> Forall kept (url_step x).
Proof.
  unfold url_step. destruct (remove_urls cfg); [|trivial].
  now apply re_sub_delete_Forall.
Qed.

(** On a plain text only the URL removal and the white-space step act. *)
Lemma after_lower_plain (x : text) :
  plain x -> after_lower x = collapse_whitespace (url_step x).
Proof.
  intros P. apply plain_url_step in P. destruct P as [He Hb].
  unfold after_lower. cbv zeta.
  destruct (remove_mentions cfg) eqn:Em.
  - rewrite (re_sub_no_match mention_match) by (apply sigil_no_match; auto).
    destruct (remove_hashtags cfg) eqn:Eh.
    + rewrite (re_sub_no_match hashtag_match) by (apply sigil_no_match; auto).
      destruct (handle_emojis cfg); [|reflexivity].
      now rewrite re_sub_no_match by (apply emoji_no_match; auto).
    + destruct (handle_emojis cfg); [|reflexivity].
      now rewrite re_sub_no_match by (apply emoji_no_match; auto).
  - destruct (remove_hashtags cfg) eqn:Eh.
    + rewrite (re_sub_no_match hashtag_match) by (apply sigil_no_match; auto).
      destruct (handle_emojis cfg); [|reflexivity].
      now rewrite re_sub_no_match by (apply emoji_no_match; auto).
    + destruct (handle_emojis cfg); [|reflexivity].
      now rewrite re_sub_no_match by (apply emoji_no_match; auto).
Qed.

Lemma plain_collapse (x : text) : plain x -> plain (collapse_whitespace x).
Proof.
  intros [He Hb]. split; intros H; apply collapse_Forall; auto.
Qed.

Lemma Forall_dots (P : N -> Prop) : P 46 -> Forall P dots.
Proof. intros H. repeat constructor; exact H. Qed.

Lemma plain_app_dots (x : text) (k : nat) : plain x -> plain (firstn k x ++ dots).
Proof.
  intros [He Hb]. split; intros H; apply Forall_app; split.
  - apply firstn_Forall; auto.
  - now apply Forall_dots.
  - apply firstn_Forall; auto.
  - apply Forall_dots. lia.
Qed.

Lemma kept_32 : kept 32. Proof. reflexivity. Qed.

Lemma kept_app_dots (x : text) (k : nat) :
  Forall kept x -> Forall kept (firstn k x ++ dots).
Proof.
  intros F. apply Forall_app. split; [now apply firstn_Forall|].
  now apply Forall_dots.
Qed.

(** The cleaned text is a fixed point of [clean]. *)
Lemma clean_clean (t : text) :
  plain t -> clean cfg (clean cfg t) = clean cfg t.
Proof.
  intros P. rewrite (clean_after_lower t).
  pose proof (plain_lower t P) as Pl.
  rewrite (after_lower_plain _ Pl).
  pose proof (kept_url_step _ (py_lower_all_kept t)) as K.
  pose proof (plain_url_step _ Pl) as Pu.
  set (z := url_step (py_lower t)) in *.
  rewrite clean_after_lower.
  rewrite (py_lower_kept (collapse_whitespace z))
    by (apply collapse_Forall; [exact kept_32|exact K]).
  rewrite (after_lower_plain _ (plain_collapse z Pu)).
  assert (url_step (collapse_whitespace z) = collapse_whitespace z) as ->.
  { unfold url_step. destruct (remove_urls cfg) eqn:U; [|reflexivity].
    apply re_sub_no_match, collapse_no_match.
    unfold z, url_step. rewrite U. apply re_sub_url_no_match. }
  apply collapse_collapse.
Qed.

(** Without URL removal the truncated text is a fixed point of [clean]. *)
Lemma clean_truncated (t : text) (k : nat) :
  plain t -> remove_urls cfg = false ->
  clean cfg (firstn k (clean cfg t) ++ dots) = firstn k (clean cfg t) ++ dots.
Proof.
  intros P U. rewrite (clean_after_lower t).
  pose proof (plain_lower t P) as Pl.
  rewrite (after_lower_plain _ Pl).
  pose proof (kept_url_step _ (py_lower_all_kept t)) as K.
  pose proof (plain_url_step _ Pl) as Pu.
  set (z := url_step (py_lower t)) in *.
  rewrite clean_after_lower.
  rewrite (py_lower_kept (firstn k (collapse_whitespace z) ++ dots))
    by (apply kept_app_dots, collapse_Forall; [exact kept_32|exact K]).
  rewrite (after_lower_plain _ (plain_app_dots _ k (plain_collapse z Pu))).
  unfold url_step at 1. rewrite U. apply collapse_truncated.
Qed.

Lemma truncate_short (y : text) :
  (Z.of_nat (length y) <= max_text_length cfg)%Z -> truncate cfg y = y.
Proof.
  intros L. unfold truncate.
  destruct (Z.gtb_spec (Z.of_nat (length y)) (max_text_length cfg)); [lia|].
  reflexivity.
Qed.

Lemma truncate_long (y : text) :
  (0 <= max_text_length cfg)%Z ->
  (Z.of_nat (length y) > max_text_length cfg)%Z ->
  truncate cfg y = firstn (Z.to_nat (max_text_length cfg)) y ++ dots.
Proof.
  intros L0 L. unfold truncate, slice_to.
  destruct (Z.gtb_spec (Z.of_nat (length y)) (max_text_length cfg)); [|lia].
  destruct (Z.leb_spec 0 (max_text_length cfg)); [reflexivity|lia].
Qed.

(** Truncating again changes nothing. *)
Lemma truncate_truncate (y : text) :
  (0 <= max_text_length cfg)%Z ->
  truncate cfg (truncate cfg y) = truncate cfg y.
Proof.
  intros L0.
  destruct (Z.le_gt_cases (Z.of_nat (length y)) (max_text_length cfg)) as [L|L].
  - rewrite (truncate_short y L). exact (truncate_short y L).
  - rewrite (truncate_long y) by lia.
    set (k := Z.to_nat (max_text_length cfg)).
    assert (length (firstn k y) = k) as Lk
      by (rewrite length_firstn; unfold k; lia).
    rewrite truncate_long; [|assumption|].
    + fold k. rewrite firstn_app, Lk, Nat.sub_diag.
      rewrite <- Lk at 1. rewrite firstn_all. cbn [firstn].
      now rewrite app_nil_r.
    + rewrite length_app, Lk. unfold k, dots. cbn [length text_of_string map list_ascii_of_string]. lia.
Qed.

End Passes.

End Normalizer.

Module NormalizerExamples.
Local Open Scope N_scope.

Definition grinning_face : text := [0x1F600].

Definition all_on (k : Z) : TextProcessingConfig :=
  {| max_text_length := k; remove_urls := true; remove_mentions := true;
     remove_hashtags := true; handle_emojis := true |}.

Definition test_message : text :=
  text_of_string
    "This is a TEST message with URLs https://example.com and @mentions #hashtags".

(** With URL removal, a truncation that ends in ["http://"] makes the
    ellipsis part of a URL, which a second pass removes. *)
Lemma truncation_can_create_a_url :
  preprocess (all_on 7) (text_of_string "http:// abcdef")
  = text_of_string "http://..." /\
  preprocess (all_on 7) (text_of_string "http://...") = [].
Proof. split; vm_compute; reflexivity. Qed.

(** The mention pattern is [r'@\\w+']: an at sign, a backslash and
    letters w.  Removing one match can bring the next one together. *)
Lemma mention_removal_not_idempotent :
  preprocess (all_on 100) [64; 64; 92; 119; 92; 119] = [64; 92; 119] /\
  preprocess (all_on 100) [64; 92; 119] = [].
Proof. split; vm_compute; reflexivity. Qed.

Lemma test_message_normalized :
  preprocess default_text_processing test_message
  = text_of_string
      "this is a test message with urls and @mentions #hashtags".
Proof. vm_compute. reflexivity. Qed.

Definition great_grin : text := text_of_string "Great " ++ grinning_face.

(** C3 fails on a text with an emoji under the default configuration.
    The case fold of line 82 comes first and the placeholder ["[EMOJI]"]
    of line 98 is inserted after it: the output is not lower case, which
    the comment of line 81 and the check [processed.lower() == processed]
    of [test_preprocess_basic] expect it to be, and a second pass
    lower-cases the placeholder instead of returning the text unchanged. *)
Lemma C3_emoji_placeholder_is_upper_case :
  preprocess default_text_processing great_grin
  = text_of_string "great [EMOJI]" /\
  py_lower (preprocess default_text_processing great_grin)
  <> preprocess default_text_processing great_grin /\
  preprocess default_text_processing
    (preprocess default_text_processing great_grin)
  = text_of_string "great [emoji]" /\
  preprocess default_text_processing
    (preprocess default_text_processing great_grin)
  <> preprocess default_text_processing great_grin /\
  preprocess default_text_processing grinning_face = text_of_string "[EMOJI]" /\
  preprocess default_text_processing
    (preprocess default_text_processing grinning_face)
  = text_of_string "[emoji]".
Proof.
  split; [vm_compute; reflexivity|].
  split; [vm_compute; discriminate|].
  split; [vm_compute; reflexivity|].
  split; [vm_compute; discriminate|].
  split; vm_compute; reflexivity.
Qed.

End NormalizerExamples.

Lemma ascii_not_emoji (c : N) : (c < 128)%N -> emoji_char c = false.
Proof. intros L. Normalizer.class_false. Qed.

(** Where the normalizer is idempotent: for every configuration with a
    non-negative [max_text_length], on every ASCII text that holds no
    backslash when mentions or hashtags are removed and that is not
    truncated when URLs are removed. *)
Theorem preprocess_idempotent_on_plain_ascii :
  forall (cfg : TextProcessingConfig) (t : text),
    (0 <= max_text_length cfg)%Z ->
    Forall (fun c => (c < 128)%N) t ->
    (remove_mentions cfg = true \/ remove_hashtags cfg = true ->
     Forall (fun c => c <> 92%N) t) ->
    (remove_urls cfg = true ->
     (Z.of_nat (length (clean cfg t)) <= max_text_length cfg)%Z) ->
    preprocess cfg (preprocess cfg t) = preprocess cfg t.
Proof.
  intros cfg t L0 Ha Hb Hu.
  assert (Normalizer.plain cfg t) as P.
  { split; [|assumption]. intros _.
    eapply List.Forall_impl; [|exact Ha]. intros c. apply ascii_not_emoji. }
  destruct t as [|c t]; [reflexivity|].
  set (x := c :: t) in *. change (preprocess cfg x) with (truncate cfg (clean cfg x)).
  destruct (truncate cfg (clean cfg x)) as [|d out] eqn:E; [reflexivity|].
  rewrite <- E. change (preprocess cfg (truncate cfg (clean cfg x)))
    with (match truncate cfg (clean cfg x) with
          | [] => []
          | _ => truncate cfg (clean cfg (truncate cfg (clean cfg x)))
          end).
  rewrite E at 1. cbv iota.
  destruct (Z.le_gt_cases (Z.of_nat (length (clean cfg x))) (max_text_length cfg))
    as [L|L].
  - rewrite (Normalizer.truncate_short cfg (clean cfg x) L) at 1.
    rewrite (Normalizer.clean_clean cfg x P). reflexivity.
  - assert (remove_urls cfg = false) as U.
    { destruct (remove_urls cfg); [|reflexivity]. specialize (Hu eq_refl). lia. }
    rewrite (Normalizer.truncate_long cfg (clean cfg x)) at 1 by lia.
    rewrite (Normalizer.clean_truncated cfg x _ P U).
    rewrite <- (Normalizer.truncate_long cfg (clean cfg x)) by lia.
    now apply Normalizer.truncate_truncate.
Qed.

(** The message of [test_preprocess_basic] is such a text. *)
Lemma test_message_is_stable :
  preprocess default_text_processing
    (preprocess default_text_processing NormalizerExamples.test_message)
  = preprocess default_text_processing NormalizerExamples.test_message.
Proof.
  apply preprocess_idempotent_on_plain_ascii.
  - simpl. lia.
  - unfold NormalizerExamples.test_message.
    repeat constructor.
  - intros [H|H]; discriminate H.
  - intros _. vm_compute. discriminate.
Qed.

(** ** The aggregate: which models it lists *)

Section AggregateShape.
Context {num : Type} `{Numeric num}.
Local Open Scope num_scope.

Lemma dict_set_NoDup {V} (d : list (string * V)) k v :
  NoDup (dict_keys d) -> NoDup (dict_keys (dict_set d k v)).
Proof.
  unfold dict_keys. induction d as [|[k' v'] d IH]; simpl; intros ND.
  - constructor; [apply not_elem_of_nil|constructor].
  - apply NoDup_cons in ND. destruct ND as [Hk ND].
    destruct (String.eqb k' k) eqn:E; simpl.
    + apply NoDup_cons. split; assumption.
    + apply NoDup_cons. split; [|now apply IH].
      intros Hin. apply (elem_of_dict_keys_set d k v k') in Hin.
      destruct Hin as [->|Hin]; [|contradiction].
      rewrite String.eqb_refl in E. discriminate.
Qed.

Lemma dict_get_set_same {V} (d : list (string * V)) k v :
  dict_get (dict_set d k v) k = Some v.
Proof.
  induction d as [|[k' v'] d IH]; simpl.
  - now rewrite String.eqb_refl.
  - destruct (String.eqb k' k) eqn:E; simpl; rewrite E; [reflexivity|exact IH].
Qed.

Lemma dict_get_set_other {V} (d : list (string * V)) k v k0 :
  k0 <> k -> dict_get (dict_set d k v) k0 = dict_get d k0.
Proof.
  intros NE. induction d as [|[k' v'] d IH]; simpl.
  - destruct (String.eqb k k0) eqn:E; [|reflexivity].
    apply String.eqb_eq in E. congruence.
  - destruct (String.eqb k' k) eqn:E; simpl.
    + apply String.eqb_eq in E. subst k'.
      destruct (String.eqb k k0) eqn:E0; [|reflexivity].
      apply String.eqb_eq in E0. congruence.
    + destruct (String.eqb k' k0); [reflexivity|exact IH].
Qed.

Lemma fold_results_NoDup (w : Weights num) rs : forall a,
  NoDup (dict_keys (model_results a)) ->
  NoDup (dict_keys (model_results (fold_left (acc_step w) rs a))).
Proof.
  induction rs as [|r rs IH]; intros a ND; simpl; [exact ND|].
  apply IH. simpl. now apply dict_set_NoDup.
Qed.

(** A key no later result has keeps its entry through the loop. *)
Lemma fold_results_keep (w : Weights num) k (r : ModelResult num) rs : forall b,
  Forall (fun r' => model_key (model_name r') <> k) rs ->
  dict_get (model_results b) k = Some r ->
  dict_get (model_results (fold_left (acc_step w) rs b)) k = Some r.
Proof.
  induction rs as [|r2 rs IH]; intros b F Hb; simpl; [exact Hb|].
  apply Forall_cons in F. destruct F as [NE F].
  apply IH; [exact F|].
  simpl. rewrite dict_get_set_other by congruence. exact Hb.
Qed.

(** After the loop a key maps to the last result that has it. *)
Lemma fold_results_last (w : Weights num) rs1 r rs2 :
  Forall (fun r' => model_key (model_name r') <> model_key (model_name r)) rs2 ->
  dict_get (model_results (accumulate w (rs1 ++ r :: rs2)))
           (model_key (model_name r)) = Some r.
Proof.
  intros F. unfold accumulate. rewrite fold_left_app. simpl.
  apply fold_results_keep; [exact F|].
  simpl. apply dict_get_set_same.
Qed.

Lemma dict_set_length {V} (d : list (string * V)) k v :
  (length (dict_set d k v) <= S (length d))%nat.
Proof.
  induction d as [|[k' v'] d IH]; simpl; [lia|].
  destruct (String.eqb k' k); simpl; lia.
Qed.

Lemma fold_results_length (w : Weights num) rs : forall a,
  (length (model_results (fold_left (acc_step w) rs a))
   <= length rs + length (model_results a))%nat.
Proof.
  induction rs as [|r rs IH]; intros a; simpl; [lia|].
  etransitivity; [apply IH|]. simpl.
  pose proof (dict_set_length (model_results a) (model_key (model_name r)) r).
  lia.
Qed.

End AggregateShape.

(** X1: an aggregate counts every result but lists every model key once:
    [model_count] is the number of results, [models_used] holds the keys
    of the results without repetition (so it can be shorter than
    [model_count]), and [individual_results] keeps, for a key, the last
    result that has it. *)
Theorem aggregate_lists_each_model_once :
  forall (num : Type) (N : Numeric num) (w : Weights num)
         (rs : list (ModelResult num)) (a : Aggregated num),
    get_weighted_sentiment w rs = Some a ->
    model_count a = length rs /\
    NoDup (models_used a) /\
    (length (models_used a) <= model_count a)%nat /\
    (forall k, k ∈ models_used a
               <-> k ∈ map (fun r => model_key (model_name r)) rs) /\
    (forall rs1 r rs2,
        rs = rs1 ++ r :: rs2 ->
        Forall (fun r' => model_key (model_name r')
                          <> model_key (model_name r)) rs2 ->
        dict_get (individual_results a) (model_key (model_name r)) = Some r).
Proof.
  intros num N w rs a E.
  destruct rs as [|r0 rs]; [discriminate|].
  rewrite get_weighted_sentiment_cons in E.
  destruct (neqb _ _); [discriminate|].
  injection E as <-.
  cbn [model_count models_used individual_results].
  split; [reflexivity|].
  split; [apply fold_results_NoDup; constructor|].
  split.
  { unfold dict_keys. rewrite length_map.
    etransitivity; [apply fold_results_length|]. simpl. lia. }
  split.
  { intros k. unfold accumulate. rewrite fold_keys. simpl.
    rewrite elem_of_nil. tauto. }
  intros rs1 r rs2 -> F. now apply fold_results_last.
Qed.

Module AggregateShapeExample.
Import FloatNum.

Definition two_vader : list (ModelResult float) :=
  [AggregatorFloat.mk_result "vader" 0.5 0.6 0.1 0.3 0.5;
   AggregatorFloat.mk_result "vader-lexicon" (-0.2) 0.1 0.3 0.6 0.2].

Definition two_vader_aggregate : Aggregated float :=
  default
    {| agg_compound := 0%float; agg_positive := 0%float;
       agg_negative := 0%float; agg_neutral := 0%float;
       agg_confidence := 0%float; model_count := 0;
       models_used := []; individual_results := [] |}
    (get_weighted_sentiment default_weights two_vader).

End AggregateShapeExample.

Lemma aggregate_lists_each_model_once_witness :
  model_count AggregateShapeExample.two_vader_aggregate = 2%nat /\
  models_used AggregateShapeExample.two_vader_aggregate = ["vader"].
Proof.
  pose proof (aggregate_lists_each_model_once float _ default_weights
                AggregateShapeExample.two_vader
                AggregateShapeExample.two_vader_aggregate) as T.
  assert (get_weighted_sentiment default_weights AggregateShapeExample.two_vader
          = Some AggregateShapeExample.two_vader_aggregate) as E
    by (vm_compute; reflexivity).
  destruct (T E) as (C & _).
  split; [exact C|vm_compute; reflexivity].
Defined.

(** ** The aggregate as a weighted mean *)

Module AggregateMean.
Import RealNum RealFacts.
Local Open Scope R_scope.

(** The loop invariant: the compound accumulator stays between [lo] and
    [hi] times the total weight. *)
Definition between (lo hi : R) (a : Acc R) : Prop :=
  0 <= total_weight a /\
  lo * total_weight a <= weighted_compound a <= hi * total_weight a.

Lemma acc_step_between (w : Weights R) lo hi a r :
  0 <= vader_weight w -> 0 <= roberta_weight w ->
  lo <= compound_score r <= hi ->
  between lo hi a -> between lo hi (acc_step w a r).
Proof.
  intros Hv Hr Hc (HT & HC).
  pose proof (AggregatorReal.weights_get_nonneg w (model_key (model_name r)) Hv Hr)
    as Hw.
  unfold between, acc_step.
  cbn [total_weight weighted_compound nadd nmul real_numeric].
  set (x := weights_get w (model_key (model_name r))) in *.
  split; [lra|]. split; nra.
Qed.

Lemma fold_between (w : Weights R) lo hi rs :
  0 <= vader_weight w -> 0 <= roberta_weight w ->
  Forall (fun r => lo <= compound_score r <= hi) rs ->
  forall a, between lo hi a -> between lo hi (fold_left (acc_step w) rs a).
Proof.
  intros Hv Hr F. induction F as [|r rs Hc F IH]; intros a Ha; simpl.
  - assumption.
  - apply IH. now apply acc_step_between.
Qed.

End AggregateMean.

(** X2: without rounding and with non-negative weights, the aggregate
    compound is a weighted mean: it lies between the smallest and the
    largest compound of the results, so results that agree on a compound
    keep it, and a single result is returned with its own compound. *)
Theorem aggregate_compound_between_extremes :
  forall (w : Weights R) (rs : list (ModelResult R)) (lo hi : R),
    (0 <= vader_weight w)%R -> (0 <= roberta_weight w)%R ->
    Forall (fun r => (lo <= compound_score r <= hi)%R) rs ->
    match get_weighted_sentiment w rs with
    | Some a => (lo <= agg_compound a <= hi)%R
    | None => rs = [] \/ total_weight (accumulate w rs) = 0%R
    end.
Proof.
  intros w rs lo hi Hv Hr F.
  destruct rs as [|r0 rs]; [now left|].
  rewrite get_weighted_sentiment_cons.
  assert (AggregateMean.between lo hi (accumulate w (r0 :: rs))) as (HT & HC).
  { apply AggregateMean.fold_between; try assumption.
    unfold AggregateMean.between, acc0. cbn. lra. }
  cbn [neqb ndiv RealNum.real_numeric of_Z].
  destruct (RealNum.Reqb (total_weight (accumulate w (r0 :: rs))) 0) eqn:Z.
  { right. now apply RealFacts.Reqb_true in Z. }
  apply RealFacts.Reqb_false in Z.
  cbn [agg_compound].
  set (T := total_weight (accumulate w (r0 :: rs))) in *.
  set (C := weighted_compound (accumulate w (r0 :: rs))) in *.
  assert (0 < T)%R as Hpos by lra.
  split.
  - apply (Rmult_le_reg_r T); [assumption|].
    unfold Rdiv. rewrite Rmult_assoc, Rinv_l by lra. lra.
  - apply (Rmult_le_reg_r T); [assumption|].
    unfold Rdiv. rewrite Rmult_assoc, Rinv_l by lra. lra.
Qed.

Lemma aggregate_compound_between_extremes_witness :
  match get_weighted_sentiment default_weights
          [AggregatorReal.real_vader; AggregatorReal.real_roberta] with
  | Some a => (3 / 5 <= agg_compound a <= 4 / 5)%R
  | None =>
      [AggregatorReal.real_vader; AggregatorReal.real_roberta] = [] \/
      total_weight (accumulate default_weights
                      [AggregatorReal.real_vader; AggregatorReal.real_roberta])
      = 0%R
  end.
Proof.
  apply (aggregate_compound_between_extremes default_weights
           [AggregatorReal.real_vader; AggregatorReal.real_roberta]
           (3 / 5) (4 / 5)).
  - apply AggregatorReal.default_weights_nonneg.
  - apply AggregatorReal.default_weights_nonneg.
  - repeat constructor; cbn; lra.
Defined.

(** ** Trend analysis: the error record and the ranges of the fields *)

Section SortKeeps.
Context {num : Type} `{Numeric num}.

Lemma insert_sample_Forall (P : Sample num -> Prop) s l :
  P s -> Forall P l -> Forall P (insert_sample s l).
Proof.
  intros Hs F. induction F as [|a l Ha F IH]; simpl.
  - now repeat constructor.
  - destruct (timestamp s <? timestamp a)%Z.
    + now repeat constructor.
    + now constructor.
Qed.

Lemma sort_fold_Forall (P : Sample num -> Prop) l : forall acc,
  Forall P l -> Forall P acc ->
  Forall P (fold_left (fun acc s => insert_sample s acc) l acc).
Proof.
  induction l as [|s l IH]; intros acc Fl Fa; simpl; [exact Fa|].
  apply Forall_cons in Fl. destruct Fl as [Hs Fl].
  apply IH; [exact Fl|]. now apply insert_sample_Forall.
Qed.

Lemma sort_values_Forall (P : Sample num -> Prop) l :
  Forall P l -> Forall P (sort_values l).
Proof. intros F. apply sort_fold_Forall; [exact F|constructor]. Qed.

Lemma insert_sample_In (a s : Sample num) l :
  In a (s :: l) -> In a (insert_sample s l).
Proof.
  induction l as [|b l IH]; simpl; [trivial|].
  destruct (timestamp s <? timestamp b)%Z; simpl; [trivial|].
  intros [->|[->|Ha]]; [right; apply IH; now left|now left|].
  right. apply IH. now right.
Qed.

Lemma sort_fold_In (a : Sample num) l : forall acc,
  In a l \/ In a acc ->
  In a (fold_left (fun acc s => insert_sample s acc) l acc).
Proof.
  induction l as [|s l IH]; intros acc; simpl; [tauto|].
  intros [[->|Ha]|Ha]; apply IH.
  - right. apply insert_sample_In. now left.
  - now left.
  - right. apply insert_sample_In. now right.
Qed.

Lemma sort_values_In (a : Sample num) l : In a l -> In a (sort_values l).
Proof. intros Ha. apply sort_fold_In. now left. Qed.

End SortKeeps.

Module TrendRanges.
Import RealNum RealFacts SeriesReal TrendReal.
Local Open Scope R_scope.

Lemma num_max_const (v : R) (l : list R) :
  Forall (fun x => x = v) l -> num_max l v = v.
Proof.
  unfold num_max. induction 1 as [|x l -> _ IH]; cbn [fold_left]; [reflexivity|].
  destruct (nltb v v); exact IH.
Qed.

Lemma num_min_const (v : R) (l : list R) :
  Forall (fun x => x = v) l -> num_min l v = v.
Proof.
  unfold num_min. induction 1 as [|x l -> _ IH]; cbn [fold_left]; [reflexivity|].
  destruct (nltb v v); exact IH.
Qed.

(** [linregress] refuses abscissas that are all the same. *)
Lemma linregress_identical (v : R) (x y : list R) :
  (2 <= length x)%nat -> Forall (fun a => a = v) x ->
  exists msg, linregress x y = Raise (ValueError msg).
Proof.
  intros L F. unfold linregress.
  destruct x as [|x0 x']; [simpl in L; lia|].
  pose proof F as F0. apply Forall_cons in F0. destruct F0 as [-> F'].
  assert (num_max (v :: x') v = v) as -> by (now apply num_max_const).
  assert (num_min (v :: x') v = v) as -> by (now apply num_min_const).
  real_ops. assert (Reqb v v = true) as -> by (now apply Reqb_true).
  destruct (Nat.ltb_spec 1 (length (v :: x'))); [|lia].
  simpl. eexists. reflexivity.
Qed.

(** Away from a constant [y], the correlation [linregress] returns is the
    clipped quotient and lies in [-1, 1]. *)
Lemma linregress_rvalue (x y : list R) lr :
  (2 <= length x)%nat ->
  (exists a b, In a y /\ In b y /\ a <> b) ->
  linregress x y = Ok lr -> -1 <= rvalue lr <= 1.
Proof.
  intros L (a & b & Ha & Hb & Hab).
  unfold linregress. destruct x as [|x0 x']; [discriminate|].
  assert (In x0 (x0 :: x')) as H0 by now left.
  remember (x0 :: x') as xs eqn:Hxs. clear Hxs x'.
  destruct (Nat.ltb_spec 1 (length xs)) as [_|]; [|lia].
  real_ops.
  destruct (Reqb (num_max xs x0) (num_min xs x0)) eqn:Ex; [discriminate|].
  apply Reqb_false in Ex. cbn [andb].
  intros [= <-]. cbn [rvalue]. unfold gtb, mean. real_ops.
  rewrite Q2R_zero, Q2R_one, Q2R_neg_one.
  assert (0 < IZR (Z.of_nat (length xs))) as N0 by (apply (IZR_lt 0); lia).
  set (n := IZR (Z.of_nat (length xs))) in *.
  assert (forall v, v / n = 0 -> v = 0) as Zero.
  { intros v E. apply (f_equal (fun z => z * n)) in E.
    unfold Rdiv in E. rewrite Rmult_assoc, Rinv_l, Rmult_1_r, Rmult_0_l in E;
      [exact E|lra]. }
  match goal with
  | |- context [Reqb ?sx 0 || Reqb ?sy 0] =>
      assert (Reqb sx 0 = false) as ->; [|assert (Reqb sy 0 = false) as ->]
  end.
  - apply Reqb_false. intros E. apply Zero in E.
    set (m := nsum xs / n) in *.
    apply (nsum_squares_zero (fun v => v - m)) in E.
    apply Ex.
    assert (Forall (fun v => v = m) xs) as F.
    { eapply List.Forall_impl; [|exact E]. cbv beta. intros v Hv. lra. }
    assert (x0 = m) as ->.
    { rewrite List.Forall_forall in F. now apply F. }
    now rewrite num_max_const, num_min_const.
  - apply Reqb_false. intros E. apply Zero in E.
    set (m := nsum y / IZR (Z.of_nat (length y))) in *.
    assert (0 < nsum (map (fun v => (v - m) * (v - m)) y)) as P.
    { destruct (Rtotal_order a b) as [Lt|[Eq|Gt]]; [|contradiction|].
      - now apply (sq_dev_positive y m a b).
      - now apply (sq_dev_positive y m b a). }
    lra.
  - cbn [orb].
    match goal with |- context [Rltb 1 ?r] => set (r0 := r) end.
    destruct (Rltb 1 r0) eqn:E1; [lra|].
    apply Rltb_false in E1.
    destruct (Rltb r0 (-1)) eqn:E2; [lra|].
    apply Rltb_false in E2. lra.
Qed.

End TrendRanges.

(** X3: three or more samples that all carry one timestamp make the
    regression raise, and trend analysis answers with the ['error'] record:
    every score 0 and [data_points] 0, not the number of samples. *)
Theorem trend_error_on_identical_timestamps :
  forall (kw : string) (hours : Z) (trends : list (Sample R)) (t : Z),
    (3 <= length trends)%nat ->
    Forall (fun s => timestamp s = t) trends ->
    analyze_trends kw hours trends
    = {| keyword := kw; period_hours := hours; trend_direction := error;
         trend_strength := of_Q 0.0; sentiment_change := of_Q 0.0;
         confidence_score := of_Q 0.0; data_points := 0;
         r_squared := of_Q 0.0 |}.
Proof.
  intros kw hours trends t L F.
  unfold analyze_trends, analyze_trends_body.
  destruct (Nat.ltb_spec (length trends) 3); [lia|].
  set (df := sort_values trends).
  set (t0 := list_min (map timestamp df)).
  destruct (TrendRanges.linregress_identical (hours_since t0 t)
              (map (fun s => hours_since t0 (timestamp s)) df)
              (map sentiment df)) as [msg ->].
  - rewrite length_map. unfold df. rewrite length_sort_values. lia.
  - apply List.Forall_map. unfold df.
    apply sort_values_Forall.
    eapply List.Forall_impl; [|exact F]. intros s ->. reflexivity.
  - reflexivity.
Qed.

Lemma trend_error_on_identical_timestamps_witness :
  trend_direction
    (analyze_trends "k" 24
       [TrendExamples.sample_at 1 (1 / 10); TrendExamples.sample_at 1 (2 / 10);
        TrendExamples.sample_at 1 (3 / 10)])
  = error.
Proof.
  rewrite (trend_error_on_identical_timestamps "k" 24
             [TrendExamples.sample_at 1 (1 / 10);
              TrendExamples.sample_at 1 (2 / 10);
              TrendExamples.sample_at 1 (3 / 10)] TrendExamples.hour_us).
  - reflexivity.
  - simpl. lia.
  - repeat constructor.
Defined.

(** X4: on a series whose sentiments are not all the same, the scores of a
    trend analysis stay in their ranges when computed without rounding:
    strength, r_squared and confidence lie in [0, 1]; and [data_points] is
    the number of samples unless the analysis failed, where it is 0.  (On
    a constant series of three or more samples the correlation is
    undefined, see [TrendFloat.constant_series_has_nan_scores].) *)
Theorem trend_fields_in_range :
  forall (kw : string) (hours : Z) (trends : list (Sample R)),
    (exists a b, In a trends /\ In b trends /\ sentiment a <> sentiment b) ->
    let t := analyze_trends kw hours trends in
    (0 <= trend_strength t <= 1)%R /\
    (0 <= r_squared t <= 1)%R /\
    (0 <= confidence_score t <= 1)%R /\
    (data_points t = length trends
     \/ trend_direction t = error /\ data_points t = 0%nat).
Proof.
  intros kw hours trends (a & b & Ha & Hb & Hab). cbv zeta.
  unfold analyze_trends, analyze_trends_body.
  assert (Q2R 0.0 = 0%R) as Z0 by apply TrendReal.Q2R_zero.
  destruct (Nat.ltb_spec (length trends) 3) as [|L3].
  { cbn. rewrite Z0. repeat split; try lra. now left. }
  destruct (linregress _ _) as [lr|e] eqn:L.
  2:{ cbn. rewrite Z0. repeat split; try lra. right. now split. }
  apply TrendRanges.linregress_rvalue in L.
  2:{ rewrite length_map, length_sort_values. lia. }
  2:{ exists (sentiment a), (sentiment b).
      split; [|split; [|exact Hab]]; apply in_map; now apply sort_values_In. }
  cbn [pybind].
  match goal with
  | |- context [pybind ?c _] => destruct c as [ch|e]
  end.
  2:{ cbn. rewrite Z0. repeat split; try lra. right. now split. }
  cbn [pybind trend_strength r_squared confidence_score data_points
       trend_direction].
  SeriesReal.real_ops. unfold py_min. SeriesReal.real_ops.
  rewrite RealFacts.Q2R_one.
  set (r := rvalue lr) in *.
  assert (0 <= r * r <= 1)%R as R2 by nra.
  assert (0 <= IZR (Z.of_nat (length trends)) / 10)%R as N0.
  { pose proof (IZR_le 0 (Z.of_nat (length trends)) (Nat2Z.is_nonneg _)).
    lra. }
  split; [unfold Rabs; destruct (Rcase_abs r); lra|].
  split; [exact R2|].
  split; [|now left].
  destruct (RealNum.Rltb 1 _) eqn:E; [lra|].
  apply RealFacts.Rltb_false in E. split; [|exact E].
  apply Rmult_le_pos; lra.
Qed.

Lemma trend_fields_in_range_witness :
  (0 <= trend_strength (analyze_trends "k" 24 TrendExamples.ten_rising) <= 1)%R.
Proof.
  apply (trend_fields_in_range "k" 24 TrendExamples.ten_rising).
  exists (TrendExamples.sample_at 0 (1 / 10)),
         (TrendExamples.sample_at 1 (2 / 10)).
  split; [simpl; tauto|]. split; [simpl; tauto|].
  cbn [TrendExamples.sample_at sentiment]. lra.
Defined.

Module TrendFloat.
Import FloatNum.

(** Three hourly samples, all at 0.5. *)
Definition constant_series : list (Sample float) :=
  [{| timestamp := 0; sentiment := 0.5%float;
      sample_confidence := 0.8%float; model := "vader" |};
   {| timestamp := 3600000000; sentiment := 0.5%float;
      sample_confidence := 0.8%float; model := "vader" |};
   {| timestamp := 7200000000; sentiment := 0.5%float;
      sample_confidence := 0.8%float; model := "vader" |}].

(** In binary64 a constant series is reported as stable with a strength,
    a confidence and an r_squared that are NaN. *)
Lemma constant_series_has_nan_scores :
  let t := analyze_trends "k" 24 constant_series in
  trend_direction t = stable /\ data_points t = 3%nat /\
  PrimFloat.is_nan (trend_strength t) = true /\
  PrimFloat.is_nan (confidence_score t) = true /\
  PrimFloat.is_nan (r_squared t) = true.
Proof. vm_compute. repeat split. Qed.

End TrendFloat.

(** ** Momentum on exactly five samples *)

Module FloatOrder.
Local Open Scope float_scope.

Lemma SFcompare_refl (f : SpecFloat.spec_float) :
  SpecFloat.SFcompare f f = Some Eq \/ SpecFloat.SFcompare f f = None.
Proof.
  destruct f as [s|s| |s m e]; simpl.
  - now left.
  - destruct s; now left.
  - now right.
  - destruct s; rewrite Z.compare_refl, Pos.compare_cont_refl; now left.
Qed.

(** [x < x] is false for every binary64 value, NaN included. *)
Lemma ltb_irrefl (x : float) : PrimFloat.ltb x x = false.
Proof.
  rewrite ltb_spec. unfold SpecFloat.SFltb.
  destruct (SFcompare_refl (Prim2SF x)) as [-> | ->]; reflexivity.
Qed.

End FloatOrder.

(** X5: with exactly five samples the ten-sample average is taken over a
    window of [min(10, 5) = 5], the same window as the five-sample
    average; the two are equal, neither strict chain of line 144 can
    hold, and the signal is ['neutral'] whatever the sentiments.  This
    needs of the numbers only that [x < x] is false, which holds of the
    reals and of binary64. *)
Theorem momentum_of_five_is_neutral :
  forall (num : Type) (N : Numeric num) (trends : list (Sample num)),
    (forall x : num, nltb x x = false) ->
    length trends = 5%nat ->
    exists m, calculate_momentum trends = MomentumValues m /\
              sma_5 m = sma_10 m /\
              momentum_signal m = neutral_signal.
Proof.
  intros num N trends Irr L.
  unfold calculate_momentum, calculate_momentum_body.
  rewrite length_sort_values, L.
  change (5 <? 5)%nat with false. change (Nat.min 10 5) with 5%nat.
  change (Nat.min 5 (5 - 1)) with 4%nat. change (0 <? 4)%nat with true.
  cbv iota.
  set (s := map sentiment (sort_values trends)).
  assert (length s = 5%nat) as Ls
    by (unfold s; now rewrite length_map, length_sort_values).
  destruct (iloc_neg_ok s 1) as [current ->]; [lia|].
  destruct (iloc_neg_ok (rolling_mean 5 s) 1) as [sma5 ->];
    [unfold rolling_mean; rewrite length_rolling; lia|].
  destruct (iloc_neg_ok s (4 + 1)) as [past ->]; [lia|].
  cbn [pybind]. eexists. split; [reflexivity|].
  cbn [sma_5 sma_10 momentum_signal]. split; [reflexivity|].
  assert (nan_ltb sma5 sma5 = false) as ->.
  { destruct sma5 as [v|]; [|reflexivity]. cbn. apply Irr. }
  rewrite !andb_false_r. reflexivity.
Qed.

Lemma momentum_of_five_is_neutral_witness :
  exists m,
    calculate_momentum
      [AnalyticsFloat.sample_at 0 0.1%float; AnalyticsFloat.sample_at 1 0.2%float;
       AnalyticsFloat.sample_at 2 0.3%float; AnalyticsFloat.sample_at 3 0.4%float;
       AnalyticsFloat.sample_at 4 0.9%float] = MomentumValues m /\
    sma_5 m = sma_10 m /\
    momentum_signal m = neutral_signal.
Proof.
  apply (momentum_of_five_is_neutral float FloatNum.float_numeric).
  - exact FloatOrder.ltb_irrefl.
  - reflexivity.
Defined.

(** ** Anomaly detection: which rows can be reported *)

Section AnomalyWarmup.
Context {num : Type} `{Numeric num}.
Local Open Scope num_scope.

(** A row whose window is not full has NaN statistics and is not flagged. *)
Lemma short_window_row (s : Sample num) (w i : nat) (l : list num) :
  (i + 1 < w)%nat -> is_anomaly (make_row s (stats_at w l i)) = false.
Proof.
  intros Hi. unfold stats_at.
  destruct (Nat.leb_spec w (i + 1)); [lia|]. reflexivity.
Qed.

Lemma filter_none {A} (f : A -> bool) (l : list A) :
  Forall (fun a => f a = false) l -> List.filter f l = [].
Proof.
  induction 1 as [|a l Ha _ IH]; simpl; [reflexivity|]. now rewrite Ha.
Qed.

(** The rows of the frame, by position. *)
Lemma anomaly_rows_by_index (trends : list (Sample num)) (d : Sample num) :
  anomaly_rows trends
  = map (fun i => make_row (nth i (sort_values trends) d)
                    (stats_at (Nat.min 10 (length trends / 2))
                       (map sentiment (sort_values trends)) i))
        (seq 0 (length trends)).
Proof.
  unfold anomaly_rows. cbv zeta.
  rewrite (frame_rows _ _ d), map_map, length_sort_values. reflexivity.
Qed.

End AnomalyWarmup.

(** X6: from twenty samples on the window is ten rows, the first nine rows
    in time order have no rolling statistics, their z-score is NaN, and
    they are never reported whatever their sentiment: the anomalies are
    those of the rows from the tenth on, so there are at most [n - 9]. *)
Theorem first_nine_rows_never_flagged :
  forall (num : Type) (N : Numeric num) (trends : list (Sample num)),
    (20 <= length trends)%nat ->
    detect_anomalies trends
    = map make_anomaly (List.filter is_anomaly (skipn 9 (anomaly_rows trends)))
    /\ (length (detect_anomalies trends) <= length trends - 9)%nat.
Proof.
  intros num N trends L.
  assert (detect_anomalies trends
          = map make_anomaly
              (List.filter is_anomaly (skipn 9 (anomaly_rows trends)))) as E.
  { unfold detect_anomalies.
    destruct (Nat.ltb_spec (length trends) 20); [lia|].
    f_equal.
    destruct trends as [|d trends']; [simpl in L; lia|].
    set (trends := d :: trends') in *.
    rewrite (anomaly_rows_by_index trends d).
    replace (seq 0 (length trends))
      with (seq 0 9 ++ seq 9 (length trends - 9))
      by (rewrite <- seq_app; f_equal; lia).
    rewrite List.map_app, List.filter_app, skipn_app.
    rewrite length_map, length_seq, Nat.sub_diag.
    rewrite (skipn_all2 (n := 9)) by (rewrite length_map, length_seq; lia).
    cbn [skipn app].
    rewrite filter_none; [reflexivity|].
    apply List.Forall_map, List.Forall_forall. intros i Hi.
    apply in_seq in Hi.
    apply short_window_row.
    assert (10 <= length trends / 2)%nat
      by (apply (Nat.div_le_lower_bound (length trends) 2 10); lia).
    lia. }
  split; [exact E|].
  rewrite E, length_map.
  etransitivity; [apply List.filter_length_le|].
  rewrite length_skipn.
  unfold anomaly_rows. cbv zeta.
  rewrite length_map, length_combine, length_combine.
  unfold rolling_mean, rolling_std.
  rewrite !length_rolling, !length_map, length_sort_values. lia.
Qed.

Lemma first_nine_rows_never_flagged_witness :
  (length (detect_anomalies AnalyticsFloat.tiny_step) <= 20 - 9)%nat.
Proof.
  apply (first_nine_rows_never_flagged float FloatNum.float_numeric
           AnalyticsFloat.tiny_step).
  simpl. lia.
Defined.

(** ** Anomaly detection: how large a z-score can be *)

Module Samuelson.
Import RealNum RealFacts SeriesReal.
Local Open Scope R_scope.

Lemma nsum_app (a b : list R) : nsum (a ++ b) = nsum a + nsum b.
Proof.
  induction a as [|x a IH]; simpl.
  - rewrite nsum_nil. lra.
  - rewrite !nsum_cons, IH. lra.
Qed.

(** Cauchy-Schwarz against the constant sequence: the square of a sum of
    [k] terms is at most [k] times the sum of their squares. *)
Lemma square_of_sum (f : R -> R) (l : list R) :
  nsum (map f l) * nsum (map f l)
  <= INR (length l) * nsum (map (fun y => f y * f y) l).
Proof.
  induction l as [|a l IH].
  - simpl. rewrite !nsum_nil. lra.
  - cbn [map]. rewrite !nsum_cons, length_cons, S_INR.
    pose proof (nsum_squares_nonneg f l) as Q0.
    pose proof (pos_INR (length l)) as K0.
    set (k := INR (length l)) in *.
    set (s := nsum (map f l)) in *.
    set (q := nsum (map (fun y => f y * f y) l)) in *.
    set (x := f a).
    destruct (Req_dec k 0) as [Z|NZ].
    + assert (s * s <= 0) as S0 by (rewrite Z in IH; lra).
      assert (s = 0) as Hs.
      { pose proof (Rle_0_sqr s) as P. unfold Rsqr in P.
        assert (s * s = 0) as E0 by lra.
        apply Rmult_integral in E0. tauto. }
      rewrite Hs, Z. lra.
    + assert (0 < k) as KP by lra.
      assert (0 <= k * x * x - 2 * x * s + q) as Hx.
      { apply (Rmult_le_reg_l k); [exact KP|].
        pose proof (Rle_0_sqr (k * x - s)) as P. unfold Rsqr in P.
        replace (k * (k * x * x - 2 * x * s + q))
          with ((k * x - s) * (k * x - s) + (k * q - s * s)) by ring.
        lra. }
      assert ((k + 1) * (x * x + q) - (x + s) * (x + s)
              = (k * x * x - 2 * x * s + q) + (k * q - s * s)) as D by ring.
      lra.
Qed.

Lemma nsum_deviations (l : list R) :
  l <> [] -> nsum (map (fun y => y - mean l) l) = 0.
Proof.
  intros NE.
  replace (map (fun y => y - mean l) l)
    with (map (fun y => - mean l + 1 * y) l)
    by (apply map_ext; intros; lra).
  rewrite nsum_map_affine. unfold mean. real_ops. rewrite of_nat_INR.
  assert (0 < INR (length l)) as P.
  { apply lt_0_INR. destruct l; [contradiction|simpl; lia]. }
  field. lra.
Qed.

(** Samuelson's inequality: no value of a list of [n] values lies further
    from their mean than [(n - 1) / sqrt n] sample deviations. *)
Lemma samuelson (l1 l2 : list R) (x : R) :
  let l := l1 ++ x :: l2 in
  INR (length l) * ((x - mean l) * (x - mean l))
  <= (INR (length l) - 1) * sq_dev l.
Proof.
  intros l. set (m := mean l).
  assert (l <> []) as NE by (unfold l; destruct l1; discriminate).
  pose proof (nsum_deviations l NE) as Z. fold m in Z.
  unfold sq_dev. fold m. real_ops.
  unfold l in Z |- *. rewrite List.map_app, nsum_app in Z |- *.
  cbn [map] in Z |- *. rewrite nsum_cons in Z |- *.
  pose proof (square_of_sum (fun y => y - m) (l1 ++ l2)) as CS.
  cbv beta in CS.
  rewrite !List.map_app, !nsum_app in CS.
  rewrite !length_app in *. cbn [length] in *.
  rewrite !plus_INR in *. rewrite S_INR.
  set (s1 := nsum (map (fun y => y - m) l1)) in *.
  set (s2 := nsum (map (fun y => y - m) l2)) in *.
  set (q1 := nsum (map (fun y => (y - m) * (y - m)) l1)) in *.
  set (q2 := nsum (map (fun y => (y - m) * (y - m)) l2)) in *.
  set (k1 := INR (length l1)) in *. set (k2 := INR (length l2)) in *.
  assert (s1 + s2 = - (x - m)) as S by lra.
  assert ((x - m) * (x - m) = (s1 + s2) * (s1 + s2)) as Sq by (rewrite S; ring).
  assert ((k1 + (k2 + 1) - 1) * (q1 + ((x - m) * (x - m) + q2))
          - (k1 + (k2 + 1)) * ((x - m) * (x - m))
          = (k1 + k2) * (q1 + q2) - (x - m) * (x - m)) as D by ring.
  lra.
Qed.

End Samuelson.

Module AnomalyBound.
Import RealNum RealFacts SeriesReal.
Local Open Scope R_scope.

Lemma full_window_length (w i : nat) (l : list R) :
  (w <= i + 1)%nat -> (i < length l)%nat -> length (window_at w i l) = w.
Proof.
  intros Wi Il. unfold window_at. rewrite length_firstn, length_skipn. lia.
Qed.

(** In a window of ten values no value is three sample deviations away
    from the mean: its z-score has a square of at most [81 / 10]. *)
Lemma z_of_ten_bounded (win : list R) (x sd : R) :
  length win = 10%nat -> In x win -> std win = Some sd -> sd <> 0 ->
  0 < sd /\
  ((x - mean win) / sd) * ((x - mean win) / sd) <= 81 / 10.
Proof.
  intros L Hx E NZ.
  unfold std in E. rewrite L in E. change (10 <? 2)%nat with false in E.
  injection E as E. real_ops.
  change (IZR (Z.of_nat 9)) with 9 in E.
  assert (sq_dev win
          = nsum (map (fun y => (y - mean win) * (y - mean win)) win)) as ES
    by reflexivity.
  pose proof (nsum_squares_nonneg (fun y => y - mean win) win) as S0.
  cbv beta in S0. rewrite <- ES in S0.
  assert (0 <= sq_dev win / 9) as V0 by lra.
  pose proof (sqrt_pos (sq_dev win / 9)) as P. rewrite E in P.
  assert (0 < sd) as SP by lra.
  pose proof (sqrt_sqrt _ V0) as SS. rewrite E in SS.
  apply in_split in Hx. destruct Hx as (l1 & l2 & ->).
  pose proof (Samuelson.samuelson l1 l2 x) as SM. cbv zeta in SM.
  rewrite L in SM.
  assert (INR 10 = 10) as I10 by (simpl; lra).
  rewrite I10 in SM.
  set (m := mean (l1 ++ x :: l2)) in *.
  set (S := sq_dev (l1 ++ x :: l2)) in *.
  split; [exact SP|].
  assert ((x - m) / sd * ((x - m) / sd) = (x - m) * (x - m) / (sd * sd)) as ->
    by (field; lra).
  rewrite SS.
  assert (0 < sd * sd) as S2 by (apply Rmult_lt_0_compat; lra).
  assert (0 < S) as SPos by lra.
  apply (Rmult_le_reg_r (S / 9)); [lra|].
  unfold Rdiv at 1. rewrite Rmult_assoc, Rinv_l by lra.
  lra.
Qed.

End AnomalyBound.

(** X7: computed without rounding, every reported anomaly has a finite
    z-score [z] with [2 < |z|] and [z * z <= 81 / 10]: its sample is one of
    the ten values of its own window, and no value of ten lies three
    sample deviations from their mean.  So [abs(z) > 3] never holds and
    the severity is always ['medium'], never ['high']; the type is
    ['positive_spike'] exactly for a positive z-score. *)
Theorem reported_anomalies_are_medium :
  forall trends : list (Sample R),
    Forall (fun a =>
              anomaly_severity a = medium /\
              exists z : R,
                anomaly_z_score a = ZFin z /\
                (2 < Rabs z)%R /\ (z * z <= 81 / 10)%R /\
                (anomaly_type a = positive_spike <-> (0 < z)%R))
           (detect_anomalies trends).
Proof.
  intros trends. unfold detect_anomalies.
  destruct (Nat.ltb_spec (length trends) 20) as [L|L]; [constructor|].
  apply List.Forall_map, List.Forall_forall. intros r Hr.
  apply List.filter_In in Hr. destruct Hr as [Hr An].
  destruct trends as [|d trends']; [simpl in L; lia|].
  set (trends := d :: trends') in *.
  rewrite (anomaly_rows_by_index trends d) in Hr.
  apply in_map_iff in Hr. destruct Hr as (i & <- & Hi).
  apply in_seq in Hi.
  assert (Nat.min 10 (length trends / 2) = 10%nat) as W.
  { assert (10 <= length trends / 2)%nat
      by (apply (Nat.div_le_lower_bound (length trends) 2 10); lia).
    lia. }
  rewrite W in *.
  set (df := sort_values trends) in *.
  set (s := map sentiment df) in *.
  assert (length s = length trends) as Ls
    by (unfold s, df; now rewrite length_map, length_sort_values).
  assert (sentiment (nth i df d) = nth i s (sentiment d)) as Ex
    by (unfold s; now rewrite (map_nth sentiment)).
  unfold is_anomaly, make_anomaly, make_row, stats_at in *.
  cbn [row_z_score row_sample row_rolling_mean row_rolling_std fst snd
       anomaly_severity anomaly_z_score anomaly_type] in *.
  destruct (Nat.leb_spec 10 (i + 1)) as [Wi|Wi]; [|discriminate].
  pose proof (AnomalyBound.full_window_length 10 i s Wi ltac:(lia)) as Lw.
  pose proof (window_contains_last 10 i s (sentiment d) ltac:(lia) Wi ltac:(lia))
    as Hin.
  rewrite <- Ex in Hin.
  set (win := window_at 10 i s) in *.
  set (x := sentiment (nth i df d)) in *.
  destruct (std win) as [sd|] eqn:Esd; [|discriminate].
  unfold nan_sub, np_div in *.
  cbn [neqb nltb nsub ndiv of_Z RealNum.real_numeric] in *.
  destruct (RealNum.Reqb sd 0) eqn:Z.
  { apply RealFacts.Reqb_true in Z. subst sd.
    pose proof (AnomalyReal.std_zero_all_mean win Esd) as F.
    rewrite List.Forall_forall in F. rewrite (F x Hin), Rminus_diag in An.
    assert (RealNum.Rltb 0 0 = false) as E0
      by (apply RealFacts.Rltb_false; lra).
    rewrite E0 in An. discriminate. }
  apply RealFacts.Reqb_false in Z.
  destruct (AnomalyBound.z_of_ten_bounded win x sd Lw Hin Esd Z) as [SP B].
  set (z := ((x - mean win) / sd)%R) in *.
  cbn [z_abs_gt z_pos] in *. unfold gtb in *.
  cbn [nltb nabs of_Z RealNum.real_numeric] in *.
  apply RealFacts.Rltb_true in An.
  assert (RealNum.Rltb 3 (Rabs z) = false) as ->.
  { apply RealFacts.Rltb_false.
    destruct (Rle_dec (Rabs z) 3) as [|N]; [assumption|].
    exfalso. assert (3 < Rabs z)%R as G by lra.
    assert (9 < Rabs z * Rabs z)%R by nra.
    assert (Rabs z * Rabs z = z * z)%R
      by (unfold Rabs; destruct (Rcase_abs z); ring).
    lra. }
  split; [reflexivity|].
  exists z. split; [reflexivity|]. split; [exact An|]. split; [exact B|].
  destruct (RealNum.Rltb 0 z) eqn:P.
  - apply RealFacts.Rltb_true in P. tauto.
  - apply RealFacts.Rltb_false in P. split; [discriminate|lra].
Qed.

(** ** Alert evaluation: the whole list *)

Section AlertList.
Context {num : Type} `{Numeric num}.
Local Open Scope num_scope.

(** The threshold key of the first tier a reading matches: what line 331,
    341 or 351 then looks up with [thresholds[key]]. *)
Definition first_tier_key (th : gmap string num) (cur : num) : option string :=
  if cur <=? thresholds_get th "very_negative" (of_Q (-0.8))
  then Some "very_negative"
  else if cur <=? thresholds_get th "negative" (of_Q (-0.3))
  then Some "negative"
  else if cur >=? thresholds_get th "very_positive" (of_Q 0.8)
  then Some "very_positive"
  else None.

Lemma sentiment_alerts_missing_key kw th cur k :
  first_tier_key th cur = Some k -> th !! k = None ->
  sentiment_alerts kw th cur = Raise (KeyError k).
Proof.
  unfold first_tier_key, sentiment_alerts, thresholds_item.
  destruct (cur <=? thresholds_get th "very_negative" (of_Q (-0.8))).
  { intros [= <-] ->. reflexivity. }
  destruct (cur <=? thresholds_get th "negative" (of_Q (-0.3))).
  { intros [= <-] ->. reflexivity. }
  destruct (cur >=? thresholds_get th "very_positive" (of_Q 0.8)).
  { intros [= <-] ->. reflexivity. }
  discriminate.
Qed.

Lemma sentiment_alerts_shape kw th cur tier :
  sentiment_alerts kw th cur = Ok tier ->
  tier = [] \/
  exists a, tier = [a] /\ alert_type a = sentiment_threshold /\
            triggered a = true /\ alert_keyword a = kw.
Proof.
  unfold sentiment_alerts, thresholds_item.
  repeat match goal with
         | |- context [if ?b then _ else _] => destruct b
         | |- context [?th !! ?k] => destruct (th !! k)
         end; cbn [pybind]; intros [= <-];
    first [now left | right; eexists; repeat split].
Qed.

End AlertList.

(** X8: when the reading matches a tier whose key is missing from the
    configured thresholds, the comparison falls back on the default of
    [.get] but the lookup [thresholds[key]] raises [KeyError]; the handler
    of line 384 then returns the empty list, so no alert at all comes out
    of the evaluation, the volume and rapid-change alerts included. *)
Theorem missing_threshold_key_silences_all_alerts :
  forall (num : Type) (N : Numeric num) (cfg : AlertsConfig num) (kw : string)
         (summary : Summary num) (trends6 : list (Sample num)) (k : string),
    enabled cfg = true ->
    first_tier_key (thresholds cfg) (default (of_Z 0) (avg_sentiment summary))
    = Some k ->
    thresholds cfg !! k = None ->
    check_alert_conditions_body cfg kw summary trends6 = Raise (KeyError k) /\
    check_alert_conditions cfg kw summary trends6 = [].
Proof.
  intros num N cfg kw summary trends6 k En Hk Hm.
  unfold check_alert_conditions, check_alert_conditions_body.
  rewrite En. cbn [negb].
  rewrite (sentiment_alerts_missing_key kw _ _ k Hk Hm).
  split; reflexivity.
Qed.

Module MissingKeyExample.
Import FloatNum.

(** No thresholds configured (the default of [AlertsConfig]), a very
    negative hour with many posts. *)
Definition bare_config : AlertsConfig float :=
  {| enabled := true; thresholds := ∅; volume_threshold := 10;
     rapid_change_threshold := 0.3%float |}.

Definition bad_hour : Summary float :=
  {| avg_sentiment := Some (-0.9)%float; total_posts := Some 50%Z |}.

(** The same hour read as mildly negative raises nothing and reports the
    volume. *)
Lemma volume_alert_without_tier :
  map alert_type
    (check_alert_conditions bare_config "k"
       {| avg_sentiment := Some (-0.1)%float; total_posts := Some 50%Z |} [])
  = [volume_spike].
Proof. vm_compute. reflexivity. Qed.

End MissingKeyExample.

Lemma missing_threshold_key_silences_all_alerts_witness :
  check_alert_conditions_body MissingKeyExample.bare_config "k"
    MissingKeyExample.bad_hour [] = Raise (KeyError "very_negative") /\
  check_alert_conditions MissingKeyExample.bare_config "k"
    MissingKeyExample.bad_hour [] = [].
Proof.
  apply (missing_threshold_key_silences_all_alerts float FloatNum.float_numeric
           MissingKeyExample.bare_config "k" MissingKeyExample.bad_hour []
           "very_negative").
  - reflexivity.
  - vm_compute. reflexivity.
  - reflexivity.
Defined.

(** X9: an evaluation returns at most three conditions, at most one of each
    type and always in the order sentiment_threshold, volume_spike,
    rapid_change; each is marked triggered and carries the keyword asked
    about; with alerts disabled the list is empty. *)
Theorem alert_conditions_shape :
  forall (num : Type) (N : Numeric num) (cfg : AlertsConfig num) (kw : string)
         (summary : Summary num) (trends6 : list (Sample num)),
    let alerts := check_alert_conditions cfg kw summary trends6 in
    sublist (map alert_type alerts)
            [sentiment_threshold; volume_spike; rapid_change] /\
    (length alerts <= 3)%nat /\
    Forall (fun a => triggered a = true /\ alert_keyword a = kw) alerts /\
    (enabled cfg = false -> alerts = []).
Proof.
  intros num N cfg kw summary trends6. cbv zeta.
  unfold check_alert_conditions, check_alert_conditions_body.
  destruct (enabled cfg); cbn [negb].
  2:{ repeat split; [apply sublist_nil_l|simpl; lia|constructor]. }
  destruct (sentiment_alerts kw (thresholds cfg)
              (default (of_Z 0) (avg_sentiment summary))) as [tier|e] eqn:E;
    cbn [pybind].
  2:{ repeat split; [apply sublist_nil_l|simpl; lia|constructor]. }
  apply sentiment_alerts_shape in E.
  unfold volume_alerts, rapid_change_alerts.
  destruct E as [->|(a & -> & Ta & Tr & Ka)];
    destruct (_ >? _)%Z; destruct (gtb _ _);
    cbn [app map length alert_type triggered alert_keyword]; rewrite ?Ta;
    (split;
     [repeat first [apply sublist_skip | apply sublist_cons | apply sublist_nil_l]
     |split; [lia|split; [repeat constructor; assumption|discriminate]]]).
Qed.

(** ** The adapters: what they hand to the aggregator *)

Section ScoreDicts.
Context {num : Type} `{Numeric num}.

Lemma dict_get_set_cases {V} (d : list (string * V)) k v k0 v0 :
  dict_get (dict_set d k v) k0 = Some v0 ->
  v0 = v \/ dict_get d k0 = Some v0.
Proof.
  induction d as [|[k' v'] d IH]; simpl.
  - destruct (String.eqb k k0); [intros [= <-]; now left|discriminate].
  - destruct (String.eqb k' k) eqn:E; simpl.
    + apply String.eqb_eq in E. subst k'.
      destruct (String.eqb k k0); [intros [= <-]; now left|now right].
    + destruct (String.eqb k' k0); [now right|exact IH].
Qed.

Lemma dict_get_keys {V} (d : list (string * V)) k v :
  dict_get d k = Some v -> k ∈ dict_keys d.
Proof.
  unfold dict_keys. induction d as [|[k' v'] d IH]; simpl; [discriminate|].
  destruct (String.eqb k' k) eqn:E.
  - apply String.eqb_eq in E. subst k'. intros _. apply elem_of_cons. now left.
  - intros G. apply elem_of_cons. right. now apply IH.
Qed.

(** Every value of the score dict is the score of some result. *)
Lemma scores_of_values (P : num -> Prop) (results : list (RoBERTaAnalyzer.LabelScore num)) :
  Forall (fun r => P (RoBERTaAnalyzer.score r)) results ->
  forall k v, dict_get (RoBERTaAnalyzer.scores_of results) k = Some v -> P v.
Proof.
  unfold RoBERTaAnalyzer.scores_of.
  assert (forall d,
            (forall k v, dict_get d k = Some v -> P v) ->
            Forall (fun r => P (RoBERTaAnalyzer.score r)) results ->
            forall k v,
              dict_get (fold_left
                          (fun d r => dict_set d (str_lower (RoBERTaAnalyzer.label r))
                                        (RoBERTaAnalyzer.score r)) results d) k
              = Some v -> P v) as G.
  { induction results as [|r results IH]; intros d Hd F k v; simpl.
    - apply Hd.
    - apply Forall_cons in F. destruct F as [Hr F].
      apply IH; [|exact F].
      intros k1 v1 E. apply dict_get_set_cases in E.
      destruct E as [->|E]; [exact Hr|now apply (Hd k1)]. }
  intros F. apply G; [discriminate|exact F].
Qed.

(** The keys of the score dict are the lower-cased labels. *)
Lemma scores_of_keys (results : list (RoBERTaAnalyzer.LabelScore num)) k :
  k ∈ dict_keys (RoBERTaAnalyzer.scores_of results) ->
  k ∈ map (fun r => str_lower (RoBERTaAnalyzer.label r)) results.
Proof.
  unfold RoBERTaAnalyzer.scores_of.
  assert (forall d,
            k ∈ dict_keys
                  (fold_left
                     (fun d r => dict_set d (str_lower (RoBERTaAnalyzer.label r))
                                   (RoBERTaAnalyzer.score r)) results d) ->
            k ∈ dict_keys d \/
            k ∈ map (fun r => str_lower (RoBERTaAnalyzer.label r)) results) as G.
  { induction results as [|r results IH]; intros d; simpl; [now left|].
    intros Hk. apply IH in Hk. destruct Hk as [Hk|Hk].
    - apply elem_of_dict_keys_set in Hk. destruct Hk as [->|Hk].
      + right. apply elem_of_cons. now left.
      + now left.
    - right. apply elem_of_cons. now right. }
  intros Hk. apply G in Hk. destruct Hk as [Hk|Hk]; [|exact Hk].
  unfold dict_keys in Hk. simpl in Hk. now apply elem_of_nil in Hk.
Qed.

End ScoreDicts.

Module AdapterReal.
Import RealNum RealFacts.
Local Open Scope R_scope.

(** The scores of the lexicon are in their documented ranges. *)
Definition vader_in_range
    (polarity_scores : text -> pyres (VADERAnalyzer.PolarityScores R)) : Prop :=
  forall t s, polarity_scores t = Ok s ->
    -1 <= VADERAnalyzer.ps_compound s <= 1 /\
    0 <= VADERAnalyzer.ps_pos s <= 1 /\
    0 <= VADERAnalyzer.ps_neu s <= 1 /\
    0 <= VADERAnalyzer.ps_neg s <= 1.

(** The scores of the pipeline are probabilities. *)
Definition roberta_in_range (m : option (RoBERTaAnalyzer.Loaded R)) : Prop :=
  forall m' t out,
    m = Some m' -> RoBERTaAnalyzer.pipeline m' t = Ok out ->
    Forall (fun r => 0 <= RoBERTaAnalyzer.score r <= 1)
           (RoBERTaAnalyzer.unnest out).

Lemma well_formed_intro (r : ModelResult R) :
  -1 <= compound_score r <= 1 -> 0 <= positive_score r <= 1 ->
  0 <= negative_score r <= 1 -> 0 <= neutral_score r <= 1 ->
  0 <= confidence r <= 1 ->
  well_formed r = true.
Proof.
  intros. unfold well_formed. cbn [nleb real_numeric of_Z].
  rewrite !andb_true_iff, !Rleb_true. tauto.
Qed.

Lemma Q2R_0 : Q2R 0.0 = 0.
Proof. unfold Q2R. simpl. lra. Qed.

Lemma fallback_well_formed (name : string) :
  well_formed
    {| model_name := name; compound_score := of_Q 0.0;
       positive_score := of_Q 0.0; negative_score := of_Q 0.0;
       neutral_score := of_Q 1.0; confidence := of_Q 0.0 |} = true.
Proof.
  apply well_formed_intro; cbn; rewrite ?Q2R_0, ?Q2R_one; lra.
Qed.

Lemma vader_well_formed polarity_scores t :
  vader_in_range polarity_scores ->
  well_formed (VADERAnalyzer.analyze polarity_scores t) = true.
Proof.
  intros V. unfold VADERAnalyzer.analyze.
  destruct (polarity_scores t) as [s|e] eqn:E.
  - destruct (V t s E) as (C & P & U & Ng).
    apply well_formed_intro; cbn; try assumption.
    unfold Rabs. destruct (Rcase_abs _); lra.
  - apply fallback_well_formed.
Qed.

(** The score read for a key: 0 when the key is missing. *)
Lemma score_default_bounded (results : list (RoBERTaAnalyzer.LabelScore R)) k :
  Forall (fun r => 0 <= RoBERTaAnalyzer.score r <= 1) results ->
  0 <= default (of_Q 0.0) (dict_get (RoBERTaAnalyzer.scores_of results) k) <= 1.
Proof.
  intros F.
  destruct (dict_get (RoBERTaAnalyzer.scores_of results) k) as [v|] eqn:E.
  - simpl. exact (scores_of_values (fun v => 0 <= v <= 1) results F k v E).
  - cbn. rewrite Q2R_0. lra.
Qed.

Lemma max3_bounded (p n u : R) :
  0 <= p <= 1 -> 0 <= n <= 1 -> 0 <= u <= 1 ->
  0 <= num_max [n; u] p <= 1 /\
  p <= num_max [n; u] p /\ n <= num_max [n; u] p /\ u <= num_max [n; u] p.
Proof.
  intros Hp Hn Hu. unfold num_max. cbn [fold_left nltb real_numeric].
  destruct (Rltb p n) eqn:E1;
    [apply Rltb_true in E1|apply Rltb_false in E1];
    match goal with |- context [Rltb ?a u] => destruct (Rltb a u) eqn:E2 end;
    [apply Rltb_true in E2|apply Rltb_false in E2
    |apply Rltb_true in E2|apply Rltb_false in E2]; lra.
Qed.

Lemma result_of_well_formed (results : list (RoBERTaAnalyzer.LabelScore R)) :
  Forall (fun r => 0 <= RoBERTaAnalyzer.score r <= 1) results ->
  well_formed (RoBERTaAnalyzer.result_of results) = true /\
  Rabs (compound_score (RoBERTaAnalyzer.result_of results))
  <= confidence (RoBERTaAnalyzer.result_of results).
Proof.
  intros F. unfold RoBERTaAnalyzer.result_of. cbv zeta.
  pose proof (score_default_bounded results "positive" F) as P.
  pose proof (score_default_bounded results "negative" F) as Ng.
  pose proof (score_default_bounded results "neutral" F) as U.
  set (p := default _ (dict_get _ "positive")) in *.
  set (n := default _ (dict_get _ "negative")) in *.
  set (u := default _ (dict_get _ "neutral")) in *.
  destruct (max3_bounded p n u P Ng U) as (M & Mp & Mn & Mu).
  split.
  - apply well_formed_intro; cbn [compound_score positive_score negative_score
                                   neutral_score confidence nsub real_numeric];
      try assumption; lra.
  - cbn [compound_score confidence nsub real_numeric].
    unfold Rabs. destruct (Rcase_abs _); lra.
Qed.

Lemma roberta_well_formed (m : option (RoBERTaAnalyzer.Loaded R)) t :
  roberta_in_range m ->
  well_formed (RoBERTaAnalyzer.analyze m t) = true.
Proof.
  intros Rg. unfold RoBERTaAnalyzer.analyze.
  destruct m as [m|]; [|apply fallback_well_formed].
  unfold RoBERTaAnalyzer.analyze_body.
  destruct (RoBERTaAnalyzer.encode m t) as [tokens|e]; cbn [pybind];
    [|apply fallback_well_formed].
  destruct (if (512 <=? length tokens)%nat
            then RoBERTaAnalyzer.decode m (removelast tokens) else Ok t)
    as [t'|e]; cbn [pybind]; [|apply fallback_well_formed].
  destruct (RoBERTaAnalyzer.pipeline m t') as [out|e] eqn:E; cbn [pybind];
    [|apply fallback_well_formed].
  apply result_of_well_formed. exact (Rg m t' out eq_refl E).
Qed.

End AdapterReal.

Module AdapterExample.
Import RealNum.
Local Open Scope R_scope.

Definition lexicon (t : text) : pyres (VADERAnalyzer.PolarityScores R) :=
  Ok {| VADERAnalyzer.ps_compound := 1 / 2; VADERAnalyzer.ps_pos := 3 / 10;
        VADERAnalyzer.ps_neu := 7 / 10; VADERAnalyzer.ps_neg := 0 |}.

(** A model that answers every text with the same three probabilities,
    in upper-case labels. *)
Definition loaded : RoBERTaAnalyzer.Loaded R :=
  {| RoBERTaAnalyzer.encode := fun t => Ok (map Z.of_N t);
     RoBERTaAnalyzer.decode := fun ids => Ok (map Z.to_N ids);
     RoBERTaAnalyzer.pipeline := fun _ =>
       Ok (RoBERTaAnalyzer.Nested
             [[{| RoBERTaAnalyzer.label := "NEGATIVE";
                  RoBERTaAnalyzer.score := 1 / 10 |};
               {| RoBERTaAnalyzer.label := "NEUTRAL";
                  RoBERTaAnalyzer.score := 2 / 10 |};
               {| RoBERTaAnalyzer.label := "POSITIVE";
                  RoBERTaAnalyzer.score := 7 / 10 |}]]) |}.

Definition no_models : SentimentConfig R :=
  {| models := ∅; sentiment_confidence_threshold := 7 / 10 |}.

Lemma lexicon_in_range : AdapterReal.vader_in_range lexicon.
Proof.
  intros t s [= <-]. cbn. repeat split; lra.
Qed.

Lemma loaded_in_range : AdapterReal.roberta_in_range (Some loaded).
Proof.
  intros m' t out [= <-] [= <-]. cbn. repeat constructor; cbn; lra.
Qed.

End AdapterExample.

(** X10: with the lexicon's scores in their documented ranges and the
    pipeline's scores in [0, 1], every analyzer that [__init__] registers
    answers every text, never raises, and its result has the compound in
    [-1, 1] and the other four scores in [0, 1]: the fallback results of the
    error paths included. *)
Theorem registered_analyzers_stay_in_range :
  forall (cfg : SentimentConfig R)
         (polarity_scores : text -> pyres (VADERAnalyzer.PolarityScores R))
         (roberta : option (RoBERTaAnalyzer.Loaded R)),
    AdapterReal.vader_in_range polarity_scores ->
    AdapterReal.roberta_in_range roberta ->
    Forall (fun entry =>
              forall t, exists r, snd entry t = Ok r /\ well_formed r = true)
           (init_analyzers cfg polarity_scores roberta).
Proof.
  intros cfg ps roberta V Rg. unfold init_analyzers.
  constructor.
  { intros t. eexists. split; [reflexivity|].
    now apply AdapterReal.vader_well_formed. }
  destruct (model_enabled cfg "roberta"); [|constructor].
  destruct roberta as [m|] eqn:E; [|constructor].
  constructor; [|constructor].
  intros t. eexists. split; [reflexivity|].
  now apply AdapterReal.roberta_well_formed.
Qed.

Lemma registered_analyzers_stay_in_range_witness :
  Forall (fun entry =>
            forall t, exists r, snd entry t = Ok r /\ well_formed r = true)
         (init_analyzers AdapterExample.no_models AdapterExample.lexicon
            (Some AdapterExample.loaded)).
Proof.
  apply registered_analyzers_stay_in_range.
  - exact AdapterExample.lexicon_in_range.
  - exact AdapterExample.loaded_in_range.
Defined.

(** X11: the scores of the pipeline are looked up under the lower-cased
    labels 'positive', 'negative' and 'neutral' only.  When no label of the
    output lower-cases to one of the three (a model that answers LABEL_0,
    LABEL_1, LABEL_2), every lookup falls back on 0.0: the result has
    compound 0 and confidence 0 whatever the scores, and its label is
    'neutral'. *)
Theorem unknown_labels_give_a_silent_zero :
  forall results : list (RoBERTaAnalyzer.LabelScore R),
    Forall (fun r =>
              str_lower (RoBERTaAnalyzer.label r) <> "positive" /\
              str_lower (RoBERTaAnalyzer.label r) <> "negative" /\
              str_lower (RoBERTaAnalyzer.label r) <> "neutral") results ->
    compound_score (RoBERTaAnalyzer.result_of results) = 0%R /\
    positive_score (RoBERTaAnalyzer.result_of results) = 0%R /\
    negative_score (RoBERTaAnalyzer.result_of results) = 0%R /\
    neutral_score (RoBERTaAnalyzer.result_of results) = 0%R /\
    confidence (RoBERTaAnalyzer.result_of results) = 0%R /\
    get_sentiment_label (compound_score (RoBERTaAnalyzer.result_of results))
    = neutral.
Proof.
  intros results F.
  assert (forall k, k = "positive" \/ k = "negative" \/ k = "neutral" ->
            dict_get (RoBERTaAnalyzer.scores_of results) k = None) as G.
  { intros k Hk.
    destruct (dict_get (RoBERTaAnalyzer.scores_of results) k) as [v|] eqn:E;
      [|reflexivity].
    exfalso. apply dict_get_keys, scores_of_keys in E.
    apply list_elem_of_In, in_map_iff in E. destruct E as (r & Er & Hr).
    rewrite List.Forall_forall in F. specialize (F r Hr).
    destruct Hk as [->|[->| ->]]; tauto. }
  unfold RoBERTaAnalyzer.result_of. cbv zeta.
  rewrite !G by tauto.
  cbn [default compound_score positive_score negative_score neutral_score
       confidence].
  unfold num_max, get_sentiment_label, geb.
  cbn [fold_left of_Q nsub nltb nleb RealNum.real_numeric].
  rewrite AdapterReal.Q2R_0, Rminus_diag.
  assert (RealNum.Rltb 0 0 = false) as E0 by (apply RealFacts.Rltb_false; lra).
  rewrite E0. cbv iota. rewrite E0. cbv iota.
  assert (RealNum.Rleb (Q2R 0.05) 0 = false) as ->.
  { apply RealFacts.Rleb_false. unfold Q2R. simpl. lra. }
  assert (RealNum.Rleb 0 (Q2R (-0.05)) = false) as ->.
  { apply RealFacts.Rleb_false. unfold Q2R. simpl. lra. }
  repeat split; reflexivity.
Qed.

Lemma unknown_labels_give_a_silent_zero_witness :
  confidence
    (RoBERTaAnalyzer.result_of
       [{| RoBERTaAnalyzer.label := "LABEL_0"; RoBERTaAnalyzer.score := (1 / 10)%R |};
        {| RoBERTaAnalyzer.label := "LABEL_1"; RoBERTaAnalyzer.score := (1 / 10)%R |};
        {| RoBERTaAnalyzer.label := "LABEL_2"; RoBERTaAnalyzer.score := (8 / 10)%R |}])
  = 0%R.
Proof.
  apply (unknown_labels_give_a_silent_zero
           [{| RoBERTaAnalyzer.label := "LABEL_0"; RoBERTaAnalyzer.score := (1 / 10)%R |};
            {| RoBERTaAnalyzer.label := "LABEL_1"; RoBERTaAnalyzer.score := (1 / 10)%R |};
            {| RoBERTaAnalyzer.label := "LABEL_2"; RoBERTaAnalyzer.score := (8 / 10)%R |}]).
  repeat constructor; vm_compute; discriminate.
Defined.

(** ** A failed neural model in the aggregate *)

(** X12: when the neural adapter fails on a text its error result (compound
    0, confidence 0) is still aggregated, under the key "twitter" and so
    with weight 1.0.  Next to a lexicon result of compound [c] and
    confidence [cf] weighted [vw >= 0], the aggregate has, without
    rounding, compound [vw * c / (vw + 1)] and confidence
    [vw * cf / (vw + 1)]: two sevenths of the lexicon's with the default
    weight 0.4. *)
Theorem failed_neural_result_dilutes_the_aggregate :
  forall (w : Weights R) (v : ModelResult R),
    model_name v = "vader" ->
    (0 <= vader_weight w)%R ->
    exists a,
      get_weighted_sentiment w [v; RoBERTaAnalyzer._get_error_result] = Some a /\
      agg_compound a
      = (vader_weight w * compound_score v / (vader_weight w + 1))%R /\
      agg_confidence a
      = (vader_weight w * confidence v / (vader_weight w + 1))%R /\
      model_count a = 2%nat /\
      models_used a = ["vader"; "twitter"] /\
      (vader_weight w = Q2R 0.4 ->
       agg_compound a = (2 / 7 * compound_score v)%R).
Proof.
  intros w v Hn Hw.
  rewrite get_weighted_sentiment_cons.
  unfold accumulate. cbn [fold_left]. unfold acc_step.
  rewrite Hn.
  change (model_key "vader") with "vader".
  change (model_key (model_name RoBERTaAnalyzer._get_error_result))
    with "twitter".
  change (weights_get w "vader") with (vader_weight w).
  change (weights_get w "twitter") with (of_Q (num := R) 1.0).
  cbn [total_weight weighted_compound weighted_positive weighted_negative
       weighted_neutral weighted_confidence model_results acc0
       compound_score positive_score negative_score neutral_score confidence
       RoBERTaAnalyzer._get_error_result
       of_Z of_Q nadd nmul ndiv neqb RealNum.real_numeric].
  rewrite RealFacts.Q2R_one, AdapterReal.Q2R_0.
  set (vw := vader_weight w) in *.
  assert (RealNum.Reqb (0 + vw + 1) 0 = false) as ->
    by (apply RealFacts.Reqb_false; lra).
  eexists. split; [reflexivity|].
  cbn [agg_compound agg_confidence model_count models_used dict_keys
       dict_set map fst length].
  split; [field; lra|]. split; [field; lra|].
  split; [reflexivity|]. split; [reflexivity|].
  intros E. rewrite E. unfold Q2R. simpl. field.
Qed.

Lemma failed_neural_result_dilutes_the_aggregate_witness :
  exists a,
    get_weighted_sentiment default_weights
      [AggregatorReal.real_vader; RoBERTaAnalyzer._get_error_result] = Some a /\
    agg_compound a = (2 / 7 * (4 / 5))%R.
Proof.
  destruct (failed_neural_result_dilutes_the_aggregate default_weights
              AggregatorReal.real_vader eq_refl
              (proj1 AggregatorReal.default_weights_nonneg))
    as (a & E & _ & _ & _ & _ & D).
  exists a. split; [exact E|]. apply D. reflexivity.
Defined.

(** ** One text through the analyzers *)

Section AnalyzeText.
Context {num : Type} `{Numeric num}.

Lemma lstrip_blank (t : text) :
  Forall (fun c => is_space c = true) t -> lstrip t = [].
Proof.
  induction 1 as [|c t Hc _ IH]; simpl; [reflexivity|]. now rewrite Hc.
Qed.

Lemma strip_blank (t : text) :
  Forall (fun c => is_space c = true) t -> strip t = [].
Proof. intros F. unfold strip. now rewrite (lstrip_blank t F). Qed.

(** What one analyzer adds to the results. *)
Definition contribution (cfg : SentimentConfig num) (processed_text : text)
    (entry : string * Analyzer num) : list (ModelResult num) :=
  if model_enabled cfg (fst entry) then
    match snd entry processed_text with
    | Ok result => [result]
    | Raise _ => []
    end
  else [].

Lemma analyze_loop (cfg : SentimentConfig num) (p : text) analyzers :
  forall results,
    fold_left (analyze_step cfg p) analyzers results
    = results ++ flat_map (contribution cfg p) analyzers.
Proof.
  induction analyzers as [|e analyzers IH]; intros results; simpl.
  - now rewrite app_nil_r.
  - rewrite IH. unfold analyze_step, contribution.
    destruct (model_enabled cfg (fst e)); cbn [negb].
    + destruct (snd e p); [now rewrite <- app_assoc|reflexivity].
    + reflexivity.
Qed.

Lemma contribution_length cfg p (e : string * Analyzer num) :
  (length (contribution cfg p e) <= 1)%nat.
Proof.
  unfold contribution. destruct (model_enabled cfg (fst e)); [|simpl; lia].
  destruct (snd e p); simpl; lia.
Qed.

Lemma flat_map_contribution_length cfg p (analyzers : list (string * Analyzer num)) :
  (length (flat_map (contribution cfg p) analyzers) <= length analyzers)%nat.
Proof.
  induction analyzers as [|e analyzers IH]; simpl; [lia|].
  rewrite length_app. pose proof (contribution_length cfg p e). lia.
Qed.

(** [analyze_text] by cases. *)
Lemma analyze_text_cases cfg tp (analyzers : list (string * Analyzer num)) t :
  analyze_text cfg tp analyzers t = []
  \/ (preprocess tp t <> [] /\
      analyze_text cfg tp analyzers t
      = flat_map (contribution cfg (preprocess tp t)) analyzers).
Proof.
  unfold analyze_text.
  destruct t as [|c t']; [now left|].
  destruct (strip (c :: t')); [now left|].
  destruct (preprocess tp (c :: t')) as [|c' p'] eqn:E; [now left|].
  right. split; [discriminate|]. now rewrite analyze_loop.
Qed.

Lemma analyze_text_In cfg tp (analyzers : list (string * Analyzer num)) t r :
  In r (analyze_text cfg tp analyzers t) ->
  exists name analyze,
    In (name, analyze) analyzers /\ model_enabled cfg name = true /\
    analyze (preprocess tp t) = Ok r.
Proof.
  intros Hr.
  destruct (analyze_text_cases cfg tp analyzers t) as [E | [_ E]];
    rewrite E in Hr; [contradiction|].
  apply in_flat_map in Hr. destruct Hr as ([name analyze] & He & Hc).
  exists name, analyze. split; [exact He|].
  unfold contribution in Hc. cbn [fst snd] in Hc.
  destruct (model_enabled cfg name); [|contradiction].
  split; [reflexivity|].
  destruct (analyze (preprocess tp t)) as [r'|e]; [|contradiction].
  destruct Hc as [->|[]]. reflexivity.
Qed.

End AnalyzeText.

(** X13: [analyze_text] answers with no result at all for an empty text, for
    a text of whitespace only, and for a text the normalizer reduces to
    nothing (a bare URL, with URL removal on).  Otherwise it returns, in
    the order of registration, the result of each enabled analyzer on the
    normalized text, an analyzer that raises being skipped: at most one
    result per analyzer. *)
Theorem analyze_text_results :
  forall (num : Type) (N : Numeric num) (cfg : SentimentConfig num)
         (tp : TextProcessingConfig)
         (analyzers : list (string * Analyzer num)) (t : text),
    (Forall (fun c => is_space c = true) t ->
     analyze_text cfg tp analyzers t = []) /\
    (preprocess tp t = [] -> analyze_text cfg tp analyzers t = []) /\
    (length (analyze_text cfg tp analyzers t) <= length analyzers)%nat /\
    (forall r, In r (analyze_text cfg tp analyzers t) ->
       exists name analyze,
         In (name, analyze) analyzers /\ model_enabled cfg name = true /\
         analyze (preprocess tp t) = Ok r) /\
    (strip t <> [] -> preprocess tp t <> [] ->
     analyze_text cfg tp analyzers t
     = flat_map (contribution cfg (preprocess tp t)) analyzers).
Proof.
  intros num N cfg tp analyzers t.
  split; [|split; [|split; [|split]]].
  - intros F. unfold analyze_text.
    destruct t as [|c t']; [reflexivity|]. now rewrite (strip_blank _ F).
  - intros E. unfold analyze_text.
    destruct t as [|c t']; [reflexivity|]. rewrite E.
    destruct (strip _); reflexivity.
  - destruct (analyze_text_cases cfg tp analyzers t) as [-> | [_ ->]];
      [simpl; lia|apply flat_map_contribution_length].
  - intros r Hr. now apply analyze_text_In.
  - intros S P. unfold analyze_text.
    destruct t as [|c t']; [contradiction|].
    destruct (strip (c :: t')); [contradiction|].
    destruct (preprocess tp (c :: t')) as [|c' p']; [contradiction|].
    now rewrite analyze_loop.
Qed.

Module AnalyzeTextExample.
Import FloatNum.

Definition one_url : text := text_of_string "https://example.com/a?b=1".

Lemma one_url_normalizes_to_nothing :
  strip one_url <> [] /\ preprocess default_text_processing one_url = [].
Proof. split; [vm_compute; discriminate|vm_compute; reflexivity]. Qed.

End AnalyzeTextExample.

(** ** A batch of texts *)

Section Batch.
Context {num : Type} `{Numeric num}.

Lemma batch_loop cfg tp (analyzers : list (string * Analyzer num)) texts :
  forall i results,
    fold_left
      (fun st t => (S (fst st),
                    snd st ++ [batch_entry cfg tp analyzers (fst st) t]))
      texts (i, results)
    = ((i + length texts)%nat,
       results ++ map (fun p => batch_entry cfg tp analyzers (fst p) (snd p))
                      (combine (seq i (length texts)) texts)).
Proof.
  induction texts as [|t texts IH]; intros i results; simpl.
  - now rewrite Nat.add_0_r, app_nil_r.
  - rewrite IH. cbn [fst snd]. f_equal; [lia|].
    now rewrite <- app_assoc.
Qed.

Lemma analyze_batch_enumerate cfg tp (analyzers : list (string * Analyzer num)) texts :
  analyze_batch cfg tp analyzers texts
  = map (fun p => batch_entry cfg tp analyzers (fst p) (snd p))
        (combine (seq 0 (length texts)) texts).
Proof. unfold analyze_batch. now rewrite batch_loop. Qed.

Lemma nth_error_enumerate {A} (l : list A) (i : nat) (a : A) :
  nth_error l i = Some a ->
  nth_error (combine (seq 0 (length l)) l) i = Some (i, a).
Proof.
  intros E.
  assert (forall b (l : list A) i a, nth_error l i = Some a ->
            nth_error (combine (seq b (length l)) l) i = Some ((b + i)%nat, a))
    as G.
  { clear. intros b l. revert b.
    induction l as [|x l IH]; intros b [|i] a; simpl; try discriminate.
    - intros [= ->]. now rewrite Nat.add_0_r.
    - intros E. rewrite (IH (S b) i a E). f_equal. f_equal. lia. }
  exact (G 0%nat l i a E).
Qed.

End Batch.

(** X14: [analyze_batch] returns one entry per text, in order; the entry at
    position [i] is computed from text [i] and, when it is not [None],
    carries [text_index = i], the label of its own compound and the
    confidence test of its own confidence.  A text that yields no result
    (blank, or no analyzer answered) leaves [None] at its position, it is
    not skipped. *)
Theorem analyze_batch_is_aligned :
  forall (num : Type) (N : Numeric num) (cfg : SentimentConfig num)
         (tp : TextProcessingConfig)
         (analyzers : list (string * Analyzer num)) (texts : list text),
    length (analyze_batch cfg tp analyzers texts) = length texts /\
    (forall i t, nth_error texts i = Some t ->
       nth_error (analyze_batch cfg tp analyzers texts) i
       = Some (batch_entry cfg tp analyzers i t)) /\
    (forall i e,
       nth_error (analyze_batch cfg tp analyzers texts) i = Some (Some e) ->
       text_index e = i /\
       sentiment_label e = get_sentiment_label (agg_compound (weighted e)) /\
       high_confidence e = is_high_confidence cfg (agg_confidence (weighted e)) /\
       exists t, nth_error texts i = Some t /\
                 get_weighted_sentiment (configured_weights cfg)
                   (analyze_text cfg tp analyzers t) = Some (weighted e)) /\
    (forall i t, nth_error texts i = Some t ->
       Forall (fun c => is_space c = true) t ->
       nth_error (analyze_batch cfg tp analyzers texts) i = Some None).
Proof.
  intros num N cfg tp analyzers texts.
  assert (length (analyze_batch cfg tp analyzers texts) = length texts) as L.
  { rewrite analyze_batch_enumerate, length_map, length_combine, length_seq.
    lia. }
  assert (forall i t, nth_error texts i = Some t ->
            nth_error (analyze_batch cfg tp analyzers texts) i
            = Some (batch_entry cfg tp analyzers i t)) as A.
  { intros i t E. rewrite analyze_batch_enumerate, nth_error_map.
    now rewrite (nth_error_enumerate texts i t E). }
  split; [exact L|]. split; [exact A|]. split.
  - intros i e E.
    destruct (nth_error texts i) as [t|] eqn:Et.
    2:{ apply nth_error_None in Et.
        assert (nth_error (analyze_batch cfg tp analyzers texts) i = None) as X
          by (apply nth_error_None; lia).
        congruence. }
    rewrite (A i t Et) in E. injection E as E.
    unfold batch_entry in E.
    destruct (get_weighted_sentiment (configured_weights cfg)
                (analyze_text cfg tp analyzers t)) as [w|] eqn:W;
      [|discriminate].
    injection E as <-. cbn.
    repeat split. exists t. split; [reflexivity|exact W].
  - intros i t E F. rewrite (A i t E). f_equal.
    unfold batch_entry.
    assert (analyze_text cfg tp analyzers t = []) as ->.
    { unfold analyze_text. destruct t as [|c t']; [reflexivity|].
      now rewrite (strip_blank _ F). }
    reflexivity.
Qed.

(** ** From the libraries' scores to the entries of a batch *)

Module BatchReal.
Import RealNum RealFacts.
Local Open Scope R_scope.

(** An aggregate of well-formed results under non-negative weights. *)
Lemma aggregate_in_range (w : Weights R) (rs : list (ModelResult R)) a :
  0 <= vader_weight w -> 0 <= roberta_weight w ->
  Forall (fun r => well_formed r = true) rs ->
  get_weighted_sentiment w rs = Some a ->
  -1 <= agg_compound a <= 1 /\ 0 <= agg_positive a <= 1 /\
  0 <= agg_negative a <= 1 /\ 0 <= agg_neutral a <= 1 /\
  0 <= agg_confidence a <= 1.
Proof.
  intros Hv Hr F E.
  destruct rs as [|r0 rs]; [discriminate|].
  rewrite get_weighted_sentiment_cons in E.
  destruct (AggregatorReal.accumulate_bounded w (r0 :: rs) Hv Hr F)
    as (HT & HC & HP & HN & HU & HF).
  cbn [neqb ndiv real_numeric of_Z] in E.
  destruct (Reqb (total_weight (accumulate w (r0 :: rs))) 0) eqn:Z;
    [discriminate|].
  apply Reqb_false in Z. injection E as <-.
  assert (0 < total_weight (accumulate w (r0 :: rs))) as Hpos by lra.
  cbn [agg_compound agg_positive agg_negative agg_neutral agg_confidence].
  split; [now apply AggregatorReal.div_in_sym_unit|].
  repeat split; now apply AggregatorReal.div_in_unit.
Qed.

End BatchReal.

(** X15: end to end, without rounding: with the lexicon's and the
    pipeline's scores in their ranges and non-negative configured weights,
    every entry of a batch analysed by the registered analyzers has its
    compound in [-1, 1] and its positive, negative, neutral and confidence
    scores in [0, 1], whatever the texts, the normalizer settings and the
    failures of the neural model. *)
Theorem batch_entries_stay_in_range :
  forall (cfg : SentimentConfig R) (tp : TextProcessingConfig)
         (polarity_scores : text -> pyres (VADERAnalyzer.PolarityScores R))
         (roberta : option (RoBERTaAnalyzer.Loaded R)) (texts : list text),
    AdapterReal.vader_in_range polarity_scores ->
    AdapterReal.roberta_in_range roberta ->
    (0 <= vader_weight (configured_weights cfg))%R ->
    (0 <= roberta_weight (configured_weights cfg))%R ->
    Forall (fun entry =>
              match entry with
              | Some e =>
                  (-1 <= agg_compound (weighted e) <= 1)%R /\
                  (0 <= agg_positive (weighted e) <= 1)%R /\
                  (0 <= agg_negative (weighted e) <= 1)%R /\
                  (0 <= agg_neutral (weighted e) <= 1)%R /\
                  (0 <= agg_confidence (weighted e) <= 1)%R
              | None => True
              end)
           (analyze_batch cfg tp (init_analyzers cfg polarity_scores roberta)
              texts).
Proof.
  intros cfg tp ps roberta texts V Rg Hv Hr.
  rewrite analyze_batch_enumerate.
  apply List.Forall_map, List.Forall_forall. intros [i t] _.
  cbn [fst snd]. unfold batch_entry.
  destruct (get_weighted_sentiment (configured_weights cfg)
              (analyze_text cfg tp (init_analyzers cfg ps roberta) t))
    as [w|] eqn:W; [|exact I].
  cbn [weighted].
  eapply (BatchReal.aggregate_in_range (configured_weights cfg));
    [exact Hv|exact Hr| |exact W].
  apply List.Forall_forall. intros r Hin.
  apply analyze_text_In in Hin. destruct Hin as (name & f & Hf & _ & Ok_r).
  assert (Forall (fun entry : string * Analyzer R =>
                    forall t, exists r, snd entry t = Ok r /\ well_formed r = true)
                 (init_analyzers cfg ps roberta)) as F.
  { unfold init_analyzers. constructor.
    { intros t0. eexists. split; [reflexivity|].
      now apply AdapterReal.vader_well_formed. }
    destruct (model_enabled cfg "roberta"); [|constructor].
    destruct roberta as [m|] eqn:E; [|constructor].
    constructor; [|constructor].
    intros t0. eexists. split; [reflexivity|].
    now apply AdapterReal.roberta_well_formed. }
  rewrite List.Forall_forall in F.
  destruct (F (name, f) Hf (preprocess tp t)) as (r' & E' & WF).
  cbn [snd] in E'. congruence.
Qed.

Lemma batch_entries_stay_in_range_witness :
  Forall (fun entry =>
            match entry with
            | Some e =>
                (-1 <= agg_compound (weighted e) <= 1)%R /\
                (0 <= agg_positive (weighted e) <= 1)%R /\
                (0 <= agg_negative (weighted e) <= 1)%R /\
                (0 <= agg_neutral (weighted e) <= 1)%R /\
                (0 <= agg_confidence (weighted e) <= 1)%R
            | None => True
            end)
         (analyze_batch AdapterExample.no_models default_text_processing
            (init_analyzers AdapterExample.no_models AdapterExample.lexicon
               (Some AdapterExample.loaded))
            [text_of_string "good"; text_of_string " "]).
Proof.
  apply batch_entries_stay_in_range.
  - exact AdapterExample.lexicon_in_range.
  - exact AdapterExample.loaded_in_range.
  - unfold configured_weights, AdapterExample.no_models.
    cbn [vader_weight models]. rewrite lookup_empty.
    cbn. unfold Q2R. simpl. lra.
  - unfold configured_weights, AdapterExample.no_models.
    cbn [roberta_weight models]. rewrite lookup_empty.
    cbn. unfold Q2R. simpl. lra.
Defined.

(** ** Recommendations: order and cut *)

Definition critical_text : string :=
  "Critical alerts detected - immediate response required".
Definition anomalies_text : string :=
  "Multiple anomalies detected - investigate unusual activity".
Definition volatility_text : string :=
  "High volatility detected - sentiment may be unstable".

(** Every recommendation there is, in the order the groups are visited. *)
Definition all_recommendations : list string :=
  ["Consider expanding data collection - low post volume detected";
   "High engagement detected - monitor for emerging trends";
   "Negative sentiment detected - investigate potential issues or crises";
   "Positive sentiment detected - consider leveraging this momentum";
   "Strong declining trend - immediate attention recommended";
   "Strong positive trend - monitor for optimization opportunities";
   "Bearish momentum - prepare for potential negative sentiment increase";
   "Bullish momentum - positive sentiment trend likely to continue";
   critical_text; anomalies_text; volatility_text].

Section Recommendations.
Context {num : Type} `{Numeric num}.
Local Open Scope num_scope.

Ltac pick := repeat first [apply sublist_skip | apply sublist_cons
                          | apply sublist_nil_l].

Lemma volume_sublist (s : SummaryStats num) :
  sublist (volume_recommendation s) (firstn 2 all_recommendations)
  /\ (length (volume_recommendation s) <= 1)%nat.
Proof.
  unfold volume_recommendation. cbv zeta.
  destruct (_ <? _)%Z; [split; [pick|simpl; lia]|].
  destruct (_ >? _)%Z; split; try pick; simpl; lia.
Qed.

Lemma sentiment_sublist (s : SummaryStats num) :
  sublist (sentiment_recommendation s) (firstn 2 (skipn 2 all_recommendations))
  /\ (length (sentiment_recommendation s) <= 1)%nat.
Proof.
  unfold sentiment_recommendation. cbv zeta.
  destruct (_ <? _); [split; [pick|simpl; lia]|].
  destruct (_ >? _); split; try pick; simpl; lia.
Qed.

Lemma trend_sublist (t : TrendsDict num) :
  sublist (trend_recommendation t) (firstn 2 (skipn 4 all_recommendations))
  /\ (length (trend_recommendation t) <= 1)%nat.
Proof.
  unfold trend_recommendation.
  destruct (direction t); try (split; [pick|simpl; lia]);
    destruct (_ >? _); split; try pick; simpl; lia.
Qed.

Lemma momentum_sublist (m : MomentumDict num) :
  sublist (momentum_recommendation m) (firstn 2 (skipn 6 all_recommendations))
  /\ (length (momentum_recommendation m) <= 1)%nat.
Proof.
  unfold momentum_recommendation.
  destruct (momentum_signal_get m); split; try pick; simpl; lia.
Qed.

Lemma critical_sublist (alerts : list (AlertDict num)) :
  sublist (critical_recommendation alerts) [critical_text].
Proof.
  unfold critical_recommendation. destruct (List.filter _ _); pick.
Qed.

Lemma anomaly_sublist (anomalies : list (Anomaly num)) :
  sublist (anomaly_recommendation anomalies) [anomalies_text].
Proof. unfold anomaly_recommendation. destruct (_ <? _)%nat; pick. Qed.

Lemma volatility_sublist (m : MomentumDict num) :
  sublist (volatility_recommendation m) [volatility_text].
Proof. unfold volatility_recommendation. destruct (nan_ltb _ _); pick. Qed.

(** The seven groups before the cut. *)
Definition uncut {VC} (insights : Insights num VC) : list string :=
  volume_recommendation (insights_summary insights)
  ++ sentiment_recommendation (insights_summary insights)
  ++ trend_recommendation (insights_trends insights)
  ++ momentum_recommendation (insights_momentum insights)
  ++ critical_recommendation (insights_alerts insights)
  ++ anomaly_recommendation (insights_anomalies insights)
  ++ volatility_recommendation (insights_momentum insights).

Lemma uncut_sublist {VC} (insights : Insights num VC) :
  sublist (uncut insights) all_recommendations.
Proof.
  unfold uncut.
  change all_recommendations
    with (firstn 2 all_recommendations
          ++ firstn 2 (skipn 2 all_recommendations)
          ++ firstn 2 (skipn 4 all_recommendations)
          ++ firstn 2 (skipn 6 all_recommendations)
          ++ [critical_text] ++ [anomalies_text] ++ [volatility_text]).
  repeat apply sublist_app;
    first [apply volume_sublist | apply sentiment_sublist
          | apply trend_sublist | apply momentum_sublist
          | apply critical_sublist | apply anomaly_sublist
          | apply volatility_sublist].
Qed.

Lemma all_recommendations_NoDup : NoDup all_recommendations.
Proof.
  apply NoDup_ListNoDup.
  repeat (constructor; [simpl; intuition discriminate|]). constructor.
Qed.

(** A critical alert puts its recommendation among the first five. *)
Lemma critical_kept {VC} (insights : Insights num VC) :
  Exists (fun a => alert_dict_severity a = critical) (insights_alerts insights) ->
  In critical_text (_generate_recommendations insights).
Proof.
  intros Ex. unfold _generate_recommendations.
  destruct (volume_sublist (insights_summary insights)) as [_ L1].
  destruct (sentiment_sublist (insights_summary insights)) as [_ L2].
  destruct (trend_sublist (insights_trends insights)) as [_ L3].
  destruct (momentum_sublist (insights_momentum insights)) as [_ L4].
  assert (critical_recommendation (insights_alerts insights) = [critical_text])
    as ->.
  { unfold critical_recommendation.
    destruct (List.filter _ _) as [|a l] eqn:E; [|reflexivity].
    exfalso. apply List.Exists_exists in Ex. destruct Ex as (a & Ha & Sa).
    assert (In a (List.filter
                    (fun a => is_critical (alert_dict_severity a))
                    (insights_alerts insights))) as Hin
      by (apply List.filter_In; split; [exact Ha|now rewrite Sa]).
    rewrite E in Hin. contradiction. }
  set (g1 := volume_recommendation _) in *.
  set (g2 := sentiment_recommendation _) in *.
  set (g3 := trend_recommendation _) in *.
  set (g4 := momentum_recommendation _) in *.
  rewrite !app_assoc.
  rewrite <- (app_assoc _ [critical_text]).
  rewrite <- !app_assoc.
  rewrite (app_assoc g1), (app_assoc (g1 ++ g2)), (app_assoc ((g1 ++ g2) ++ g3)).
  set (pre := ((g1 ++ g2) ++ g3) ++ g4).
  assert (length pre <= 4)%nat as Lp
    by (unfold pre; rewrite !length_app; lia).
  rewrite firstn_app.
  apply in_or_app. right.
  destruct (5 - length pre)%nat as [|k] eqn:K; [lia|].
  cbn [app firstn]. now left.
Qed.

Lemma recommendations_sublist {VC} (insights : Insights num VC) :
  sublist (_generate_recommendations insights) all_recommendations.
Proof.
  unfold _generate_recommendations. fold (uncut insights).
  etransitivity; [apply sublist_take|apply uncut_sublist].
Qed.

End Recommendations.

(** X16: the recommendations are at most five, pairwise distinct, and always
    in the fixed order volume, sentiment, trend, momentum, critical alerts,
    anomalies, volatility (a sublist of the eleven texts in that order). *)
Theorem recommendations_keep_priority_order :
  forall (num : Type) (N : Numeric num) (VC : Type)
         (insights : Insights num VC),
    sublist (_generate_recommendations insights) all_recommendations /\
    (length (_generate_recommendations insights) <= 5)%nat /\
    NoDup (_generate_recommendations insights).
Proof.
  intros num N VC insights.
  pose proof (recommendations_sublist insights) as S.
  split; [exact S|]. split.
  - unfold _generate_recommendations. rewrite length_firstn. lia.
  - eapply sublist_NoDup; [apply all_recommendations_NoDup|exact S].
Qed.

(** X17: a critical alert is always answered by its recommendation: at most
    four recommendations precede it, so the cut to five never removes it.
    The two groups after it can be cut: when the volume, sentiment, trend,
    momentum and critical groups all speak, the anomalies and volatility
    recommendations are dropped whatever the anomalies and the
    volatility. *)
Theorem critical_kept_anomalies_and_volatility_cut :
  forall (num : Type) (N : Numeric num) (VC : Type)
         (insights : Insights num VC),
    (Exists (fun a => alert_dict_severity a = critical)
            (insights_alerts insights) ->
     In critical_text (_generate_recommendations insights)) /\
    (volume_recommendation (insights_summary insights) <> [] ->
     sentiment_recommendation (insights_summary insights) <> [] ->
     trend_recommendation (insights_trends insights) <> [] ->
     momentum_recommendation (insights_momentum insights) <> [] ->
     critical_recommendation (insights_alerts insights) <> [] ->
     ~ In anomalies_text (_generate_recommendations insights) /\
     ~ In volatility_text (_generate_recommendations insights) /\
     length (_generate_recommendations insights) = 5%nat).
Proof.
  intros num N VC insights. split; [apply critical_kept|].
  intros N1 N2 N3 N4 N5.
  pose proof (recommendations_sublist insights) as S.
  unfold _generate_recommendations in *.
  destruct (volume_sublist (insights_summary insights)) as [S1 L1].
  destruct (sentiment_sublist (insights_summary insights)) as [S2 L2].
  destruct (trend_sublist (insights_trends insights)) as [S3 L3].
  destruct (momentum_sublist (insights_momentum insights)) as [S4 L4].
  pose proof (critical_sublist (insights_alerts insights)) as S5.
  destruct (volume_recommendation _) as [|a1 [|? ?]]; [contradiction| |simpl in L1; lia].
  destruct (sentiment_recommendation _) as [|a2 [|? ?]]; [contradiction| |simpl in L2; lia].
  destruct (trend_recommendation _) as [|a3 [|? ?]]; [contradiction| |simpl in L3; lia].
  destruct (momentum_recommendation _) as [|a4 [|? ?]]; [contradiction| |simpl in L4; lia].
  destruct (critical_recommendation _) as [|a5 l5]; [contradiction|].
  cbn [app firstn] in *.
  assert (NoDup [a1; a2; a3; a4; a5]) as ND
    by (eapply sublist_NoDup; [apply all_recommendations_NoDup|exact S]).
  assert (a5 = critical_text) as ->.
  { assert (a5 ∈ [critical_text]) as H5
      by (eapply elem_of_sublist; [apply elem_of_cons; now left|exact S5]).
    now apply list_elem_of_singleton in H5. }
  assert (forall a, In a (firstn 2 all_recommendations) \/
                    In a (firstn 2 (skipn 2 all_recommendations)) \/
                    In a (firstn 2 (skipn 4 all_recommendations)) \/
                    In a (firstn 2 (skipn 6 all_recommendations)) ->
                    a <> anomalies_text /\ a <> volatility_text) as Early.
  { intros a Ha. cbn in Ha. intuition (subst; discriminate). }
  assert (forall (a : string) l, sublist [a] l -> In a l) as SI.
  { intros a l Hs. now apply list_elem_of_In, singleton_sublist_l. }
  apply SI in S1, S2, S3, S4.
  destruct (Early a1) as [? ?]; [tauto|].
  destruct (Early a2) as [? ?]; [tauto|].
  destruct (Early a3) as [? ?]; [tauto|].
  destruct (Early a4) as [? ?]; [tauto|].
  repeat split;
    intros [|[|[|[|[|[]]]]]]; try congruence; discriminate.
Qed.

(** ** Insights: from the database's answers to the recommendations *)

Section InsightsFacts.
Context {num : Type} `{Numeric num}.
Local Open Scope num_scope.

(** A reading at or below the configured very-negative threshold yields a
    critical condition. *)
Lemma very_negative_is_critical cfg kw (summary : Summary num) trends6 cur vn :
  enabled cfg = true ->
  thresholds cfg !! "very_negative" = Some vn ->
  avg_sentiment summary = Some cur ->
  (cur <=? vn) = true ->
  Exists (fun a => severity a = critical)
         (check_alert_conditions cfg kw summary trends6).
Proof.
  intros En Hvn Hs Hc.
  unfold check_alert_conditions, check_alert_conditions_body.
  rewrite En, Hs. cbn [negb default from_option Datatypes.id].
  unfold sentiment_alerts, thresholds_get, thresholds_item.
  rewrite Hvn. cbn [default from_option Datatypes.id]. rewrite Hc. cbn [pybind app].
  constructor. reflexivity.
Qed.

End InsightsFacts.

(** X18: a keyword whose last hour averages at or below the configured
    very-negative threshold always gets the recommendation "Critical alerts
    detected - immediate response required", whatever else the insights
    hold: the evaluation raises the critical condition, [generate_insights]
    copies its severity, and the cut to five cannot remove its
    recommendation. *)
Theorem very_negative_hour_is_always_recommended :
  forall (num : Type) (N : Numeric num) (VC : Type)
         (cfg : AlertsConfig num) (kw : string) (hours now : Z)
         (summary : SummaryStats num) (trends : list (Sample num))
         (summary1 : SummaryStats num) (trends6 : list (Sample num))
         (vc : VC) (vn : num),
    enabled cfg = true ->
    thresholds cfg !! "very_negative" = Some vn ->
    (stats_avg_sentiment summary1 <=? vn)%num = true ->
    In critical_text
       (recommendations
          (generate_insights cfg kw hours now summary trends summary1 trends6
             vc)).
Proof.
  intros num N VC cfg kw hours now summary trends summary1 trends6 vc vn
         En Hvn Hc.
  unfold generate_insights. cbv zeta. cbn [recommendations].
  apply critical_kept. cbn [insights_alerts].
  pose proof (very_negative_is_critical cfg kw (summary_of_stats summary1)
                trends6 (stats_avg_sentiment summary1) vn En Hvn eq_refl Hc)
    as Ex.
  apply List.Exists_exists in Ex. destruct Ex as (a & Ha & Sa).
  apply List.Exists_exists. exists (alert_dict a). split.
  - now apply in_map.
  - exact Sa.
Qed.

Module InsightsExample.
Import FloatNum.

Definition quiet_day : SummaryStats float :=
  {| stats_total_posts := 40; stats_avg_sentiment := 0.1%float;
     stats_avg_confidence := 0.8%float; stats_positive_count := 20;
     stats_negative_count := 5; stats_neutral_count := 15;
     stats_period_hours := 24 |}.

Definition bad_hour : SummaryStats float :=
  {| stats_total_posts := 4; stats_avg_sentiment := (-0.85)%float;
     stats_avg_confidence := 0.8%float; stats_positive_count := 0;
     stats_negative_count := 4; stats_neutral_count := 0;
     stats_period_hours := 1 |}.

End InsightsExample.

Lemma very_negative_hour_is_always_recommended_witness :
  In critical_text
     (recommendations
        (generate_insights AlertExample.example_config "k" 24 0
           InsightsExample.quiet_day [] InsightsExample.bad_hour [] tt)).
Proof.
  apply (very_negative_hour_is_always_recommended float FloatNum.float_numeric
           unit AlertExample.example_config "k" 24 0 InsightsExample.quiet_day
           [] InsightsExample.bad_hour [] tt (-0.8)%float).
  - reflexivity.
  - reflexivity.
  - vm_compute. reflexivity.
Defined.

(** X19: for a keyword with fewer than three samples in the period, computed
    without rounding, the trend is 'insufficient_data', the momentum is the
    insufficient-data dict and no anomaly is looked for; the
    recommendations are then exactly the volume, sentiment and
    critical-alert ones, in that order: nothing is said about trend,
    momentum, anomalies or volatility. *)
Theorem sparse_keyword_insights :
  forall (VC : Type) (cfg : AlertsConfig R) (kw : string) (hours now : Z)
         (summary : SummaryStats R) (trends : list (Sample R))
         (summary1 : SummaryStats R) (trends6 : list (Sample R)) (vc : VC),
    (length trends < 3)%nat ->
    let insights :=
      generate_insights cfg kw hours now summary trends summary1 trends6 vc in
    direction (insights_trends insights) = insufficient_data /\
    insights_momentum insights
    = MomentumError "Insufficient data for momentum calculation" /\
    insights_anomalies insights = [] /\
    recommendations insights
    = volume_recommendation summary ++ sentiment_recommendation summary
      ++ critical_recommendation (insights_alerts insights).
Proof.
  intros VC cfg kw hours now summary trends summary1 trends6 vc L. cbv zeta.
  unfold generate_insights. cbv zeta.
  cbn [recommendations insights_trends insights_momentum insights_anomalies
       insights_alerts direction].
  assert (analyze_trends kw hours trends
          = insufficient_trend kw hours (length trends)) as ET
    by (now apply analyze_trends_short).
  assert (calculate_momentum trends
          = MomentumError "Insufficient data for momentum calculation") as EM.
  { unfold calculate_momentum.
    rewrite (momentum_short trends) by lia. reflexivity. }
  assert (detect_anomalies trends = []) as EA.
  { unfold detect_anomalies.
    destruct (Nat.ltb_spec (length trends) 20); [reflexivity|lia]. }
  rewrite ET, EM, EA.
  split; [reflexivity|]. split; [reflexivity|]. split; [reflexivity|].
  unfold _generate_recommendations.
  cbn [insights_summary insights_trends insights_momentum insights_alerts
       insights_anomalies].
  unfold trend_recommendation, momentum_recommendation,
    anomaly_recommendation, volatility_recommendation.
  cbn [direction insufficient_trend trend_direction momentum_signal_get
       volatility_get length Nat.ltb Nat.leb nan_ltb of_Z of_Q nltb
       RealNum.real_numeric].
  assert (RealNum.Rltb (Q2R 0.3) 0 = false) as ->.
  { apply RealFacts.Rltb_false. unfold Q2R. simpl. lra. }
  cbn [app]. rewrite !app_nil_r.
  apply firstn_all2.
  destruct (volume_sublist summary) as [_ L1].
  destruct (sentiment_sublist summary) as [_ L2].
  rewrite !length_app.
  assert (length (critical_recommendation
                    (map alert_dict
                       (check_alert_conditions cfg kw (summary_of_stats summary1)
                          trends6))) <= 1)%nat.
  { unfold critical_recommendation. destruct (List.filter _ _); simpl; lia. }
  lia.
Qed.

Lemma sparse_keyword_insights_witness :
  insights_anomalies
    (generate_insights
       {| enabled := true; thresholds := ∅; volume_threshold := 10;
          rapid_change_threshold := 1%R |}
       "k" 24 0
       {| stats_total_posts := 2; stats_avg_sentiment := 0%R;
          stats_avg_confidence := 1%R; stats_positive_count := 0;
          stats_negative_count := 0; stats_neutral_count := 2;
          stats_period_hours := 24 |}
       [TrendExamples.sample_at 0 0%R; TrendExamples.sample_at 1 0%R]
       {| stats_total_posts := 0; stats_avg_sentiment := 0%R;
          stats_avg_confidence := 0%R; stats_positive_count := 0;
          stats_negative_count := 0; stats_neutral_count := 0;
          stats_period_hours := 1 |}
       [] tt) = [].
Proof.
  apply (sparse_keyword_insights unit). simpl. lia.
Defined.

(** ** Comparing keywords: best, worst and the ranges *)

Module CompareReal.
Import RealNum RealFacts SeriesReal.
Local Open Scope R_scope.

Lemma py_max_by_spec {A} (f : A -> R) (rest : list A) : forall first,
  In (py_max_by f first rest) (first :: rest) /\
  Forall (fun x => f x <= f (py_max_by f first rest)) (first :: rest).
Proof.
  unfold py_max_by.
  induction rest as [|x rest IH]; intros first; cbn [fold_left].
  - split; [now left|]. constructor; [lra|constructor].
  - real_ops. destruct (IH (if Rltb (f first) (f x) then x else first))
      as [Hin Hle].
    apply List.Forall_cons_iff in Hle. destruct Hle as [H0 Hle].
    split.
    + destruct Hin as [E|Hin]; [|right; now right].
      rewrite <- E. destruct (Rltb (f first) (f x)); [right|]; now left.
    + destruct (Rltb (f first) (f x)) eqn:L;
        [apply Rltb_true in L|apply Rltb_false in L];
        (constructor; [lra|]); (constructor; [lra|]); exact Hle.
Qed.

Lemma py_min_by_spec {A} (f : A -> R) (rest : list A) : forall first,
  In (py_min_by f first rest) (first :: rest) /\
  Forall (fun x => f (py_min_by f first rest) <= f x) (first :: rest).
Proof.
  unfold py_min_by.
  induction rest as [|x rest IH]; intros first; cbn [fold_left].
  - split; [now left|]. constructor; [lra|constructor].
  - real_ops. destruct (IH (if Rltb (f x) (f first) then x else first))
      as [Hin Hle].
    apply List.Forall_cons_iff in Hle. destruct Hle as [H0 Hle].
    split.
    + destruct Hin as [E|Hin]; [|right; now right].
      rewrite <- E. destruct (Rltb (f x) (f first)); [right|]; now left.
    + destruct (Rltb (f x) (f first)) eqn:L;
        [apply Rltb_true in L|apply Rltb_false in L];
        (constructor; [lra|]); (constructor; [lra|]); exact Hle.
Qed.

Lemma py_max_by_int_spec {A} (f : A -> Z) (rest : list A) : forall first,
  In (py_max_by_int f first rest) (first :: rest) /\
  Forall (fun x => (f x <= f (py_max_by_int f first rest))%Z) (first :: rest).
Proof.
  unfold py_max_by_int.
  induction rest as [|x rest IH]; intros first; cbn [fold_left].
  - split; [now left|]. constructor; [lia|constructor].
  - destruct (IH (if (f first <? f x)%Z then x else first)) as [Hin Hle].
    apply List.Forall_cons_iff in Hle. destruct Hle as [H0 Hle].
    split.
    + destruct Hin as [E|Hin]; [|right; now right].
      rewrite <- E. destruct (f first <? f x)%Z; [right|]; now left.
    + destruct (Z.ltb_spec (f first) (f x));
        (constructor; [lia|]); (constructor; [lia|]); exact Hle.
Qed.

(** [max(values)] is the value of the item [max(items, key)] picks. *)
Lemma num_max_is_max_by {A} (f : A -> R) (rest : list A) : forall first,
  num_max (map f rest) (f first) = f (py_max_by f first rest).
Proof.
  unfold num_max, py_max_by.
  induction rest as [|x rest IH]; intros first; cbn [fold_left map];
    [reflexivity|].
  rewrite <- IH. f_equal. destruct (nltb (f first) (f x)); reflexivity.
Qed.

Lemma num_min_is_min_by {A} (f : A -> R) (rest : list A) : forall first,
  num_min (map f rest) (f first) = f (py_min_by f first rest).
Proof.
  unfold num_min, py_min_by.
  induction rest as [|x rest IH]; intros first; cbn [fold_left map];
    [reflexivity|].
  rewrite <- IH. f_equal. destruct (nltb (f x) (f first)); reflexivity.
Qed.

Lemma fold_max_min_le (l : list Z) : forall a b,
  (b <= a)%Z -> (fold_left Z.min l b <= fold_left Z.max l a)%Z.
Proof.
  induction l as [|x l IH]; intros a b Hab; simpl; [exact Hab|].
  apply IH. lia.
Qed.

End CompareReal.

Section CompareKeys.
Context {num : Type} `{Numeric num}.

Lemma comparison_keys (f : string -> KeywordData num) keywords : forall d k,
  k ∈ dict_keys (fold_left (fun d kw => dict_set d kw (f kw)) keywords d)
  <-> k ∈ dict_keys d \/ k ∈ keywords.
Proof.
  induction keywords as [|kw keywords IH]; intros d k; simpl.
  - rewrite elem_of_nil. tauto.
  - rewrite IH, elem_of_dict_keys_set, elem_of_cons. tauto.
Qed.

Lemma comparison_NoDup (f : string -> KeywordData num) keywords : forall d,
  NoDup (dict_keys d) ->
  NoDup (dict_keys (fold_left (fun d kw => dict_set d kw (f kw)) keywords d)).
Proof.
  induction keywords as [|kw keywords IH]; intros d ND; simpl; [exact ND|].
  apply IH. now apply dict_set_NoDup.
Qed.

End CompareKeys.

Section CompareEntries.
Context {num : Type} `{Numeric num}.

Lemma dict_set_values {V} (P : string -> V -> Prop) (d : list (string * V)) k v :
  Forall (fun e => P (fst e) (snd e)) d -> P k v ->
  Forall (fun e => P (fst e) (snd e)) (dict_set d k v).
Proof.
  intros F Hk. induction F as [|[k' v'] d He F IH]; simpl.
  - now repeat constructor.
  - destruct (String.eqb k' k) eqn:E.
    + apply String.eqb_eq in E. subst k'. now constructor.
    + now constructor.
Qed.

Lemma comparison_values (f : string -> KeywordData num) keywords : forall d,
  Forall (fun e => snd e = f (fst e)) d ->
  Forall (fun e => snd e = f (fst e))
         (fold_left (fun d kw => dict_set d kw (f kw)) keywords d).
Proof.
  induction keywords as [|kw keywords IH]; intros d F; simpl; [exact F|].
  apply IH.
  now apply (dict_set_values (fun k v => v = f k)).
Qed.

End CompareEntries.

(** X20: [compare_keywords] answers an empty keyword list with the error
    dict.  Otherwise, without rounding: every keyword has exactly one entry
    (also when it is listed twice), computed from its own summary and
    series; [best_performing] and [worst_performing] are keywords whose
    average sentiment is the largest and the smallest of all entries,
    [most_discussed] one with the most posts, [sentiment_range] is the
    difference of the best and worst averages, and both ranges are
    non-negative. *)
Theorem compare_keywords_extremes :
  forall (summary_of : string -> SummaryStats R)
         (trends_of : string -> list (Sample R)) (keywords : list string)
         (hours : Z),
    match compare_keywords summary_of trends_of keywords hours with
    | ComparisonError msg =>
        keywords = [] /\ msg = "No data available for comparison"
    | ComparisonValues c =>
        keywords <> [] /\
        NoDup (dict_keys (keyword_data c)) /\
        (forall k, k ∈ dict_keys (keyword_data c) <-> k ∈ keywords) /\
        Forall (fun e =>
                  snd e = keyword_entry (summary_of (fst e)) (trends_of (fst e))
                            (fst e) hours) (keyword_data c) /\
        (exists best worst most,
            In (best_performing c, best) (keyword_data c) /\
            In (worst_performing c, worst) (keyword_data c) /\
            In (most_discussed c, most) (keyword_data c) /\
            Forall (fun e =>
                      (kd_avg_sentiment (snd e) <= kd_avg_sentiment best)%R /\
                      (kd_avg_sentiment worst <= kd_avg_sentiment (snd e))%R /\
                      (kd_total_posts (snd e) <= kd_total_posts most)%Z)
                   (keyword_data c) /\
            sentiment_range c
            = (kd_avg_sentiment best - kd_avg_sentiment worst)%R) /\
        (0 <= sentiment_range c)%R /\ (0 <= volume_range c)%Z
    end.
Proof.
  intros summary_of trends_of keywords hours.
  unfold compare_keywords. cbv zeta.
  pose (f := fun kw => keyword_entry (summary_of kw) (trends_of kw) kw hours).
  set (data := fold_left _ keywords []).
  assert (forall k, k ∈ dict_keys data <-> k ∈ keywords) as K.
  { intros k. destruct (comparison_keys f keywords [] k) as [P1 P2].
    split.
    - intros Hk. destruct (P1 Hk) as [X|X]; [|exact X].
      now apply elem_of_nil in X.
    - intros Hk. apply P2. now right. }
  assert (NoDup (dict_keys data)) as ND
    by (apply (comparison_NoDup f); constructor).
  assert (Forall (fun e => snd e = f (fst e)) data) as V
    by (apply (comparison_values f); constructor).
  clearbody data. subst f. cbv beta in V.
  destruct data as [|first rest]; cbv beta iota.
  { split; [|reflexivity].
    destruct keywords as [|kw kws]; [reflexivity|].
    exfalso. assert (kw ∈ dict_keys (@nil (string * KeywordData R))) as Hk
      by (apply K, elem_of_cons; now left).
    now apply elem_of_nil in Hk. }
  set (avg := fun e : string * KeywordData R => kd_avg_sentiment (snd e)).
  set (posts := fun e : string * KeywordData R => kd_total_posts (snd e)).
  destruct (CompareReal.py_max_by_spec avg rest first) as [Bin Ble].
  destruct (CompareReal.py_min_by_spec avg rest first) as [Win Wle].
  destruct (CompareReal.py_max_by_int_spec posts rest first) as [Min Mle].
  cbn [keyword_data best_performing worst_performing most_discussed
       sentiment_range volume_range].
  change (kd_avg_sentiment (snd first)) with (avg first).
  change (kd_total_posts (snd first)) with (posts first).
  rewrite (CompareReal.num_max_is_max_by avg rest first),
    (CompareReal.num_min_is_min_by avg rest first).
  set (b := py_max_by avg first rest) in *.
  set (w := py_min_by avg first rest) in *.
  set (m := py_max_by_int posts first rest) in *.
  split.
  { intros ->. assert (fst first ∈ @nil string) as Hk
      by (apply K; unfold dict_keys; simpl; apply elem_of_cons; now left).
    now apply elem_of_nil in Hk. }
  split; [exact ND|]. split; [exact K|]. split; [exact V|].
  split.
  { exists (snd b), (snd w), (snd m).
    rewrite <- !surjective_pairing.
    split; [exact Bin|]. split; [exact Win|]. split; [exact Min|].
    split; [|reflexivity].
    rewrite List.Forall_forall in *. intros e He.
    specialize (Ble e He). specialize (Wle e He). specialize (Mle e He).
    unfold avg, posts in *. auto. }
  split.
  - rewrite List.Forall_forall in Ble. specialize (Ble w Win).
    cbn [nsub RealNum.real_numeric]. unfold avg in *. lra.
  - pose proof (CompareReal.fold_max_min_le (map posts rest) (posts first)
                  (posts first) ltac:(lia)). lia.
Qed.

(** ** Tables: lookups, fresh ids and updates by primary key *)

Section Tables.
Context {A : Type}.

Lemma find_split (f : A -> bool) (l : list A) (x : A) :
  List.find f l = Some x ->
  exists l1 l2, l = l1 ++ x :: l2 /\ f x = true
                /\ List.Forall (fun y => f y = false) l1.
Proof.
  induction l as [|y l IH]; simpl; [discriminate|].
  destruct (f y) eqn:E.
  - intros [= ->]. exists [], l. repeat split; [assumption|constructor].
  - intros Hf. destruct (IH Hf) as (l1 & l2 & -> & Hx & F).
    exists (y :: l1), l2. repeat split; [assumption|].
    constructor; assumption.
Qed.

Lemma find_none (f : A -> bool) (l : list A) :
  List.find f l = None <-> List.Forall (fun y => f y = false) l.
Proof.
  induction l as [|y l IH]; simpl.
  - split; [constructor|reflexivity].
  - destruct (f y) eqn:E.
    + split; [discriminate|]. intros F. inversion F; congruence.
    + rewrite IH. split; [now constructor|]. intros F. now inversion F.
Qed.

Lemma find_app_some (f : A -> bool) (l l' : list A) (x : A) :
  List.find f l = Some x -> List.find f (l ++ l') = Some x.
Proof.
  induction l as [|y l IH]; simpl; [discriminate|].
  destruct (f y); [trivial|exact IH].
Qed.

Lemma find_app_none (f : A -> bool) (l l' : list A) :
  List.find f l = None -> List.find f (l ++ l') = List.find f l'.
Proof.
  induction l as [|y l IH]; simpl; [reflexivity|].
  destruct (f y); [discriminate|exact IH].
Qed.

Lemma NoDup_map_eq {K} (key : A -> K) (l : list A) (x y : A) :
  List.NoDup (map key l) -> In x l -> In y l -> key x = key y -> x = y.
Proof.
  induction l as [|z l IH]; simpl; [contradiction|].
  intros ND. apply NoDup_cons_iff in ND. destruct ND as [Hz ND].
  intros [->|Hx] [->|Hy] E; trivial.
  - exfalso. apply Hz. rewrite E. now apply in_map.
  - exfalso. apply Hz. rewrite <- E. now apply in_map.
  - now apply IH.
Qed.

(** An update by primary key rewrites the one row that has the key. *)
Lemma update_by_id (id : A -> Z) (row obj : A) (l1 l2 : list A) :
  List.NoDup (map id (l1 ++ obj :: l2)) ->
  map (fun k => if (id k =? id obj)%Z then row else k) (l1 ++ obj :: l2)
  = l1 ++ row :: l2.
Proof.
  intros ND.
  assert (forall k, In k (l1 ++ l2) -> (id k =? id obj)%Z = false) as Hne.
  { intros k Hk. apply Z.eqb_neq. intros E.
    assert (k = obj) as ->.
    { apply (NoDup_map_eq id (l1 ++ obj :: l2)); trivial.
      - apply in_app_iff. apply in_app_iff in Hk. simpl. tauto.
      - apply in_app_iff. simpl. tauto. }
    rewrite map_app in ND. simpl in ND.
    apply NoDup_remove_2 in ND. apply ND.
    rewrite <- map_app. now apply in_map. }
  rewrite map_app. simpl. rewrite Z.eqb_refl. f_equal; [|f_equal].
  - rewrite <- (map_id l1) at 2. apply map_ext_in.
    intros k Hk. rewrite Hne; [reflexivity|]. apply in_app_iff. tauto.
  - rewrite <- (map_id l2) at 2. apply map_ext_in.
    intros k Hk. rewrite Hne; [reflexivity|]. apply in_app_iff. tauto.
Qed.

Lemma NoDup_snoc (l : list A) (x : A) :
  List.NoDup l -> ~ In x l -> List.NoDup (l ++ [x]).
Proof.
  intros ND Hx. apply (Permutation_NoDup (Permutation_cons_append l x)).
  now constructor.
Qed.

End Tables.

Lemma fold_max_ge (ids : list Z) : forall a,
  (a <= fold_left Z.max ids a)%Z
  /\ List.Forall (fun i => (i <= fold_left Z.max ids a)%Z) ids.
Proof.
  induction ids as [|i ids IH]; intros a; simpl.
  - split; [lia|constructor].
  - destruct (IH (Z.max a i)) as [Ha F]. split; [lia|].
    constructor; [lia|exact F].
Qed.

(** A fresh id is above every id of the table. *)
Lemma next_id_fresh (ids : list Z) : ~ In (Storage.next_id ids) ids.
Proof.
  intros Hin. destruct (fold_max_ge ids 0) as [_ F].
  rewrite List.Forall_forall in F. specialize (F _ Hin).
  unfold Storage.next_id in F. lia.
Qed.

(** ** The keywords table *)

Section KeywordFacts.
Import Storage.

Definition has_text (kw : string) (k : Keyword) : bool :=
  String.eqb (keyword_text k) kw.

Lemma find_keyword_split kw table obj :
  find_keyword kw table = Some obj ->
  exists l1 l2, table = l1 ++ obj :: l2 /\ keyword_text obj = kw
                /\ List.Forall (fun k => has_text kw k = false) l1.
Proof.
  intros Hf. destruct (find_split _ _ _ Hf) as (l1 & l2 & -> & Hx & F).
  exists l1, l2. repeat split; [now apply String.eqb_eq|exact F].
Qed.

(** With unique texts no other row has the text of a row. *)
Lemma unique_text l1 (obj : Keyword) l2 :
  List.NoDup (map keyword_text (l1 ++ obj :: l2)) ->
  List.Forall (fun k => has_text (keyword_text obj) k = false) (l1 ++ l2).
Proof.
  intros ND. rewrite map_app in ND. simpl in ND.
  apply NoDup_remove_2 in ND. rewrite <- map_app in ND.
  apply List.Forall_forall. intros k Hk.
  unfold has_text. apply String.eqb_neq. intros E. apply ND.
  rewrite <- E. now apply in_map.
Qed.

Lemma keywords_ok_replace l1 (obj row : Keyword) l2 :
  keyword_id row = keyword_id obj -> keyword_text row = keyword_text obj ->
  keywords_ok (l1 ++ obj :: l2) -> keywords_ok (l1 ++ row :: l2).
Proof.
  intros Hi Ht [ND1 ND2]. unfold keywords_ok.
  rewrite !map_app in *. simpl in *. rewrite Hi, Ht. now split.
Qed.

Lemma update_keyword_split (row obj : Keyword) l1 l2 :
  keyword_id row = keyword_id obj ->
  List.NoDup (map keyword_id (l1 ++ obj :: l2)) ->
  update_keyword row (l1 ++ obj :: l2) = l1 ++ row :: l2.
Proof.
  intros Hi ND. unfold update_keyword. rewrite Hi.
  now apply update_by_id.
Qed.

Lemma find_keyword_at kw l1 (row : Keyword) l2 :
  List.Forall (fun k => has_text kw k = false) l1 ->
  keyword_text row = kw ->
  find_keyword kw (l1 ++ row :: l2) = Some row.
Proof.
  intros F Ht. unfold find_keyword.
  rewrite find_app_none by now apply find_none.
  simpl. rewrite Ht, String.eqb_refl. reflexivity.
Qed.

Lemma find_keyword_none kw table :
  find_keyword kw table = None ->
  List.Forall (fun k => keyword_text k <> kw) table.
Proof.
  intros Hf. apply find_none in Hf.
  eapply List.Forall_impl; [|exact Hf].
  intros k Hk. now apply String.eqb_neq.
Qed.

Lemma active_in (k : Keyword) table :
  In k (get_active_keywords table) <-> In k table /\ is_active k = true.
Proof. unfold get_active_keywords. apply filter_In. Qed.

End KeywordFacts.

(** X21: [add_keyword] keeps ids and keyword texts unique, leaves the keyword
    active, keeps the id and the text of every row, leaves the rows of the
    other keywords as they are, and a second call changes nothing. *)
Theorem add_keyword_is_idempotent :
  forall (now : Z) (kw : string) (table : list Storage.Keyword),
    Storage.keywords_ok table ->
    let table' := fst (Storage.add_keyword now kw table) in
    Storage.keywords_ok table' /\
    (exists k, In k (Storage.get_active_keywords table')
               /\ Storage.keyword_text k = kw) /\
    (forall k, In k table -> Storage.keyword_text k <> kw -> In k table') /\
    (forall k, In k table ->
       exists k', In k' table'
                  /\ Storage.keyword_id k' = Storage.keyword_id k
                  /\ Storage.keyword_text k' = Storage.keyword_text k) /\
    (forall now', fst (Storage.add_keyword now' kw table') = table').
Proof.
  intros now kw table OK table'.
  assert (table' = fst (Storage.add_keyword now kw table)) as E by reflexivity.
  clearbody table'. unfold Storage.add_keyword in E.
  destruct (Storage.find_keyword kw table) as [existing|] eqn:Hf.
  - destruct (find_keyword_split _ _ _ Hf) as (l1 & l2 & -> & Ht & F1).
    destruct (Storage.is_active existing) eqn:Ha; cbn [negb fst] in E;
      subst table'.
    + (* already active *)
      split; [exact OK|]. split.
      { exists existing. split; [|exact Ht].
        apply active_in. split; [|exact Ha].
        apply in_app_iff. simpl. tauto. }
      split; [trivial|]. split.
      { intros k Hk. exists k. tauto. }
      intros now'. unfold Storage.add_keyword. rewrite Hf, Ha. reflexivity.
    + (* reactivated *)
      set (row := {| Storage.keyword_id := Storage.keyword_id existing;
                     Storage.keyword_text := Storage.keyword_text existing;
                     Storage.is_active := true;
                     Storage.updated_at := now |}).
      rewrite (update_keyword_split row existing) by (trivial; apply OK).
      split; [now apply (keywords_ok_replace l1 existing row l2)|].
      split.
      { exists row. split; [|exact Ht].
        apply active_in. split; [|reflexivity].
        apply in_app_iff. simpl. tauto. }
      split.
      { intros k Hk Hne. apply in_app_iff in Hk. apply in_app_iff.
        destruct Hk as [Hk|[<-|Hk]]; [tauto|congruence|simpl; tauto]. }
      split.
      { intros k Hk. apply in_app_iff in Hk.
        destruct Hk as [Hk|[<-|Hk]].
        - exists k. rewrite in_app_iff. tauto.
        - exists row. rewrite in_app_iff. simpl. tauto.
        - exists k. rewrite in_app_iff. simpl. tauto. }
      intros now'. unfold Storage.add_keyword.
      rewrite (find_keyword_at kw l1 row l2) by assumption.
      reflexivity.
  - (* a new keyword *)
    cbn [fst] in E. subst table'.
    set (new_keyword :=
           {| Storage.keyword_id :=
                Storage.next_id (map Storage.keyword_id table);
              Storage.keyword_text := kw; Storage.is_active := true;
              Storage.updated_at := now |}).
    pose proof (find_keyword_none _ _ Hf) as Hnone.
    split.
    { destruct OK as [ND1 ND2]. unfold Storage.keywords_ok.
      rewrite !map_app. simpl. split.
      - apply NoDup_snoc; [exact ND1|apply next_id_fresh].
      - apply NoDup_snoc; [exact ND2|].
        intros Hx. apply in_map_iff in Hx. destruct Hx as (k & Hk & Hin).
        rewrite List.Forall_forall in Hnone. now apply (Hnone k). }
    split.
    { exists new_keyword. split; [|reflexivity].
      apply active_in. split; [|reflexivity].
      apply in_app_iff. simpl. tauto. }
    split.
    { intros k Hk _. apply in_app_iff. tauto. }
    split.
    { intros k Hk. exists k. rewrite in_app_iff. tauto. }
    intros now'. unfold Storage.add_keyword.
    assert (Storage.find_keyword kw (table ++ [new_keyword])
            = Some new_keyword) as ->.
    { apply find_keyword_at; [|reflexivity]. now apply find_none. }
    reflexivity.
Qed.

Module KeywordExample.
Import Storage.

Definition table : list Keyword :=
  [{| keyword_id := 1; keyword_text := "python"; is_active := true;
      updated_at := 0 |};
   {| keyword_id := 2; keyword_text := "rust"; is_active := false;
      updated_at := 5 |}].

Lemma table_ok : keywords_ok table.
Proof.
  split; simpl.
  - repeat constructor; simpl; intros H; intuition discriminate.
  - repeat constructor; simpl; intros H; intuition discriminate.
Qed.

End KeywordExample.

Lemma add_keyword_is_idempotent_witness :
  Storage.keywords_ok (fst (Storage.add_keyword 9 "rust" KeywordExample.table)).
Proof.
  exact (proj1 (add_keyword_is_idempotent 9 "rust" KeywordExample.table
                  KeywordExample.table_ok)).
Defined.

(** X22: [remove_keyword] deletes nothing: every row keeps its id and its
    text, the rows of the other keywords are untouched, the keyword is no
    longer among the active ones, and the answer tells whether there was a
    row.  Adding the keyword again gives it its old id back. *)
Theorem remove_keyword_keeps_the_row :
  forall (now now' : Z) (kw : string) (table : list Storage.Keyword),
    Storage.keywords_ok table ->
    let removed := fst (Storage.remove_keyword now kw table) in
    Storage.keywords_ok removed /\
    snd (Storage.remove_keyword now kw table)
    = match Storage.find_keyword kw table with
      | Some _ => true
      | None => false
      end /\
    map Storage.keyword_id removed = map Storage.keyword_id table /\
    map Storage.keyword_text removed = map Storage.keyword_text table /\
    (forall k, In k table -> Storage.keyword_text k <> kw -> In k removed) /\
    List.Forall (fun k => Storage.keyword_text k <> kw)
                (Storage.get_active_keywords removed) /\
    (Storage.find_keyword kw table <> None ->
     let again := fst (Storage.add_keyword now' kw removed) in
     map Storage.keyword_id again = map Storage.keyword_id table /\
     map Storage.keyword_text again = map Storage.keyword_text table /\
     exists k, In k (Storage.get_active_keywords again)
               /\ Storage.keyword_text k = kw).
Proof.
  intros now now' kw table OK removed.
  assert (removed = fst (Storage.remove_keyword now kw table)) as E
    by reflexivity.
  clearbody removed. unfold Storage.remove_keyword in *.
  destruct (Storage.find_keyword kw table) as [obj|] eqn:Hf;
    cbn [fst snd] in *; subst removed.
  - destruct (find_keyword_split _ _ _ Hf) as (l1 & l2 & -> & Ht & F1).
    set (row := {| Storage.keyword_id := Storage.keyword_id obj;
                   Storage.keyword_text := Storage.keyword_text obj;
                   Storage.is_active := false;
                   Storage.updated_at := now |}).
    rewrite (update_keyword_split row obj) by (trivial; apply OK).
    assert (Storage.keywords_ok (l1 ++ row :: l2)) as OK'
      by now apply (keywords_ok_replace l1 obj row l2).
    split; [exact OK'|]. split; [reflexivity|].
    split; [now rewrite !map_app|]. split; [now rewrite !map_app|].
    split.
    { intros k Hk Hne. apply in_app_iff in Hk. apply in_app_iff.
      destruct Hk as [Hk|[<-|Hk]]; [tauto|congruence|simpl; tauto]. }
    split.
    { apply List.Forall_forall. intros k Hk. apply active_in in Hk.
      destruct Hk as [Hk Ha]. intros Hkw.
      pose proof (unique_text l1 row l2 (proj2 OK')) as U.
      rewrite List.Forall_forall in U.
      apply in_app_iff in Hk. destruct Hk as [Hk|[<-|Hk]].
      - specialize (U k). rewrite in_app_iff in U.
        unfold has_text in U. cbn [Storage.keyword_text row] in U.
        rewrite Ht, Hkw, String.eqb_refl in U. now specialize (U (or_introl Hk)).
      - discriminate.
      - specialize (U k). rewrite in_app_iff in U.
        unfold has_text in U. cbn [Storage.keyword_text row] in U.
        rewrite Ht, Hkw, String.eqb_refl in U. now specialize (U (or_intror Hk)). }
    intros _. unfold Storage.add_keyword.
    rewrite (find_keyword_at kw l1 row l2) by assumption.
    cbn [Storage.is_active row negb fst].
    set (row' := {| Storage.keyword_id := Storage.keyword_id row;
                    Storage.keyword_text := Storage.keyword_text row;
                    Storage.is_active := true;
                    Storage.updated_at := now' |}).
    rewrite (update_keyword_split row' row) by (trivial; apply OK').
    split; [now rewrite !map_app|]. split; [now rewrite !map_app|].
    exists row'. split; [|exact Ht].
    apply active_in. split; [|reflexivity].
    apply in_app_iff. simpl. tauto.
  - split; [exact OK|]. split; [reflexivity|].
    split; [reflexivity|]. split; [reflexivity|].
    split; [trivial|]. split; [|congruence].
    apply List.Forall_forall. intros k Hk. apply active_in in Hk.
    pose proof (find_keyword_none _ _ Hf) as Hn.
    rewrite List.Forall_forall in Hn. apply Hn. tauto.
Qed.

Lemma remove_keyword_keeps_the_row_witness :
  map Storage.keyword_id
      (fst (Storage.remove_keyword 9 "python" KeywordExample.table))
  = map Storage.keyword_id KeywordExample.table.
Proof.
  pose proof (remove_keyword_keeps_the_row 9 10 "python" KeywordExample.table
                KeywordExample.table_ok) as T.
  exact (proj1 (proj2 (proj2 T))).
Defined.

(** ** The queries read the id and the text of a keyword only *)

Section KeywordColumns.
Context {num : Type} `{Numeric num}.
Import Storage.

Definition on_keyword (g : Keyword -> Keyword)
    (r : Post * SentimentScore num * Keyword)
  : Post * SentimentScore num * Keyword :=
  (fst r, g (snd r)).

Lemma map_flat_map {X Y Z'} (f : Y -> Z') (h : X -> list Y) (l : list X) :
  map f (flat_map h l) = flat_map (fun x => map f (h x)) l.
Proof.
  induction l as [|x l IH]; simpl; [reflexivity|].
  now rewrite map_app, IH.
Qed.

Lemma joined_keywords (g : Keyword -> Keyword) ks ps (ss : list (SentimentScore num)) :
  (forall k, keyword_id (g k) = keyword_id k) ->
  joined {| keywords := map g ks; posts := ps; sentiment_scores := ss |}
  = map (on_keyword g)
        (joined {| keywords := ks; posts := ps; sentiment_scores := ss |}).
Proof.
  intros Hid. unfold joined. cbn [keywords posts sentiment_scores].
  rewrite map_flat_map. apply flat_map_ext. intros p.
  rewrite map_flat_map. apply flat_map_ext. intros s.
  destruct (score_post_id s =? post_id p)%Z; [|reflexivity].
  induction ks as [|k ks IH]; simpl; [reflexivity|].
  rewrite Hid, IH. destruct (keyword_id k =? post_keyword_id p)%Z; reflexivity.
Qed.

Lemma filter_map_same {X} (f : X -> X) (P : X -> bool) (l : list X) :
  (forall x, P (f x) = P x) ->
  List.filter P (map f l) = map f (List.filter P l).
Proof.
  intros HP. induction l as [|x l IH]; simpl; [reflexivity|].
  rewrite HP, IH. destruct (P x); reflexivity.
Qed.

Lemma insert_row_map (f : Post * SentimentScore num * Keyword
                          -> Post * SentimentScore num * Keyword) r l :
  (forall x, posted_at (row_post (f x)) = posted_at (row_post x)) ->
  insert_row (f r) (map f l) = map f (insert_row r l).
Proof.
  intros Hf. induction l as [|x l IH]; simpl; [reflexivity|].
  rewrite !Hf, IH.
  destruct (posted_at (row_post r) <? posted_at (row_post x))%Z; reflexivity.
Qed.

Lemma order_by_map (f : Post * SentimentScore num * Keyword
                        -> Post * SentimentScore num * Keyword) l :
  (forall x, posted_at (row_post (f x)) = posted_at (row_post x)) ->
  order_by_posted_at (map f l) = map f (order_by_posted_at l).
Proof.
  intros Hf. unfold order_by_posted_at.
  change (@nil (Post * SentimentScore num * Keyword)) with
    (map f (@nil (Post * SentimentScore num * Keyword))) at 1.
  generalize (@nil (Post * SentimentScore num * Keyword)) as acc.
  induction l as [|x l IH]; intros acc; simpl; [reflexivity|].
  rewrite insert_row_map by assumption. apply IH.
Qed.

Lemma count_where_map {X} (f : X -> X) (P : X -> bool) (l : list X) :
  (forall x, P (f x) = P x) -> count_where P (map f l) = count_where P l.
Proof.
  intros HP. unfold count_where.
  rewrite filter_map_same by assumption. now rewrite length_map.
Qed.

(** A change of the other columns of the keywords is invisible to both
    queries. *)
Lemma queries_read_id_and_text (g : Keyword -> Keyword) now ks ps
    (ss : list (SentimentScore num)) kw hours :
  (forall k, keyword_id (g k) = keyword_id k) ->
  (forall k, keyword_text (g k) = keyword_text k) ->
  let db := {| keywords := ks; posts := ps; sentiment_scores := ss |} in
  let db' := {| keywords := map g ks; posts := ps; sentiment_scores := ss |} in
  get_sentiment_summary now db' kw hours = get_sentiment_summary now db kw hours
  /\ get_sentiment_trends now db' kw hours = get_sentiment_trends now db kw hours.
Proof.
  intros Hid Ht db db'. subst db db'.
  assert (forall x : Post * SentimentScore num * Keyword,
             row_post (on_keyword g x) = row_post x) as Hp by reflexivity.
  assert (forall x : Post * SentimentScore num * Keyword,
             row_score (on_keyword g x) = row_score x) as Hs by reflexivity.
  assert (forall x : Post * SentimentScore num * Keyword,
             keyword_text (row_keyword (on_keyword g x))
             = keyword_text (row_keyword x)) as Hk.
  { intros x. unfold row_keyword, on_keyword. simpl. apply Ht. }
  split.
  - unfold get_sentiment_summary, summary_rows.
    rewrite joined_keywords by assumption.
    rewrite filter_map_same by (intros x; now rewrite Hk, Hp).
    rewrite length_map, !map_map.
    rewrite !count_where_map by (intros x; now rewrite Hs).
    reflexivity.
  - unfold get_sentiment_trends.
    rewrite joined_keywords by assumption.
    rewrite filter_map_same by (intros x; unfold confident; now rewrite Hk, Hp, Hs).
    rewrite order_by_map by (intros x; now rewrite Hp).
    rewrite map_map. reflexivity.
Qed.

(** Under unique ids, [update_keyword] with a row of the same id and
    text is a map that keeps ids and texts. *)
Definition set_columns (i : Z) (active : bool) (updated : Z) (k : Keyword)
  : Keyword :=
  if (keyword_id k =? i)%Z
  then {| keyword_id := keyword_id k; keyword_text := keyword_text k;
          is_active := active; updated_at := updated |}
  else k.

Lemma update_keyword_map (row obj : Keyword) table :
  List.NoDup (map keyword_id table) -> In obj table ->
  keyword_id row = keyword_id obj -> keyword_text row = keyword_text obj ->
  update_keyword row table
  = map (set_columns (keyword_id obj) (is_active row) (updated_at row)) table.
Proof.
  intros ND Hin Hi Ht. unfold update_keyword, set_columns. apply map_ext_in.
  intros k Hk. rewrite Hi.
  destruct (keyword_id k =? keyword_id obj)%Z eqn:E; [|reflexivity].
  apply Z.eqb_eq in E.
  assert (k = obj) as -> by now apply (NoDup_map_eq keyword_id table).
  rewrite <- Hi, <- Ht. now destruct row.
Qed.

Lemma set_columns_id i a u k : keyword_id (set_columns i a u k) = keyword_id k.
Proof. unfold set_columns. now destruct (keyword_id k =? i)%Z. Qed.

Lemma set_columns_text i a u k :
  keyword_text (set_columns i a u k) = keyword_text k.
Proof. unfold set_columns. now destruct (keyword_id k =? i)%Z. Qed.

End KeywordColumns.

(** X23: deactivating a keyword hides none of its data: with unique keyword
    ids, [get_sentiment_summary] and [get_sentiment_trends] answer the
    same for every keyword before and after [remove_keyword]. *)
Theorem deactivated_keyword_keeps_its_history :
  forall (num : Type) (N : Numeric num) (now now' : Z)
         (db : Storage.Db num) (kw kw' : string) (hours : Z),
    Storage.keywords_ok (Storage.keywords db) ->
    let db' :=
      {| Storage.keywords :=
           fst (Storage.remove_keyword now' kw' (Storage.keywords db));
         Storage.posts := Storage.posts db;
         Storage.sentiment_scores := Storage.sentiment_scores db |} in
    Storage.get_sentiment_summary now db' kw hours
    = Storage.get_sentiment_summary now db kw hours /\
    Storage.get_sentiment_trends now db' kw hours
    = Storage.get_sentiment_trends now db kw hours.
Proof.
  intros num N now now' [ks ps ss] kw kw' hours [ND _].
  cbn [Storage.keywords Storage.posts Storage.sentiment_scores] in *.
  unfold Storage.remove_keyword.
  destruct (Storage.find_keyword kw' ks) as [obj|] eqn:Hf; cbn [fst].
  - destruct (find_keyword_split _ _ _ Hf) as (l1 & l2 & E & Ht & _).
    rewrite (update_keyword_map _ obj) by
      (trivial; rewrite E; apply in_app_iff; simpl; tauto).
    apply queries_read_id_and_text.
    + apply set_columns_id.
    + apply set_columns_text.
  - split; reflexivity.
Qed.

(** ** The posts table *)

Section PostFacts.
Import Storage.

(** The step of the loop of [store_posts]. *)
Definition store_step (acc : list Post * Z) (post_data : PostData)
  : list Post * Z :=
  match add_post post_data (fst acc) with
  | (table', Some _) => (table', (snd acc + 1)%Z)
  | (table', None) => (table', snd acc)
  end.

Definition stored (table : list Post) (post_data : PostData) : Prop :=
  List.find (same_post post_data) table <> None.

Lemma stored_app table new post_data :
  stored table post_data -> stored (table ++ new) post_data.
Proof.
  unfold stored. destruct (List.find (same_post post_data) table) eqn:E;
    [|congruence].
  intros _. now rewrite (find_app_some _ _ new _ E).
Qed.

Lemma same_post_key post_data p :
  same_post post_data p = true <->
  (platform_id p, external_id p)
  = (data_platform_id post_data, data_external_id post_data).
Proof.
  unfold same_post. rewrite andb_true_iff, Z.eqb_eq, String.eqb_eq.
  split; [intros [-> ->]; reflexivity|intros [= -> ->]; tauto].
Qed.

(** One [add_post]: nothing when the post is stored, one more row with a
    fresh id otherwise; the post is stored afterwards. *)
Lemma add_post_step acc post_data :
  exists new,
    store_step acc post_data
    = (fst acc ++ new, (snd acc + Z.of_nat (length new))%Z)
    /\ (length new <= 1)%nat
    /\ stored (fst acc ++ new) post_data
    /\ (posts_ok (fst acc) -> posts_ok (fst acc ++ new)).
Proof.
  destruct acc as [table n]. unfold store_step, add_post. cbn [fst snd].
  destruct (List.find (same_post post_data) table) as [p|] eqn:Hf.
  - exists []. rewrite app_nil_r. simpl.
    split; [f_equal; lia|]. split; [lia|].
    split; [unfold stored; congruence|trivial].
  - eexists [_].
    split; [reflexivity|]. split; [simpl; lia|]. split.
    + unfold stored. rewrite find_app_none by assumption. simpl.
      unfold same_post. cbn [platform_id external_id].
      rewrite Z.eqb_refl, String.eqb_refl. discriminate.
    + intros [ND1 ND2]. unfold posts_ok. rewrite !map_app. simpl. split.
      * apply NoDup_snoc; [exact ND1|apply next_id_fresh].
      * apply NoDup_snoc; [exact ND2|].
        intros Hin. apply in_map_iff in Hin. destruct Hin as (p & Hk & Hp).
        apply find_none in Hf. rewrite List.Forall_forall in Hf.
        specialize (Hf p Hp). apply same_post_key in Hk. congruence.
Qed.

Lemma store_posts_fold batch : forall acc,
  exists new,
    fold_left store_step batch acc
    = (fst acc ++ new, (snd acc + Z.of_nat (length new))%Z)
    /\ (length new <= length batch)%nat
    /\ List.Forall (stored (fst acc ++ new)) batch
    /\ (posts_ok (fst acc) -> posts_ok (fst acc ++ new)).
Proof.
  induction batch as [|pd batch IH]; intros acc; simpl.
  - exists []. rewrite app_nil_r. simpl.
    split; [destruct acc; simpl; f_equal; lia|].
    split; [lia|]. split; [constructor|trivial].
  - destruct (add_post_step acc pd) as (new1 & E1 & L1 & S1 & OK1).
    rewrite E1.
    destruct (IH (fst acc ++ new1, (snd acc + Z.of_nat (length new1))%Z))
      as (new2 & E2 & L2 & S2 & OK2).
    cbn [fst snd] in *.
    exists (new1 ++ new2). rewrite E2, app_assoc, length_app.
    split; [f_equal; lia|]. split; [lia|]. split.
    + constructor; [|exact S2]. now apply stored_app.
    + intros OK. apply OK2. now apply OK1.
Qed.

(** Posts that are stored are all skipped. *)
Lemma store_posts_again batch : forall table n,
  List.Forall (stored table) batch ->
  fold_left store_step batch (table, n) = (table, n).
Proof.
  induction batch as [|pd batch IH]; intros table n F; simpl; [reflexivity|].
  apply Forall_cons_iff in F. destruct F as [S F].
  unfold store_step at 2. unfold add_post. cbn [fst snd].
  unfold stored in S.
  destruct (List.find (same_post pd) table); [|congruence].
  now apply IH.
Qed.

Lemma store_posts_unfold batch table :
  store_posts batch table = fold_left store_step batch (table, 0%Z).
Proof. reflexivity. Qed.

End PostFacts.

(** X24: storing the posts of a collector only appends rows, [stored_count]
    is the number of rows it appended (at most one per post), the unique
    constraint on (platform, external id) and on the ids is kept, and
    storing the same posts once more stores nothing. *)
Theorem stored_posts_are_not_stored_twice :
  forall (batch : list Storage.PostData) (table : list Storage.Post),
    let table' := fst (Storage.store_posts batch table) in
    let stored_count := snd (Storage.store_posts batch table) in
    (exists new, table' = table ++ new
                 /\ stored_count = Z.of_nat (length new)
                 /\ (length new <= length batch)%nat) /\
    Storage.store_posts batch table' = (table', 0%Z) /\
    (Storage.posts_ok table -> Storage.posts_ok table').
Proof.
  intros batch table. cbv zeta. rewrite !store_posts_unfold.
  destruct (store_posts_fold batch (table, 0%Z)) as (new & E & L & S & OK).
  cbn [fst snd] in *. rewrite E. cbn [fst snd].
  split.
  { exists new. split; [reflexivity|]. split; [lia|exact L]. }
  split; [now apply store_posts_again|exact OK].
Qed.

(** ** The scores table *)

Section ScoreFacts.
Context {num : Type} `{Numeric num}.
Import Storage.

Lemma same_score_key post name (s : SentimentScore num) :
  same_score post name s = true <->
  (score_post_id s, score_model_name s) = (post, name).
Proof.
  unfold same_score. rewrite andb_true_iff, Z.eqb_eq, String.eqb_eq.
  split; [intros [-> ->]; reflexivity|intros [= -> ->]; tauto].
Qed.

Lemma same_score_of_result id post (result : ModelResult num) :
  same_score post (model_name result) (score_of_result id post result) = true.
Proof. now apply same_score_key. Qed.

(** With one row per post and model no other row has the key of a row. *)
Lemma unique_score l1 (obj : SentimentScore num) l2 post name :
  List.NoDup (map (fun s => (score_post_id s, score_model_name s))
                  (l1 ++ obj :: l2)) ->
  same_score post name obj = true ->
  List.Forall (fun s => same_score post name s = false) (l1 ++ l2).
Proof.
  intros ND Ho. apply same_score_key in Ho.
  rewrite map_app in ND. simpl in ND.
  apply NoDup_remove_2 in ND. rewrite <- map_app in ND.
  apply List.Forall_forall. intros s Hs.
  destruct (same_score post name s) eqn:E; [|reflexivity].
  apply same_score_key in E. exfalso. apply ND. rewrite Ho, <- E.
  now apply (in_map (fun s => (score_post_id s, score_model_name s))).
Qed.

Lemma filter_all_false {X} (P : X -> bool) (l : list X) :
  List.Forall (fun x => P x = false) l -> List.filter P l = [].
Proof.
  induction 1 as [|x l Hx F IH]; simpl; [reflexivity|]. now rewrite Hx.
Qed.

Lemma filter_negb_all_false {X} (P : X -> bool) (l : list X) :
  List.Forall (fun x => P x = false) l ->
  List.filter (fun x => negb (P x)) l = l.
Proof.
  induction 1 as [|x l Hx F IH]; simpl; [reflexivity|].
  now rewrite Hx, IH.
Qed.

(** The table after [add_sentiment_score]: the row of the post and the
    model is replaced where it stands, or a row is appended. *)
Lemma add_sentiment_score_cases post (result : ModelResult num) table :
  scores_ok table ->
  (exists l1 obj l2,
      table = l1 ++ obj :: l2
      /\ same_score post (model_name result) obj = true
      /\ List.Forall (fun s => same_score post (model_name result) s = false)
                     (l1 ++ l2)
      /\ fst (add_sentiment_score post result table)
         = l1 ++ score_of_result (score_id obj) post result :: l2)
  \/ (List.Forall (fun s => same_score post (model_name result) s = false) table
      /\ fst (add_sentiment_score post result table)
         = table ++ [score_of_result (next_id (map score_id table)) post result]).
Proof.
  intros [ND1 ND2]. unfold add_sentiment_score.
  destruct (List.find (same_score post (model_name result)) table)
    as [obj|] eqn:Hf.
  - left. destruct (find_split _ _ _ Hf) as (l1 & l2 & -> & Ho & _).
    exists l1, obj, l2. split; [reflexivity|]. split; [exact Ho|].
    split; [now apply (unique_score l1 obj l2)|].
    cbn [fst]. now apply update_by_id.
  - right. split; [now apply find_none|reflexivity].
Qed.

Lemma scores_ok_replace l1 (obj row : SentimentScore num) l2 :
  score_id row = score_id obj ->
  (score_post_id row, score_model_name row)
  = (score_post_id obj, score_model_name obj) ->
  scores_ok (l1 ++ obj :: l2) -> scores_ok (l1 ++ row :: l2).
Proof.
  intros Hi Hk [ND1 ND2]. unfold scores_ok.
  rewrite !map_app in *. simpl in *. rewrite Hi, Hk. now split.
Qed.

End ScoreFacts.

(** X25: [add_sentiment_score] keeps one row for a post and a model: after
    it the table has exactly one such row, with the scores of the result
    just stored, the rows of other posts and models are as before, and
    storing the same result once more changes nothing. *)
Theorem reanalysis_overwrites_the_score :
  forall (num : Type) (N : Numeric num) (post : Z)
         (result : ModelResult num)
         (table : list (Storage.SentimentScore num)),
    Storage.scores_ok table ->
    let table' := fst (Storage.add_sentiment_score post result table) in
    Storage.scores_ok table' /\
    (exists id,
        List.filter (Storage.same_score post (model_name result)) table'
        = [Storage.score_of_result id post result]) /\
    List.filter (fun s => negb (Storage.same_score post (model_name result) s))
                table'
    = List.filter (fun s => negb (Storage.same_score post (model_name result) s))
                  table /\
    fst (Storage.add_sentiment_score post result table') = table'.
Proof.
  intros num N post result table OK table'.
  assert (table' = fst (Storage.add_sentiment_score post result table)) as E
    by reflexivity.
  clearbody table'.
  destruct (add_sentiment_score_cases post result table OK)
    as [(l1 & obj & l2 & -> & Ho & F & E')|(F & E')];
    rewrite E' in E; subst table'.
  - set (row := Storage.score_of_result (Storage.score_id obj) post result).
    assert (Storage.same_score post (model_name result) row = true) as Hrow
      by apply same_score_of_result.
    apply Forall_app in F. destruct F as [F1 F2].
    assert (Storage.scores_ok (l1 ++ row :: l2)) as OK'.
    { apply (scores_ok_replace l1 obj row l2); trivial.
      apply same_score_key in Ho. now rewrite Ho. }
    split; [exact OK'|]. split.
    { exists (Storage.score_id obj).
      rewrite List.filter_app. simpl. fold row.
      rewrite Hrow.
      now rewrite !filter_all_false by assumption. }
    split.
    { rewrite !List.filter_app. simpl. fold row.
      rewrite Hrow, Ho. reflexivity. }
    unfold Storage.add_sentiment_score.
    rewrite find_app_none by now apply find_none.
    simpl. fold row. rewrite Hrow.
    cbn [fst]. apply (update_by_id Storage.score_id row row l1 l2), OK'.
  - set (row := Storage.score_of_result
                  (Storage.next_id (map Storage.score_id table)) post result).
    assert (Storage.same_score post (model_name result) row = true) as Hrow
      by apply same_score_of_result.
    assert (Storage.scores_ok (table ++ [row])) as OK'.
    { destruct OK as [ND1 ND2]. unfold Storage.scores_ok.
      rewrite !map_app. simpl. split.
      - apply NoDup_snoc; [exact ND1|apply next_id_fresh].
      - apply NoDup_snoc; [exact ND2|].
        intros Hin. apply in_map_iff in Hin. destruct Hin as (s & Hk & Hs).
        rewrite List.Forall_forall in F. specialize (F s Hs).
        apply same_score_key in Hk. congruence. }
    split; [exact OK'|]. split.
    { eexists. rewrite List.filter_app, filter_all_false by assumption.
      simpl. fold row. now rewrite Hrow. }
    split.
    { rewrite List.filter_app. simpl. fold row.
      rewrite Hrow. simpl.
      now rewrite app_nil_r. }
    unfold Storage.add_sentiment_score.
    rewrite find_app_none by now apply find_none.
    simpl. fold row. rewrite Hrow.
    cbn [fst]. apply (update_by_id Storage.score_id row row table []), OK'.
Qed.

(** ** The buckets of the summary *)

Module SummaryReal.
Import RealNum RealFacts Storage.
Local Open Scope R_scope.

Lemma Q2R_tenth : Q2R 0.1 = 1 / 10.
Proof. unfold Q2R. simpl. lra. Qed.

Lemma Q2R_neg_tenth : Q2R (-0.1) = - (1 / 10).
Proof. unfold Q2R. simpl. lra. Qed.

Lemma Q2R_twentieth : Q2R 0.05 = 1 / 20.
Proof. unfold Q2R. simpl. lra. Qed.

Lemma Q2R_neg_twentieth : Q2R (-0.05) = - (1 / 20).
Proof. unfold Q2R. simpl. lra. Qed.

Lemma Q2R_half : Q2R 0.5 = 1 / 2.
Proof. unfold Q2R. simpl. lra. Qed.

(** The bucket of the summary and the label of one compound score. *)
Lemma bucket_and_label (c : R) :
  (Rltb (Q2R 0.1) c = true /\ Rltb c (Q2R (-0.1)) = false
   /\ Rleb (Q2R (-0.1)) c && Rleb c (Q2R 0.1) = false
   /\ get_sentiment_label c = positive)
  \/ (Rltb (Q2R 0.1) c = false /\ Rltb c (Q2R (-0.1)) = true
      /\ Rleb (Q2R (-0.1)) c && Rleb c (Q2R 0.1) = false
      /\ get_sentiment_label c = negative)
  \/ (Rltb (Q2R 0.1) c = false /\ Rltb c (Q2R (-0.1)) = false
      /\ Rleb (Q2R (-0.1)) c && Rleb c (Q2R 0.1) = true).
Proof.
  unfold get_sentiment_label. cbn [geb nleb real_numeric of_Q].
  rewrite Q2R_tenth, Q2R_neg_tenth, Q2R_twentieth, Q2R_neg_twentieth.
  destruct (Rlt_dec (1 / 10) c) as [Hp|Hp];
    [|destruct (Rlt_dec c (- (1 / 10))) as [Hn|Hn]].
  - left. repeat split.
    + now apply Rltb_true.
    + apply Rltb_false. lra.
    + apply andb_false_iff. right. apply Rleb_false. lra.
    + assert (Rleb (1 / 20) c = true) as -> by (apply Rleb_true; lra).
      reflexivity.
  - right. left. repeat split.
    + apply Rltb_false. lra.
    + now apply Rltb_true.
    + apply andb_false_iff. left. apply Rleb_false. lra.
    + assert (Rleb (1 / 20) c = false) as -> by (apply Rleb_false; lra).
      assert (Rleb c (- (1 / 20)) = true) as -> by (apply Rleb_true; lra).
      reflexivity.
  - right. right. repeat split.
    + apply Rltb_false. lra.
    + apply Rltb_false. lra.
    + apply andb_true_iff. split; apply Rleb_true; lra.
Qed.

Definition compound_of (r : Post * SentimentScore R * Keyword) : R :=
  score_compound (row_score r).

Lemma count_where_cons {X} (P : X -> bool) x l :
  count_where P (x :: l)
  = ((if P x then 1 else 0) + count_where P l)%Z.
Proof.
  unfold count_where. simpl. destruct (P x); simpl length; lia.
Qed.

Lemma buckets_of_rows (rows : list (Post * SentimentScore R * Keyword)) :
  (count_where (fun r => gtb (compound_of r) (of_Q 0.1)) rows
   + count_where (fun r => nltb (compound_of r) (of_Q (-0.1))) rows
   + count_where (fun r => geb (compound_of r) (of_Q (-0.1))
                           && nleb (compound_of r) (of_Q 0.1)) rows
   = Z.of_nat (length rows))%Z
  /\ (count_where (fun r => gtb (compound_of r) (of_Q 0.1)) rows
      <= labelled positive rows)%Z
  /\ (count_where (fun r => nltb (compound_of r) (of_Q (-0.1))) rows
      <= labelled negative rows)%Z
  /\ (labelled neutral rows
      <= count_where (fun r => geb (compound_of r) (of_Q (-0.1))
                               && nleb (compound_of r) (of_Q 0.1)) rows)%Z.
Proof.
  induction rows as [|r rows (I1 & I2 & I3 & I4)].
  - unfold labelled, count_where. simpl. lia.
  - unfold labelled in *. rewrite !count_where_cons.
    cbn [gtb geb nltb nleb real_numeric of_Q] in *.
    fold (compound_of r).
    destruct (bucket_and_label (compound_of r))
      as [(-> & -> & -> & ->)|[(-> & -> & -> & ->)|(-> & -> & ->)]].
    + simpl length. lia.
    + simpl length. lia.
    + simpl length.
      destruct (get_sentiment_label (compound_of r)); lia.
Qed.

End SummaryReal.

(** X26: in exact arithmetic the three counts of [get_sentiment_summary] add
    up to [total_posts].  Its buckets are cut at 0.1 and -0.1 while
    [get_sentiment_label] cuts at 0.05 and -0.05: the summary never counts
    more positive or negative rows than are labelled so, and never fewer
    neutral ones. *)
Theorem summary_counts_add_up :
  forall (now : Z) (db : Storage.Db R) (kw : string) (hours : Z),
    let s := Storage.get_sentiment_summary now db kw hours in
    let rows := Storage.summary_rows now db kw hours in
    (stats_positive_count s + stats_negative_count s + stats_neutral_count s
     = stats_total_posts s)%Z /\
    (stats_positive_count s <= Storage.labelled positive rows)%Z /\
    (stats_negative_count s <= Storage.labelled negative rows)%Z /\
    (Storage.labelled neutral rows <= stats_neutral_count s)%Z.
Proof.
  intros now db kw hours. cbv zeta.
  unfold Storage.get_sentiment_summary.
  cbn [stats_positive_count stats_negative_count stats_neutral_count
       stats_total_posts].
  apply (SummaryReal.buckets_of_rows (Storage.summary_rows now db kw hours)).
Qed.

(** ** The rows of the trends *)

Section TrendRows.
Context {num : Type} `{Numeric num}.
Import Storage.

Local Abbreviation row := (Post * SentimentScore num * Keyword)%type.

Definition earlier (a b : row) : Prop :=
  (posted_at (row_post a) <= posted_at (row_post b))%Z.

Lemma insert_row_perm (r : row) l : Permutation (insert_row r l) (r :: l).
Proof.
  induction l as [|x l IH]; simpl; [reflexivity|].
  destruct (posted_at (row_post r) <? posted_at (row_post x))%Z;
    [reflexivity|].
  rewrite IH. apply perm_swap.
Qed.

Lemma insert_row_sorted (r : row) l :
  StronglySorted earlier l -> StronglySorted earlier (insert_row r l).
Proof.
  induction 1 as [|x l S IH F]; simpl.
  - repeat constructor.
  - destruct (posted_at (row_post r) <? posted_at (row_post x))%Z eqn:E.
    + apply Z.ltb_lt in E. constructor; [now constructor|].
      constructor; [unfold earlier; lia|].
      eapply List.Forall_impl; [|exact F].
      unfold earlier. intros y Hy. lia.
    + apply Z.ltb_ge in E. constructor; [exact IH|].
      apply (Permutation_Forall (Permutation_sym (insert_row_perm r l))).
      now constructor.
Qed.

Lemma order_by_fold (l : list row) : forall acc,
  Permutation (fold_left (fun acc r => insert_row r acc) l acc) (l ++ acc)
  /\ (StronglySorted earlier acc ->
      StronglySorted earlier (fold_left (fun acc r => insert_row r acc) l acc)).
Proof.
  induction l as [|x l IH]; intros acc; simpl.
  - split; [reflexivity|trivial].
  - destruct (IH (insert_row x acc)) as [P S]. split.
    + rewrite P, insert_row_perm. symmetry. apply Permutation_middle.
    + intros Sa. apply S. now apply insert_row_sorted.
Qed.

Lemma order_by_perm (l : list row) : Permutation (order_by_posted_at l) l.
Proof.
  unfold order_by_posted_at. destruct (order_by_fold l []) as [P _].
  now rewrite app_nil_r in P.
Qed.

Lemma order_by_sorted (l : list row) :
  StronglySorted earlier (order_by_posted_at l).
Proof.
  unfold order_by_posted_at. destruct (order_by_fold l []) as [_ S].
  apply S. constructor.
Qed.

Lemma filter_andb {X} (P Q : X -> bool) (l : list X) :
  List.filter (fun x => P x && Q x) l = List.filter Q (List.filter P l).
Proof.
  induction l as [|x l IH]; simpl; [reflexivity|].
  destruct (P x); simpl; [|exact IH].
  destruct (Q x); now rewrite IH.
Qed.

Lemma trends_unfold now db kw hours :
  get_sentiment_trends now db kw hours
  = map sample_of
        (order_by_posted_at
           (List.filter confident (summary_rows now db kw hours))).
Proof.
  unfold get_sentiment_trends, summary_rows.
  now rewrite <- (filter_andb _ confident).
Qed.

Lemma sorted_map (l : list row) :
  StronglySorted earlier l ->
  StronglySorted (fun a b : Sample num => (timestamp a <= timestamp b)%Z)
                 (map sample_of l).
Proof.
  induction 1 as [|x l S IH F]; simpl; constructor; [exact IH|].
  apply List.Forall_map. exact F.
Qed.

Lemma trends_rows now db kw hours :
  Permutation (get_sentiment_trends now db kw hours)
              (map sample_of
                   (List.filter confident (summary_rows now db kw hours)))
  /\ StronglySorted (fun a b : Sample num => (timestamp a <= timestamp b)%Z)
                    (get_sentiment_trends now db kw hours).
Proof.
  rewrite trends_unfold. split.
  - apply Permutation_map, order_by_perm.
  - apply sorted_map, order_by_sorted.
Qed.

Lemma summary_rows_recent now db kw hours :
  List.Forall
    (fun r : row => (cutoff_time now hours <= posted_at (row_post r))%Z
                    /\ keyword_text (row_keyword r) = kw
                    /\ In r (joined db))
    (summary_rows now db kw hours).
Proof.
  apply List.Forall_forall. intros r Hr. unfold summary_rows in Hr.
  apply filter_In in Hr. destruct Hr as [Hin Hr].
  apply andb_true_iff in Hr. destruct Hr as [Hk Ht].
  apply String.eqb_eq in Hk. apply Z.geb_le in Ht. tauto.
Qed.

End TrendRows.

(** X27: the rows of [get_sentiment_trends] are the rows the summary counts
    whose confidence is at least 0.5, each once, in the order of their
    timestamps; so there are never more of them than [total_posts], every
    one is inside the period, and scores of a lower confidence are counted
    by the summary and never seen by the trend analysis. *)
Theorem trends_are_the_confident_rows_in_time_order :
  forall (num : Type) (N : Numeric num) (now : Z) (db : Storage.Db num)
         (kw : string) (hours : Z),
    let trends := Storage.get_sentiment_trends now db kw hours in
    Permutation
      trends
      (map Storage.sample_of
           (List.filter Storage.confident
                        (Storage.summary_rows now db kw hours))) /\
    StronglySorted (fun a b => (timestamp a <= timestamp b)%Z) trends /\
    List.Forall
      (fun s => geb (sample_confidence s) (of_Q 0.5) = true
                /\ (Storage.cutoff_time now hours <= timestamp s)%Z)
      trends /\
    (Z.of_nat (length trends)
     <= stats_total_posts (Storage.get_sentiment_summary now db kw hours))%Z.
Proof.
  intros num N now db kw hours trends.
  destruct (trends_rows now db kw hours) as [P S].
  split; [exact P|]. split; [exact S|]. split.
  - apply (Permutation_Forall (Permutation_sym P)).
    apply List.Forall_map. apply List.Forall_forall. intros r Hr.
    apply filter_In in Hr. destruct Hr as [Hr Hc]. split; [exact Hc|].
    pose proof (summary_rows_recent now db kw hours) as F.
    rewrite List.Forall_forall in F. now apply F.
  - subst trends. rewrite (Permutation_length P), length_map.
    cbn [Storage.get_sentiment_summary stats_total_posts].
    apply inj_le, List.filter_length_le.
Qed.

(** ** What the join gives for one more score *)

Section JoinFacts.
Context {num : Type} `{Numeric num}.
Import Storage.
Local Abbreviation row := (Post * SentimentScore num * Keyword)%type.

Lemma joined_In (r : row) (db : Db num) :
  In r (joined db) ->
  In (row_post r) (posts db) /\ In (row_score r) (sentiment_scores db)
  /\ In (row_keyword r) (keywords db).
Proof.
  unfold joined. intros Hr.
  apply in_flat_map in Hr. destruct Hr as (p & Hp & Hr).
  apply in_flat_map in Hr. destruct Hr as (s & Hs & Hr).
  destruct (score_post_id s =? post_id p)%Z; [|contradiction].
  apply in_flat_map in Hr. destruct Hr as (k & Hk & Hr).
  destruct (keyword_id k =? post_keyword_id p)%Z; [|contradiction].
  destruct Hr as [<-|[]]. tauto.
Qed.

Lemma flat_map_nil {X Y} (g : X -> list Y) (l : list X) :
  (forall x, In x l -> g x = []) -> flat_map g l = [].
Proof.
  induction l as [|x l IH]; simpl; intros Hg; [reflexivity|].
  rewrite Hg by tauto. apply IH. intros y Hy. apply Hg. tauto.
Qed.

(** Over a table with unique keys, a join on the key of a row gives what
    it gives for that row. *)
Lemma flat_map_single {X Y} (key : X -> Z) (g : X -> list Y) (l : list X) x0 :
  List.NoDup (map key l) -> In x0 l ->
  (forall x, key x <> key x0 -> g x = []) ->
  flat_map g l = g x0.
Proof.
  intros ND Hin Hg.
  destruct (in_split _ _ Hin) as (l1 & l2 & ->).
  assert (forall x, In x (l1 ++ l2) -> key x <> key x0) as Hne.
  { intros x Hx E. rewrite map_app in ND. simpl in ND.
    apply NoDup_remove_2 in ND. apply ND. rewrite <- map_app, <- E.
    now apply in_map. }
  rewrite flat_map_app. simpl.
  rewrite (flat_map_nil g l1), (flat_map_nil g l2), app_nil_r; trivial.
  - intros x Hx. apply Hg, Hne, in_app_iff. tauto.
  - intros x Hx. apply Hg, Hne, in_app_iff. tauto.
Qed.

(** The rows of the join that hold the score [s]. *)
Definition rows_of_score (db : Db num) (s : SentimentScore num) : list row :=
  flat_map
    (fun p =>
       if (score_post_id s =? post_id p)%Z then
         flat_map
           (fun k =>
              if (keyword_id k =? post_keyword_id p)%Z then [(p, s, k)]
              else [])
           (keywords db)
       else [])
    (posts db).

Lemma filter_flat_map_app {X Y} (P : Y -> bool) (G B : X -> list Y) l :
  length (List.filter P (flat_map (fun x => G x ++ B x) l))
  = (length (List.filter P (flat_map G l))
     + length (List.filter P (flat_map B l)))%nat.
Proof.
  induction l as [|x l IH]; simpl; [reflexivity|].
  rewrite !List.filter_app, !length_app, IH. lia.
Qed.

Lemma joined_snoc (P : row -> bool) ks ps ss (s : SentimentScore num) :
  length (List.filter P
            (joined {| keywords := ks; posts := ps;
                       sentiment_scores := ss ++ [s] |}))
  = (length (List.filter P
               (joined {| keywords := ks; posts := ps;
                          sentiment_scores := ss |}))
     + length (List.filter P
                 (rows_of_score {| keywords := ks; posts := ps;
                                   sentiment_scores := ss |} s)))%nat.
Proof.
  unfold joined, rows_of_score. cbn [keywords posts sentiment_scores].
  rewrite <- filter_flat_map_app. do 2 f_equal.
  apply flat_map_ext. intros p.
  rewrite flat_map_app. simpl. now rewrite app_nil_r.
Qed.

Lemma rows_of_score_one (db : Db num) (s : SentimentScore num) p k :
  List.NoDup (map keyword_id (keywords db)) ->
  List.NoDup (map post_id (posts db)) ->
  In p (posts db) -> In k (keywords db) ->
  score_post_id s = post_id p -> keyword_id k = post_keyword_id p ->
  rows_of_score db s = [(p, s, k)].
Proof.
  intros NDk NDp Hp Hk Es Ek. unfold rows_of_score.
  rewrite (flat_map_single post_id _ (posts db) p NDp Hp).
  - rewrite Es, Z.eqb_refl.
    rewrite (flat_map_single keyword_id _ (keywords db) k NDk Hk).
    + now rewrite Ek, Z.eqb_refl.
    + intros k' Hne. rewrite <- Ek.
      destruct (keyword_id k' =? keyword_id k)%Z eqn:E; [|reflexivity].
      apply Z.eqb_eq in E. contradiction.
  - intros p' Hne. rewrite Es.
    destruct (post_id p =? post_id p')%Z eqn:E; [|reflexivity].
    apply Z.eqb_eq in E. congruence.
Qed.

Definition on_score (h : SentimentScore num -> SentimentScore num) (r : row)
  : row :=
  (fst (fst r), h (snd (fst r)), snd r).

Lemma flat_map_of_map {X Y Z'} (h : X -> Y) (f : Y -> list Z') (l : list X) :
  flat_map f (map h l) = flat_map (fun x => f (h x)) l.
Proof.
  induction l as [|x l IH]; simpl; [reflexivity|]. now rewrite IH.
Qed.

Lemma joined_scores (h : SentimentScore num -> SentimentScore num) ks ps ss :
  (forall s, score_post_id (h s) = score_post_id s) ->
  joined {| keywords := ks; posts := ps; sentiment_scores := map h ss |}
  = map (on_score h)
        (joined {| keywords := ks; posts := ps; sentiment_scores := ss |}).
Proof.
  intros Hid. unfold joined. cbn [keywords posts sentiment_scores].
  rewrite map_flat_map. apply flat_map_ext. intros p.
  rewrite flat_map_of_map, map_flat_map. apply flat_map_ext. intros s.
  rewrite Hid.
  destruct (score_post_id s =? post_id p)%Z; [|reflexivity].
  rewrite map_flat_map. apply flat_map_ext. intros k.
  destruct (keyword_id k =? post_keyword_id p)%Z; reflexivity.
Qed.

(** The update of [add_sentiment_score] as a map that keeps post ids. *)
Definition set_scores (i : Z) (result : ModelResult num)
    (s : SentimentScore num) : SentimentScore num :=
  if (score_id s =? i)%Z
  then score_of_result (score_id s) (score_post_id s) result
  else s.

Lemma set_scores_post i result s :
  score_post_id (set_scores i result s) = score_post_id s.
Proof. unfold set_scores. now destruct (score_id s =? i)%Z. Qed.

Lemma update_score_map l1 (obj : SentimentScore num) l2 post result :
  List.NoDup (map score_id (l1 ++ obj :: l2)) ->
  score_post_id obj = post ->
  l1 ++ score_of_result (score_id obj) post result :: l2
  = map (set_scores (score_id obj) result) (l1 ++ obj :: l2).
Proof.
  intros ND <-.
  rewrite <- (update_by_id score_id
                (score_of_result (score_id obj) (score_post_id obj) result)
                obj l1 l2 ND).
  apply map_ext_in. intros s Hs. unfold set_scores.
  destruct (score_id s =? score_id obj)%Z eqn:E; [|reflexivity].
  apply Z.eqb_eq in E.
  now rewrite (NoDup_map_eq score_id _ s obj ND Hs
                 ltac:(apply in_app_iff; simpl; tauto) E).
Qed.

End JoinFacts.

(** X28: [total_posts] of the summary counts score rows, not posts: for a
    stored post of the keyword inside the period, the first score of a
    model raises it by one although no post was added, and a new score of
    a model that has one leaves it as it is. *)
Theorem total_posts_counts_scores :
  forall (num : Type) (N : Numeric num) (now : Z) (db : Storage.Db num)
         (kw : string) (hours : Z) (p : Storage.Post) (k : Storage.Keyword)
         (result : ModelResult num),
    Storage.keywords_ok (Storage.keywords db) ->
    Storage.posts_ok (Storage.posts db) ->
    Storage.scores_ok (Storage.sentiment_scores db) ->
    In p (Storage.posts db) -> In k (Storage.keywords db) ->
    Storage.keyword_id k = Storage.post_keyword_id p ->
    Storage.keyword_text k = kw ->
    (Storage.cutoff_time now hours <= Storage.posted_at p)%Z ->
    let db' :=
      {| Storage.keywords := Storage.keywords db;
         Storage.posts := Storage.posts db;
         Storage.sentiment_scores :=
           fst (Storage.add_sentiment_score (Storage.post_id p) result
                  (Storage.sentiment_scores db)) |} in
    stats_total_posts (Storage.get_sentiment_summary now db' kw hours)
    = (stats_total_posts (Storage.get_sentiment_summary now db kw hours)
       + match List.find
                 (Storage.same_score (Storage.post_id p) (model_name result))
                 (Storage.sentiment_scores db) with
         | Some _ => 0
         | None => 1
         end)%Z.
Proof.
  intros num N now [ks ps ss] kw hours p k result [NDk _] [NDp _] OK
         Hp Hk Ek Et Hc.
  cbn [Storage.keywords Storage.posts Storage.sentiment_scores] in *.
  cbn [Storage.get_sentiment_summary stats_total_posts].
  unfold Storage.summary_rows.
  destruct (add_sentiment_score_cases (Storage.post_id p) result ss OK)
    as [(l1 & obj & l2 & -> & Ho & F & E')|(F & E')]; rewrite E'.
  - rewrite find_app_none.
    2:{ apply find_none. apply Forall_app in F. tauto. }
    simpl List.find. rewrite Ho.
    rewrite (update_score_map l1 obj l2) by
      (try apply OK; apply same_score_key in Ho; congruence).
    rewrite joined_scores by apply set_scores_post.
    rewrite filter_map_same by reflexivity.
    rewrite length_map. lia.
  - apply find_none in F. rewrite F.
    rewrite joined_snoc.
    rewrite (rows_of_score_one _ _ p k); trivial.
    simpl List.filter. unfold Storage.row_keyword, Storage.row_post.
    cbn [fst snd]. rewrite Et, String.eqb_refl.
    apply Z.geb_le in Hc. rewrite Hc. simpl. lia.
Qed.

(** ** Lexicon scores in the trends *)

Module VaderRows.
Import RealNum RealFacts Storage.
Local Open Scope R_scope.

(** The confidence of a lexicon result is the magnitude of its compound. *)
Lemma vader_confidence polarity t :
  confidence (VADERAnalyzer.analyze (num := R) polarity t)
  = Rabs (compound_score (VADERAnalyzer.analyze polarity t)).
Proof.
  unfold VADERAnalyzer.analyze.
  destruct (polarity t); cbn; [reflexivity|].
  unfold Q2R. simpl. rewrite Rmult_0_l, Rabs_R0. reflexivity.
Qed.

End VaderRows.

(** X29: when the stored scores are results of the lexicon analyzer, whose
    confidence is the magnitude of its compound, the confidence filter of
    [get_sentiment_trends] is a filter on the sentiment itself: no row
    with a compound strictly between -0.5 and 0.5 reaches the trend,
    momentum or anomaly analysis. *)
Theorem lexicon_trends_only_hold_strong_sentiment :
  forall (now : Z) (db : Storage.Db R) (kw : string) (hours : Z),
    List.Forall
      (fun s =>
         exists polarity t id post,
           s = Storage.score_of_result id post
                 (VADERAnalyzer.analyze polarity t))
      (Storage.sentiment_scores db) ->
    List.Forall (fun s => (1 / 2 <= Rabs (sentiment s))%R)
                (Storage.get_sentiment_trends now db kw hours).
Proof.
  intros now db kw hours F.
  destruct (trends_rows now db kw hours) as [P _].
  apply (Permutation_Forall (Permutation_sym P)).
  apply List.Forall_map, List.Forall_forall. intros r Hr.
  apply filter_In in Hr. destruct Hr as [Hr Hc].
  unfold Storage.summary_rows in Hr. apply filter_In in Hr.
  destruct Hr as [Hr _]. apply joined_In in Hr. destruct Hr as (_ & Hs & _).
  rewrite List.Forall_forall in F.
  destruct (F _ Hs) as (polarity & t & id & post & E).
  unfold Storage.confident in Hc. cbn [Storage.sample_of sentiment].
  rewrite E in *. cbn [Storage.score_of_result Storage.score_confidence
                       Storage.score_compound] in *.
  rewrite VaderRows.vader_confidence in Hc.
  cbn [geb nleb RealNum.real_numeric of_Q] in Hc.
  apply RealFacts.Rleb_true in Hc. rewrite SummaryReal.Q2R_half in Hc.
  exact Hc.
Qed.

(** ** A small database *)

Module StorageExample.
Import RealNum Storage.
Local Open Scope R_scope.

(** A lexicon that finds every text mildly positive. *)
Definition mild_lexicon (t : text) : pyres (VADERAnalyzer.PolarityScores R) :=
  Ok {| VADERAnalyzer.ps_compound := 7 / 100; VADERAnalyzer.ps_pos := 1 / 10;
        VADERAnalyzer.ps_neu := 9 / 10; VADERAnalyzer.ps_neg := 0 |}.

Definition the_posts : list Post :=
  [{| post_id := 1; external_id := "a1"; platform_id := 1;
      post_keyword_id := 1; content := text_of_string "great library";
      posted_at := 100; is_processed := true |};
   {| post_id := 2; external_id := "a2"; platform_id := 1;
      post_keyword_id := 1; content := text_of_string "fine, I guess";
      posted_at := 50; is_processed := true |}].

Definition the_scores : list (SentimentScore R) :=
  [score_of_result 1 1 (VADERAnalyzer.analyze AdapterExample.lexicon
                          (text_of_string "great library"));
   score_of_result 2 2 (VADERAnalyzer.analyze mild_lexicon
                          (text_of_string "fine, I guess"))].

Definition db : Db R :=
  {| keywords := KeywordExample.table; posts := the_posts;
     sentiment_scores := the_scores |}.

Lemma posts_are_ok : posts_ok the_posts.
Proof.
  split; simpl.
  - repeat constructor; simpl; intros H; intuition discriminate.
  - repeat constructor; simpl; intros H; intuition discriminate.
Qed.

Lemma scores_are_ok : scores_ok the_scores.
Proof.
  split; simpl.
  - repeat constructor; simpl; intros H; intuition discriminate.
  - repeat constructor; simpl; intros H; intuition discriminate.
Qed.

Lemma scores_are_lexicon_results :
  List.Forall
    (fun s =>
       exists polarity t id post,
         s = score_of_result id post (VADERAnalyzer.analyze polarity t))
    the_scores.
Proof.
  repeat constructor.
  - now exists AdapterExample.lexicon, (text_of_string "great library"), 1%Z, 1%Z.
  - now exists mild_lexicon, (text_of_string "fine, I guess"), 2%Z, 2%Z.
Qed.

(** The result of a second model for the first post. *)
Definition neural_result : ModelResult R :=
  RoBERTaAnalyzer.analyze (Some AdapterExample.loaded)
    (text_of_string "great library").

End StorageExample.

Lemma deactivated_keyword_keeps_its_history_witness :
  Storage.get_sentiment_trends 200
    {| Storage.keywords :=
         fst (Storage.remove_keyword 150 "python" KeywordExample.table);
       Storage.posts := StorageExample.the_posts;
       Storage.sentiment_scores := StorageExample.the_scores |} "python" 1
  = Storage.get_sentiment_trends 200 StorageExample.db "python" 1.
Proof.
  exact (proj2 (deactivated_keyword_keeps_its_history R _ 200 150
                  StorageExample.db "python" "python" 1
                  KeywordExample.table_ok)).
Defined.

Lemma reanalysis_overwrites_the_score_witness :
  Storage.scores_ok
    (fst (Storage.add_sentiment_score 1 StorageExample.neural_result
            StorageExample.the_scores)).
Proof.
  exact (proj1 (reanalysis_overwrites_the_score R _ 1
                  StorageExample.neural_result StorageExample.the_scores
                  StorageExample.scores_are_ok)).
Defined.

Lemma lexicon_trends_only_hold_strong_sentiment_witness :
  List.Forall (fun s => (1 / 2 <= Rabs (sentiment s))%R)
              (Storage.get_sentiment_trends 200 StorageExample.db "python" 1).
Proof.
  exact (lexicon_trends_only_hold_strong_sentiment 200 StorageExample.db
           "python" 1 StorageExample.scores_are_lexicon_results).
Defined.

Lemma total_posts_counts_scores_witness :
  stats_total_posts
    (Storage.get_sentiment_summary 200
       {| Storage.keywords := KeywordExample.table;
          Storage.posts := StorageExample.the_posts;
          Storage.sentiment_scores :=
            fst (Storage.add_sentiment_score 1 StorageExample.neural_result
                   StorageExample.the_scores) |} "python" 1)
  = 3%Z
  /\ stats_total_posts
       (Storage.get_sentiment_summary 200 StorageExample.db "python" 1)
     = 2%Z.
Proof.
  pose proof (total_posts_counts_scores R _ 200 StorageExample.db "python" 1
                {| Storage.post_id := 1; Storage.external_id := "a1";
                   Storage.platform_id := 1; Storage.post_keyword_id := 1;
                   Storage.content := text_of_string "great library";
                   Storage.posted_at := 100; Storage.is_processed := true |}
                {| Storage.keyword_id := 1; Storage.keyword_text := "python";
                   Storage.is_active := true; Storage.updated_at := 0 |}
                StorageExample.neural_result
                KeywordExample.table_ok StorageExample.posts_are_ok
                StorageExample.scores_are_ok
                ltac:(simpl; tauto) ltac:(simpl; tauto)
                eq_refl eq_refl ltac:(vm_compute; discriminate)) as T.
  cbv zeta in T. split; [|reflexivity].
  etransitivity; [exact T|]. reflexivity.
Defined.

(** ** Cleaning the text of a post *)

Module CleanText.
Import Normalizer BaseCollector.

Definition blank (w : text) : bool :=
  match w with [] => true | _ => false end.

(** A piece of a word: no space in it, but it may be empty. *)
Definition piece (w : text) : Prop := List.Forall (fun c => nonspace c = true) w.

Lemma keeps_32 : keeps 32 = true.
Proof. reflexivity. Qed.

(** A character that is kept and is no space is no control character. *)
Lemma kept_nonspace (c : N) :
  keeps c = true -> nonspace c = true -> (32 <= c)%N.
Proof.
  unfold keeps, nonspace. intros K S.
  apply orb_true_iff in K. destruct K as [K|K]; [now apply N.leb_le|].
  apply orb_true_iff in K.
  destruct K as [K|K]; apply N.eqb_eq in K; subst c.
  - vm_compute in S. discriminate S.
  - vm_compute in S. discriminate S.
Qed.

Lemma filter_join (ws : list text) :
  List.filter keeps (join [32%N] ws) = join [32%N] (map (List.filter keeps) ws).
Proof.
  induction ws as [|w ws IH]; [reflexivity|].
  destruct ws as [|w' ws]; [reflexivity|].
  rewrite join_cons by discriminate.
  change (map (List.filter keeps) (w :: w' :: ws))
    with (List.filter keeps w :: map (List.filter keeps) (w' :: ws)).
  rewrite (join_cons _ (map (List.filter keeps) (w' :: ws)))
    by (cbn; discriminate).
  rewrite List.filter_app. cbn [List.filter]. rewrite keeps_32, IH.
  reflexivity.
Qed.

Lemma pieces_of_words (ws : list text) :
  List.Forall word ws -> List.Forall piece (map (List.filter keeps) ws).
Proof.
  intros F. apply List.Forall_map. eapply List.Forall_impl; [|exact F].
  intros w [_ Hw]. unfold piece. apply List.Forall_forall. intros c Hc.
  apply filter_In in Hc. rewrite List.Forall_forall in Hw. now apply Hw.
Qed.

(** [split] finds the pieces that are not empty. *)
Lemma split_join_pieces (ws : list text) :
  List.Forall piece ws ->
  split_ws (join [32%N] ws) = List.filter (fun w => negb (blank w)) ws.
Proof.
  induction 1 as [|w ws Hw F IH]; [reflexivity|].
  destruct ws as [|w' ws].
  - cbn [join List.filter]. destruct w as [|c w]; [reflexivity|].
    apply Forall_cons in Hw. destruct Hw as [Hc Hw].
    unfold nonspace in Hc. apply negb_true_iff in Hc.
    cbn [blank negb]. rewrite split_ws_word by assumption.
    rewrite <- (app_nil_r w) at 1 2.
    rewrite span_take_app, span_drop_app by (assumption || exact I).
    reflexivity.
  - rewrite join_cons by discriminate.
    change (List.filter (fun w => negb (blank w)) (w :: w' :: ws))
      with (if negb (blank w)
            then w :: List.filter (fun w => negb (blank w)) (w' :: ws)
            else List.filter (fun w => negb (blank w)) (w' :: ws)).
    rewrite <- IH.
    destruct w as [|c w]; cbn [blank negb app].
    + now rewrite split_ws_space by reflexivity.
    + apply Forall_cons in Hw. destruct Hw as [Hc Hw].
      unfold nonspace in Hc. apply negb_true_iff in Hc.
      rewrite split_ws_word by assumption.
      rewrite span_take_app, span_drop_app by (assumption || reflexivity).
      now rewrite split_ws_space by reflexivity.
Qed.

(** *** Stripping *)

Lemma lstrip_stops (t : text) : stops is_space (lstrip t).
Proof.
  induction t as [|c t IH]; [exact I|]. cbn [lstrip].
  destruct (is_space c) eqn:E; [exact IH|exact E].
Qed.

Lemma lstrip_fixed (t : text) : stops is_space t -> lstrip t = t.
Proof. destruct t as [|c t]; [reflexivity|]. cbn. now intros ->. Qed.

Lemma lstrip_split (t : text) :
  exists s, t = s ++ lstrip t /\ List.Forall (fun c => is_space c = true) s.
Proof.
  induction t as [|c t (s & E & F)]; [exists []; split; [reflexivity|constructor]|].
  cbn [lstrip]. destruct (is_space c) eqn:Hc.
  - exists (c :: s). split; [cbn; now rewrite <- E|now constructor].
  - exists []. split; [reflexivity|constructor].
Qed.

Lemma split_ws_lstrip (t : text) : split_ws (lstrip t) = split_ws t.
Proof.
  induction t as [|c t IH]; [reflexivity|]. cbn [lstrip].
  destruct (is_space c) eqn:E; [|reflexivity].
  now rewrite split_ws_space by assumption.
Qed.

Lemma span_take_before (p : N -> bool) (a b : text) :
  stops p b -> span_take p (a ++ b) = span_take p a.
Proof.
  intros S. induction a as [|c a IH]; cbn.
  - now apply span_take_stops.
  - destruct (p c); [now rewrite IH|reflexivity].
Qed.

Lemma span_drop_before (p : N -> bool) (a b : text) :
  stops p b -> span_drop p (a ++ b) = span_drop p a ++ b.
Proof.
  intros S. induction a as [|c a IH]; cbn.
  - destruct b as [|d b]; [reflexivity|]. cbn in *. now rewrite S.
  - destruct (p c); [exact IH|reflexivity].
Qed.

Lemma split_ws_spaces (s : text) :
  List.Forall (fun c => is_space c = true) s -> split_ws s = [].
Proof.
  induction 1 as [|c s Hc F IH]; [reflexivity|].
  now rewrite split_ws_space by assumption.
Qed.

Lemma spaces_stop (s : text) :
  List.Forall (fun c => is_space c = true) s -> stops nonspace s.
Proof.
  destruct 1 as [|c s Hc F]; [exact I|]. cbn. unfold nonspace. now rewrite Hc.
Qed.

(** Spaces at the end add no word. *)
Lemma split_ws_trailing_fuel (s : text) (n : nat) :
  List.Forall (fun c => is_space c = true) s ->
  forall a : text, (length a <= n)%nat -> split_ws (a ++ s) = split_ws a.
Proof.
  intros Hs. induction n as [|n IH]; intros a L.
  - destruct a; [|simpl in L; lia]. cbn [app]. now apply split_ws_spaces.
  - destruct a as [|c a]; [cbn [app]; now apply split_ws_spaces|].
    cbn [length] in L. cbn [app]. destruct (is_space c) eqn:Hc.
    + rewrite !split_ws_space by assumption. apply IH. lia.
    + rewrite !split_ws_word by assumption.
      rewrite span_take_before, span_drop_before by now apply spaces_stop.
      rewrite IH; [reflexivity|].
      pose proof (span_drop_length nonspace a). lia.
Qed.

Lemma split_ws_strip (t : text) : split_ws (strip t) = split_ws t.
Proof.
  unfold strip. rewrite <- (split_ws_lstrip t).
  set (z := lstrip t).
  destruct (lstrip_split (rev z)) as (s & E & F).
  apply (f_equal (@rev N)) in E. rewrite rev_involutive, rev_app_distr in E.
  rewrite E at 2.
  symmetry. apply (split_ws_trailing_fuel _ (length (rev (lstrip (rev z))))).
  - now apply Forall_rev.
  - lia.
Qed.

Lemma lstrip_snoc (a : text) (c : N) :
  is_space c = false -> lstrip (a ++ [c]) = lstrip a ++ [c].
Proof.
  intros Hc. induction a as [|d a IH]; cbn.
  - now rewrite Hc.
  - destruct (is_space d); [exact IH|reflexivity].
Qed.

(** The result of [strip] has no space at either end. *)
Lemma strip_ends (t : text) :
  stops is_space (strip t) /\ stops is_space (rev (strip t)).
Proof.
  unfold strip. split.
  - pose proof (lstrip_stops t) as S.
    destruct (lstrip t) as [|c z]; [exact I|]. cbn in S.
    cbn [rev]. rewrite lstrip_snoc by assumption.
    rewrite rev_app_distr. cbn. exact S.
  - rewrite rev_involutive. apply lstrip_stops.
Qed.

Lemma strip_fixed (t : text) :
  stops is_space t -> stops is_space (rev t) -> strip t = t.
Proof.
  intros S1 S2. unfold strip.
  now rewrite (lstrip_fixed t), (lstrip_fixed (rev t)), rev_involutive.
Qed.

Lemma lstrip_Forall (P : N -> Prop) (t : text) :
  List.Forall P t -> List.Forall P (lstrip t).
Proof.
  induction 1 as [|c t Hc F IH]; [constructor|]. cbn.
  destruct (is_space c); [exact IH|now constructor].
Qed.

Lemma strip_Forall (P : N -> Prop) (t : text) :
  List.Forall P t -> List.Forall P (strip t).
Proof.
  intros F. unfold strip.
  apply Forall_rev, lstrip_Forall, Forall_rev, lstrip_Forall, F.
Qed.

(** *** Collapsed text *)

(** Collapsed text holds single spaces and characters that are none. *)
Lemma collapse_chars (t : text) :
  List.Forall (fun c => c = 32%N \/ nonspace c = true) (collapse_whitespace t).
Proof.
  unfold collapse_whitespace. apply join_Forall; [now left|].
  eapply List.Forall_impl; [|apply split_ws_words].
  intros w [_ Hw]. eapply List.Forall_impl; [|exact Hw]. intros c Hc. now right.
Qed.

Lemma join_nonempty (ws : list text) :
  List.Forall word ws -> ws <> [] -> join [32%N] ws <> [].
Proof.
  intros F NE. destruct ws as [|w ws]; [contradiction|].
  apply Forall_cons in F. destruct F as [[Hw _] _].
  destruct ws as [|w' ws]; [exact Hw|].
  rewrite join_cons by discriminate.
  destruct w; [contradiction|discriminate].
Qed.

Lemma stops_app (p : N -> bool) (a b : text) :
  a <> [] -> stops p a -> stops p (a ++ b).
Proof. destruct a; [contradiction|trivial]. Qed.

Lemma word_ends (w : text) :
  word w -> stops is_space w /\ stops is_space (rev w) /\ rev w <> [].
Proof.
  intros [NE Hw].
  assert (forall z : text, z <> [] ->
            List.Forall (fun c => nonspace c = true) z -> stops is_space z) as St.
  { intros [|c z] Hz Fz; [contradiction|]. apply Forall_cons in Fz.
    destruct Fz as [Hc _]. unfold nonspace in Hc. cbn.
    now apply negb_true_iff in Hc. }
  assert (rev w <> []) as NE'.
  { intros E. apply (f_equal (@rev N)) in E.
    now rewrite rev_involutive in E. }
  repeat split; trivial.
  - now apply St.
  - apply St; [exact NE'|now apply Forall_rev].
Qed.

(** Joined words have no space at either end. *)
Lemma join_ends (ws : list text) :
  List.Forall word ws ->
  stops is_space (join [32%N] ws) /\ stops is_space (rev (join [32%N] ws)).
Proof.
  induction 1 as [|w ws Hw F [IH1 IH2]]; [split; exact I|].
  destruct (word_ends w Hw) as (W1 & W2 & W3).
  destruct ws as [|w' ws]; [cbn [join]; tauto|].
  rewrite join_cons by discriminate. split.
  - apply stops_app; [|exact W1]. now destruct Hw.
  - rewrite rev_app_distr. cbn [rev]. rewrite <- app_assoc.
    apply stops_app; [|exact IH2].
    intros E. apply (f_equal (@rev N)) in E. rewrite rev_involutive in E.
    now apply (join_nonempty (w' :: ws) F).
Qed.

Lemma filter_all_true {X} (P : X -> bool) (l : list X) :
  List.Forall (fun x => P x = true) l -> List.filter P l = l.
Proof.
  induction 1 as [|x l Hx F IH]; [reflexivity|]. cbn. now rewrite Hx, IH.
Qed.

(** Text without control characters is only collapsed. *)
Lemma clean_text_plain (t : text) :
  List.Forall (fun c => (32 <= c)%N \/ is_space c = true) t ->
  clean_text t = collapse_whitespace t.
Proof.
  intros F. destruct t as [|c0 t0]; [reflexivity|].
  unfold clean_text. set (t := c0 :: t0) in *. clearbody t.
  rewrite filter_all_true.
  - unfold collapse_whitespace.
    apply strip_fixed; apply join_ends, split_ws_words.
  - assert (List.Forall (fun c => (32 <= c)%N \/ is_space c = true)
                        (collapse_whitespace t)) as F'
      by (apply collapse_Forall; [now left|exact F]).
    pose proof (collapse_chars t) as C.
    rewrite List.Forall_forall in *. intros c Hc.
    destruct (C c Hc) as [->|Hn]; [reflexivity|].
    destruct (F' c Hc) as [Hle|Hs].
    + unfold keeps. apply N.leb_le in Hle. now rewrite Hle.
    + unfold nonspace in Hn. rewrite Hs in Hn. discriminate.
Qed.

End CleanText.

(** X30: [clean_text] never returns a character below 32, so no newline or
    tab survives in spite of the exemption the code gives them, and no
    space at either end.  The words of the result are the words of the
    input without their control characters, the emptied ones dropped.
    On a text whose characters below 32 are all white space it only
    collapses the white space, and cleaning the result again changes
    nothing. *)
Theorem clean_text_words :
  forall t : text,
    let out := BaseCollector.clean_text t in
    List.Forall (fun c => (32 <= c)%N) out /\
    Normalizer.stops is_space out /\
    Normalizer.stops is_space (rev out) /\
    split_ws out
    = List.filter (fun w => negb (CleanText.blank w))
                  (map (List.filter BaseCollector.keeps) (split_ws t)) /\
    (List.Forall (fun c => (32 <= c)%N \/ is_space c = true) t ->
     out = collapse_whitespace t /\ BaseCollector.clean_text out = out).
Proof.
  intros t out. subst out.
  destruct t as [|c0 t0].
  { cbn. repeat split; trivial. }
  set (t := c0 :: t0).
  assert (BaseCollector.clean_text t
          = strip (List.filter BaseCollector.keeps (collapse_whitespace t)))
    as E by reflexivity.
  clearbody t.
  split.
  { rewrite E. apply CleanText.strip_Forall.
    pose proof (CleanText.collapse_chars t) as C.
    apply List.Forall_forall. intros c Hc. apply filter_In in Hc.
    destruct Hc as [Hc K]. rewrite List.Forall_forall in C.
    destruct (C c Hc) as [->|Hn]; [discriminate|].
    now apply CleanText.kept_nonspace. }
  split; [rewrite E; apply CleanText.strip_ends|].
  split; [rewrite E; apply CleanText.strip_ends|].
  split.
  { rewrite E, CleanText.split_ws_strip. unfold collapse_whitespace.
    rewrite CleanText.filter_join.
    apply CleanText.split_join_pieces, CleanText.pieces_of_words,
      Normalizer.split_ws_words. }
  intros F. rewrite (CleanText.clean_text_plain t F).
  split; [reflexivity|].
  rewrite CleanText.clean_text_plain.
  - apply Normalizer.collapse_collapse.
  - apply Normalizer.collapse_Forall; [now left|exact F].
Qed.

Module CleanTextExample.
Import BaseCollector.

(** ["a \x01 b"]: the control character goes, its two spaces stay. *)
Definition lone_control : text := [97; 32; 1; 32; 98]%N.

Lemma lone_control_leaves_two_spaces :
  clean_text lone_control = [97; 32; 32; 98]%N
  /\ clean_text (clean_text lone_control) = [97; 32; 98]%N.
Proof. split; reflexivity. Qed.

(** A tab and a newline are turned into spaces, not kept. *)
Lemma tab_and_newline_become_spaces :
  clean_text [97; 9; 98; 10; 99]%N = [97; 32; 98; 32; 99]%N.
Proof. reflexivity. Qed.

End CleanTextExample.

